(** * Gopher360: the per-tick controller-to-mouse/keyboard mapping engine

    A shallow embedding of [Gopher.cpp] (class [Gopher]): the button edge
    tracker ([setXboxClickState]), the key and mouse mappers ([mapKeyboard],
    [mapMouseClick], [handleTriggers]), the disable toggle
    ([handleDisableButton]), the analog motion functions ([getDelta],
    [getMult], [handleMouseMovement], [handleScrolling]) and the driver
    ([loop]).

    Conventions.
    - C++ integers are [Z]; [WORD]/[DWORD] codes are non-negative [Z].
    - C++ [float] is IEEE-754 binary32, modelled by the Standard Library's
      [spec_float] at precision 24 and maximal exponent 128.
    - [std::map<DWORD, T>] members are [gmap Z T]; [operator[]] on a missing
      key yields the value-initialised default ([false], [0]).
    - [std::list<WORD> _pressedKeys] is a [list Z], front of the list first.
    - Calls into the operating system (SendInput, SetCursorPos, XInput
      vibration, Sleep, ShowWindow, printf) are recorded, in call order, as
      a list of [Event]s. *)

From Stdlib Require Import ZArith QArith List Bool Lia String Ascii SpecFloat.
From stdpp Require Import base option gmap strings pretty.
Import ListNotations.

Local Open Scope Z_scope.

(** ** IEEE-754 binary32 *)

Module F32.

Definition prec : Z := 24.
Definition emax : Z := 128.

Definition float : Type := spec_float.

Definition add : float -> float -> float := SFadd prec emax.
Definition sub : float -> float -> float := SFsub prec emax.
Definition mul : float -> float -> float := SFmul prec emax.
Definition div : float -> float -> float := SFdiv prec emax.
Definition sqrt : float -> float := SFsqrt prec emax.

(** [a > b] on floats (false when either side is a NaN). *)
Definition gt (a b : float) : bool := SFltb b a.

(** Conversion of an integer to [float], round to nearest even. *)
Definition of_Z (n : Z) : float := binary_normalize prec emax n 0 false.

Definition zero : float := S754_zero false.

(** The integer part of a finite float, rounded toward zero. *)
Definition trunc (f : float) : Z :=
  match f with
  | S754_finite s m e =>
      let a := match e with
               | Z0 => Zpos m
               | Zpos _ => Z.shiftl (Zpos m) e
               | Zneg _ => Z.shiftr (Zpos m) (- e)
               end in
      if s then - a else a
  | _ => 0
  end.

Definition is_finite (f : float) : bool :=
  match f with
  | S754_finite _ _ _ | S754_zero _ => true
  | _ => false
  end.

(** [(int)f]: truncation toward zero.  The conversion has no defined
    result when [f] is a NaN, an infinity, or its integer part does not
    fit an [int]; the x86 conversion instructions then yield [INT_MIN],
    which is what the model returns. *)
Definition to_int (f : float) : Z :=
  if is_finite f && (- 2 ^ 31 <=? trunc f) && (trunc f <? 2 ^ 31)
  then trunc f else - 2 ^ 31.

(** [(DWORD)f]: the integer part reduced modulo [2^32], which is what the
    64-bit conversion followed by a narrowing store produces (a negative
    integer part [-k] becomes [2^32 - k]). *)
Definition to_DWORD (f : float) : Z :=
  if is_finite f then trunc f mod 2 ^ 32 else 0.

(** Sign bit of a float that is not a NaN. *)
Definition signbit (f : float) : option bool :=
  match f with
  | S754_zero s | S754_infinity s | S754_finite s _ _ => Some s
  | S754_nan => None
  end.




End F32.

Abbreviation float := F32.float.

(** ** Constants of the Windows headers

    [winuser.h] virtual-key codes and [SendInput] flags, [XInput.h] button
    masks and [MAXSHORT], with the values the Windows SDK gives them. *)

Definition VK_LBUTTON : Z := 0x01.
Definition VK_RBUTTON : Z := 0x02.
Definition VK_MBUTTON : Z := 0x04.

Definition KEYEVENTF_KEYUP : Z := 0x0002.

Definition MOUSEEVENTF_LEFTDOWN : Z := 0x0002.
Definition MOUSEEVENTF_LEFTUP : Z := 0x0004.
Definition MOUSEEVENTF_RIGHTDOWN : Z := 0x0008.
Definition MOUSEEVENTF_RIGHTUP : Z := 0x0010.
Definition MOUSEEVENTF_MIDDLEDOWN : Z := 0x0020.
Definition MOUSEEVENTF_MIDDLEUP : Z := 0x0040.
Definition MOUSEEVENTF_XDOWN : Z := 0x0080.
Definition MOUSEEVENTF_XUP : Z := 0x0100.
Definition MOUSEEVENTF_WHEEL : Z := 0x0800.
Definition MOUSEEVENTF_HWHEEL : Z := 0x1000.

Definition XINPUT_GAMEPAD_DPAD_UP : Z := 0x0001.
Definition XINPUT_GAMEPAD_DPAD_DOWN : Z := 0x0002.
Definition XINPUT_GAMEPAD_DPAD_LEFT : Z := 0x0004.
Definition XINPUT_GAMEPAD_DPAD_RIGHT : Z := 0x0008.
Definition XINPUT_GAMEPAD_START : Z := 0x0010.
Definition XINPUT_GAMEPAD_BACK : Z := 0x0020.
Definition XINPUT_GAMEPAD_LEFT_THUMB : Z := 0x0040.
Definition XINPUT_GAMEPAD_RIGHT_THUMB : Z := 0x0080.
Definition XINPUT_GAMEPAD_LEFT_SHOULDER : Z := 0x0100.
Definition XINPUT_GAMEPAD_RIGHT_SHOULDER : Z := 0x0200.
Definition XINPUT_GAMEPAD_A : Z := 0x1000.
Definition XINPUT_GAMEPAD_B : Z := 0x2000.
Definition XINPUT_GAMEPAD_X : Z := 0x4000.
Definition XINPUT_GAMEPAD_Y : Z := 0x8000.

Definition MAXSHORT : Z := 0x7fff.

(** ** The output sink *)

Inductive Window := ConsoleWindow | OskWindow.

Inductive ShowCmd := SW_HIDE | SW_SHOW | SW_RESTORE | SW_MINIMIZE.

Inductive Message :=
| MsgSpeed (speed : float) (name : string)
| MsgVibration (disabled : bool)
| MsgWindow (hidden : bool)
| MsgStartOsk.

(** One constructor per kind of call that leaves the program.
    [SendKeyboard cmds flag] is one [SendInput] call carrying one keyboard
    input per element of [cmds], all with the same [flag]. *)
Inductive Event :=
| SendKeyboard (cmds : list Z) (flag : Z)
| SendMouse (dwFlags mouseData : Z)
| SetCursorPos (x y : Z)
| Vibrate (l r : Z)
| Sleep (ms : Z)
| ShowWindow (w : Window) (cmd : ShowCmd)
| Printf (m : Message).

(** ** The input source *)

(** [XINPUT_GAMEPAD]: [wButtons] is a 16-bit mask, the triggers are bytes,
    the thumbstick axes are signed 16-bit. *)
Record XINPUT_GAMEPAD := {
  wButtons : Z;
  bLeftTrigger : Z;
  bRightTrigger : Z;
  sThumbLX : Z;
  sThumbLY : Z;
  sThumbRX : Z;
  sThumbRY : Z
}.

(** What one iteration of [loop] reads from outside: the controller state
    ([GetState]), the cursor position ([GetCursorPos]) and, when it looks
    for it, the On-Screen Keyboard window ([None] when there is none,
    [Some iconic] otherwise). *)
Record TickInput := {
  pad : XINPUT_GAMEPAD;
  cursor_x : Z;
  cursor_y : Z;
  osk : option bool
}.

(** The values of a [short]. *)
Definition is_short (t : Z) : Prop := -32768 <= t <= 32767.

(** ** Configuration

    The members assigned by [loadConfigFile], together with the three
    constants of [Gopher.h] that the loop reads ([FPS], [SLEEP_AMOUNT],
    [TRIGGER_DEAD_ZONE]); the header is not part of the sources at hand, so
    the constants are kept as fields rather than fixed.  The command
    bindings are button masks, the controller bindings are vectors of key
    codes; the dead zones, which [loadConfigFile] reads with [strtol], and
    the three constants are integers. *)
Record Config := {
  CONFIG_MOUSE_LEFT : Z;
  CONFIG_MOUSE_RIGHT : Z;
  CONFIG_MOUSE_MIDDLE : Z;
  CONFIG_HIDE : Z;
  CONFIG_DISABLE : Z;
  CONFIG_DISABLE_VIBRATION : Z;
  CONFIG_SPEED_CHANGE : Z;
  CONFIG_OSK : Z;
  GAMEPAD_DPAD_UP : list Z;
  GAMEPAD_DPAD_DOWN : list Z;
  GAMEPAD_DPAD_LEFT : list Z;
  GAMEPAD_DPAD_RIGHT : list Z;
  GAMEPAD_START : list Z;
  GAMEPAD_BACK : list Z;
  GAMEPAD_LEFT_THUMB : list Z;
  GAMEPAD_RIGHT_THUMB : list Z;
  GAMEPAD_LEFT_SHOULDER : list Z;
  GAMEPAD_RIGHT_SHOULDER : list Z;
  GAMEPAD_A : list Z;
  GAMEPAD_B : list Z;
  GAMEPAD_X : list Z;
  GAMEPAD_Y : list Z;
  GAMEPAD_TRIGGER_LEFT : list Z;
  GAMEPAD_TRIGGER_RIGHT : list Z;
  acceleration_factor : float;
  DEAD_ZONE : Z;
  SCROLL_DEAD_ZONE : Z;
  SCROLL_SPEED : float;
  speeds : list float;
  speed_names : list string;
  SWAP_THUMBSTICKS : Z;
  FPS : Z;
  SLEEP_AMOUNT : Z;
  TRIGGER_DEAD_ZONE : Z
}.

(** ** The mutable members of [Gopher] *)

(** The five per-button maps written by [setXboxClickState]. *)
Record ClickMaps := {
  _xboxClickStateLastIteration : gmap Z bool;
  _xboxClickIsDown : gmap Z bool;
  _xboxClickIsDownLong : gmap Z bool;
  _xboxClickDownLength : gmap Z Z;
  _xboxClickIsUp : gmap Z bool
}.

Record Gopher := {
  cfg : Config;
  _currentState : XINPUT_GAMEPAD;
  _disabled : bool;
  _vibrationDisabled : bool;
  _hidden : bool;
  _lTriggerPrevious : bool;
  _rTriggerPrevious : bool;
  _xRest : float;
  _yRest : float;
  speed_idx : Z;
  speed : float;
  clicks : ClickMaps;
  _pressedKeys : list Z
}.

Definition set_currentState (v : XINPUT_GAMEPAD) (g : Gopher) : Gopher :=
  {| cfg := cfg g; _currentState := v; _disabled := _disabled g;
     _vibrationDisabled := _vibrationDisabled g; _hidden := _hidden g;
     _lTriggerPrevious := _lTriggerPrevious g;
     _rTriggerPrevious := _rTriggerPrevious g;
     _xRest := _xRest g; _yRest := _yRest g;
     speed_idx := speed_idx g; speed := speed g;
     clicks := clicks g; _pressedKeys := _pressedKeys g |}.

Definition set_disabled (v : bool) (g : Gopher) : Gopher :=
  {| cfg := cfg g; _currentState := _currentState g; _disabled := v;
     _vibrationDisabled := _vibrationDisabled g; _hidden := _hidden g;
     _lTriggerPrevious := _lTriggerPrevious g;
     _rTriggerPrevious := _rTriggerPrevious g;
     _xRest := _xRest g; _yRest := _yRest g;
     speed_idx := speed_idx g; speed := speed g;
     clicks := clicks g; _pressedKeys := _pressedKeys g |}.

Definition set_vibrationDisabled (v : bool) (g : Gopher) : Gopher :=
  {| cfg := cfg g; _currentState := _currentState g; _disabled := _disabled g;
     _vibrationDisabled := v; _hidden := _hidden g;
     _lTriggerPrevious := _lTriggerPrevious g;
     _rTriggerPrevious := _rTriggerPrevious g;
     _xRest := _xRest g; _yRest := _yRest g;
     speed_idx := speed_idx g; speed := speed g;
     clicks := clicks g; _pressedKeys := _pressedKeys g |}.

Definition set_hidden (v : bool) (g : Gopher) : Gopher :=
  {| cfg := cfg g; _currentState := _currentState g; _disabled := _disabled g;
     _vibrationDisabled := _vibrationDisabled g; _hidden := v;
     _lTriggerPrevious := _lTriggerPrevious g;
     _rTriggerPrevious := _rTriggerPrevious g;
     _xRest := _xRest g; _yRest := _yRest g;
     speed_idx := speed_idx g; speed := speed g;
     clicks := clicks g; _pressedKeys := _pressedKeys g |}.

Definition set_lTriggerPrevious (v : bool) (g : Gopher) : Gopher :=
  {| cfg := cfg g; _currentState := _currentState g; _disabled := _disabled g;
     _vibrationDisabled := _vibrationDisabled g; _hidden := _hidden g;
     _lTriggerPrevious := v;
     _rTriggerPrevious := _rTriggerPrevious g;
     _xRest := _xRest g; _yRest := _yRest g;
     speed_idx := speed_idx g; speed := speed g;
     clicks := clicks g; _pressedKeys := _pressedKeys g |}.

Definition set_rTriggerPrevious (v : bool) (g : Gopher) : Gopher :=
  {| cfg := cfg g; _currentState := _currentState g; _disabled := _disabled g;
     _vibrationDisabled := _vibrationDisabled g; _hidden := _hidden g;
     _lTriggerPrevious := _lTriggerPrevious g;
     _rTriggerPrevious := v;
     _xRest := _xRest g; _yRest := _yRest g;
     speed_idx := speed_idx g; speed := speed g;
     clicks := clicks g; _pressedKeys := _pressedKeys g |}.

Definition set_rest (vx vy : float) (g : Gopher) : Gopher :=
  {| cfg := cfg g; _currentState := _currentState g; _disabled := _disabled g;
     _vibrationDisabled := _vibrationDisabled g; _hidden := _hidden g;
     _lTriggerPrevious := _lTriggerPrevious g;
     _rTriggerPrevious := _rTriggerPrevious g;
     _xRest := vx; _yRest := vy;
     speed_idx := speed_idx g; speed := speed g;
     clicks := clicks g; _pressedKeys := _pressedKeys g |}.

Definition set_speed (i : Z) (v : float) (g : Gopher) : Gopher :=
  {| cfg := cfg g; _currentState := _currentState g; _disabled := _disabled g;
     _vibrationDisabled := _vibrationDisabled g; _hidden := _hidden g;
     _lTriggerPrevious := _lTriggerPrevious g;
     _rTriggerPrevious := _rTriggerPrevious g;
     _xRest := _xRest g; _yRest := _yRest g;
     speed_idx := i; speed := v;
     clicks := clicks g; _pressedKeys := _pressedKeys g |}.

Definition set_clicks (v : ClickMaps) (g : Gopher) : Gopher :=
  {| cfg := cfg g; _currentState := _currentState g; _disabled := _disabled g;
     _vibrationDisabled := _vibrationDisabled g; _hidden := _hidden g;
     _lTriggerPrevious := _lTriggerPrevious g;
     _rTriggerPrevious := _rTriggerPrevious g;
     _xRest := _xRest g; _yRest := _yRest g;
     speed_idx := speed_idx g; speed := speed g;
     clicks := v; _pressedKeys := _pressedKeys g |}.

Definition set_pressedKeys (v : list Z) (g : Gopher) : Gopher :=
  {| cfg := cfg g; _currentState := _currentState g; _disabled := _disabled g;
     _vibrationDisabled := _vibrationDisabled g; _hidden := _hidden g;
     _lTriggerPrevious := _lTriggerPrevious g;
     _rTriggerPrevious := _rTriggerPrevious g;
     _xRest := _xRest g; _yRest := _yRest g;
     speed_idx := speed_idx g; speed := speed g;
     clicks := clicks g; _pressedKeys := v |}.

Definition set_LastIteration (v : gmap Z bool) (c : ClickMaps) : ClickMaps :=
  {| _xboxClickStateLastIteration := v;
     _xboxClickIsDown := _xboxClickIsDown c;
     _xboxClickIsDownLong := _xboxClickIsDownLong c;
     _xboxClickDownLength := _xboxClickDownLength c;
     _xboxClickIsUp := _xboxClickIsUp c |}.

Definition set_IsDown (v : gmap Z bool) (c : ClickMaps) : ClickMaps :=
  {| _xboxClickStateLastIteration := _xboxClickStateLastIteration c;
     _xboxClickIsDown := v;
     _xboxClickIsDownLong := _xboxClickIsDownLong c;
     _xboxClickDownLength := _xboxClickDownLength c;
     _xboxClickIsUp := _xboxClickIsUp c |}.

Definition set_IsDownLong (v : gmap Z bool) (c : ClickMaps) : ClickMaps :=
  {| _xboxClickStateLastIteration := _xboxClickStateLastIteration c;
     _xboxClickIsDown := _xboxClickIsDown c;
     _xboxClickIsDownLong := v;
     _xboxClickDownLength := _xboxClickDownLength c;
     _xboxClickIsUp := _xboxClickIsUp c |}.

Definition set_DownLength (v : gmap Z Z) (c : ClickMaps) : ClickMaps :=
  {| _xboxClickStateLastIteration := _xboxClickStateLastIteration c;
     _xboxClickIsDown := _xboxClickIsDown c;
     _xboxClickIsDownLong := _xboxClickIsDownLong c;
     _xboxClickDownLength := v;
     _xboxClickIsUp := _xboxClickIsUp c |}.

Definition set_IsUp (v : gmap Z bool) (c : ClickMaps) : ClickMaps :=
  {| _xboxClickStateLastIteration := _xboxClickStateLastIteration c;
     _xboxClickIsDown := _xboxClickIsDown c;
     _xboxClickIsDownLong := _xboxClickIsDownLong c;
     _xboxClickDownLength := _xboxClickDownLength c;
     _xboxClickIsUp := v |}.

(** [m[k]] read as an rvalue: the stored value, or the value-initialised
    default when the key is missing. *)
Definition at_bool (m : gmap Z bool) (k : Z) : bool :=
  match m !! k with Some v => v | None => false end.
Definition at_int (m : gmap Z Z) (k : Z) : Z :=
  match m !! k with Some v => v | None => 0 end.

(** ** ButtonEdgeTracker: [Gopher::setXboxClickState] *)

(** [Gopher::xboxClickStateExists]. *)
Definition xboxClickStateExists (STATE : Z) (c : ClickMaps) : bool :=
  match _xboxClickStateLastIteration c !! STATE with
  | Some _ => true
  | None => false
  end.

Definition LONG_PRESS_TIME : Z := 200.

(** The body of [setXboxClickState], statement by statement, on the five
    maps; [sleep_amount] is [SLEEP_AMOUNT] and [buttons] is
    [_currentState.Gamepad.wButtons]. *)
Definition setXboxClickState_maps (sleep_amount buttons STATE : Z)
    (c : ClickMaps) : ClickMaps :=
  let c := set_IsDown (<[STATE := false]> (_xboxClickIsDown c)) c in
  let c := set_IsUp (<[STATE := false]> (_xboxClickIsUp c)) c in
  let c :=
    if negb (xboxClickStateExists STATE c)
    then set_LastIteration (<[STATE := false]> (_xboxClickStateLastIteration c)) c
    else c in
  let isDown := Z.land buttons STATE =? STATE in
  (* Detect if the button has been pressed. *)
  let c :=
    if isDown && negb (at_bool (_xboxClickStateLastIteration c) STATE)
    then
      let c := set_LastIteration (<[STATE := true]> (_xboxClickStateLastIteration c)) c in
      let c := set_IsDown (<[STATE := true]> (_xboxClickIsDown c)) c in
      let c := set_DownLength (<[STATE := 0]> (_xboxClickDownLength c)) c in
      set_IsDownLong (<[STATE := false]> (_xboxClickIsDownLong c)) c
    else c in
  (* Detect if the button has been held as a long press. *)
  let c :=
    if isDown && at_bool (_xboxClickStateLastIteration c) STATE
    then
      let c := set_DownLength
                 (<[STATE := at_int (_xboxClickDownLength c) STATE + 1]>
                    (_xboxClickDownLength c)) c in
      if at_int (_xboxClickDownLength c) STATE * sleep_amount >? LONG_PRESS_TIME
      then set_IsDownLong (<[STATE := true]> (_xboxClickIsDownLong c)) c
      else c
    else c in
  (* Detect if the button has been released. *)
  let c :=
    if negb isDown && at_bool (_xboxClickStateLastIteration c) STATE
    then
      let c := set_LastIteration (<[STATE := false]> (_xboxClickStateLastIteration c)) c in
      let c := set_IsUp (<[STATE := true]> (_xboxClickIsUp c)) c in
      set_IsDownLong (<[STATE := false]> (_xboxClickIsDownLong c)) c
    else c in
  set_LastIteration (<[STATE := isDown]> (_xboxClickStateLastIteration c)) c.

(** ** Sequencing

    A computation reads and updates the [Gopher] object and appends to the
    log of emitted events. *)

Definition Run (A : Type) : Type := Gopher -> A * Gopher * list Event.

Definition ret {A : Type} (a : A) : Run A := fun g => (a, g, []).

Definition bind {A B : Type} (m : Run A) (k : A -> Run B) : Run B :=
  fun g =>
    match m g with
    | (a, g1, e1) =>
        match k a g1 with
        | (b, g2, e2) => (b, g2, e1 ++ e2)
        end
    end.

Definition get : Run Gopher := fun g => (g, g, []).
Definition modify (f : Gopher -> Gopher) : Run unit := fun g => (tt, f g, []).
Definition emit (e : Event) : Run unit := fun g => (tt, g, [e]).

Declare Scope run_scope.
Delimit Scope run_scope with run.
Notation "x <- m ;; k" := (bind m (fun x => k))
  (at level 20, m at level 99, k at level 200) : run_scope.
Notation "m ;; k" := (bind m (fun _ => k))
  (at level 100, k at level 200, right associativity) : run_scope.
Local Open Scope run_scope.

Definition when (b : bool) (m : Run unit) : Run unit :=
  if b then m else ret tt.

Fixpoint forEach {A : Type} (l : list A) (body : A -> Run unit) : Run unit :=
  match l with
  | [] => ret tt
  | a :: l' => body a ;; forEach l' body
  end.

(** The state and the events of a computation started in [g]. *)
Definition exec {A : Type} (m : Run A) (g : Gopher) : Gopher := snd (fst (m g)).
Definition events {A : Type} (m : Run A) (g : Gopher) : list Event := snd (m g).

(** ** Emitters *)

(** [inputKeyboard]: one [SendInput] call for the whole vector. *)
Definition inputKeyboard (cmds : list Z) (flag : Z) : Run unit :=
  emit (SendKeyboard cmds flag).

Definition inputKeyboardDown (cmds : list Z) : Run unit := inputKeyboard cmds 0.
Definition inputKeyboardUp (cmds : list Z) : Run unit :=
  inputKeyboard cmds KEYEVENTF_KEYUP.

(** [mouseEvent]: [mouseData] is only passed on for the wheel and X-button
    events. *)
Definition mouseEvent (dwFlags mouseData : Z) : Run unit :=
  emit (SendMouse dwFlags
          (if (dwFlags =? MOUSEEVENTF_WHEEL) || (dwFlags =? MOUSEEVENTF_XUP)
              || (dwFlags =? MOUSEEVENTF_XDOWN) || (dwFlags =? MOUSEEVENTF_HWHEEL)
           then mouseData else 0)).

(** [Gopher::pulseVibrate]. *)
Definition pulseVibrate (duration l r : Z) : Run unit :=
  g <- get ;;
  when (negb (_vibrationDisabled g))
    (emit (Vibrate l r) ;; emit (Sleep duration) ;; emit (Vibrate 0 0)).

(** [Gopher::setXboxClickState] on the object. *)
Definition setXboxClickState (STATE : Z) : Run unit :=
  modify (fun g =>
    set_clicks
      (setXboxClickState_maps (SLEEP_AMOUNT (cfg g)) (wButtons (_currentState g))
         STATE (clicks g)) g).

Definition isDown_of (g : Gopher) (STATE : Z) : bool :=
  at_bool (_xboxClickIsDown (clicks g)) STATE.
Definition isUp_of (g : Gopher) (STATE : Z) : bool :=
  at_bool (_xboxClickIsUp (clicks g)) STATE.
Definition isDownLong_of (g : Gopher) (STATE : Z) : bool :=
  at_bool (_xboxClickIsDownLong (clicks g)) STATE.

(** ** PressedKeySet *)

(** [Gopher::erasePressedKey] on the list: the first element equal to [key]
    is removed; the boolean tells whether one was found. *)
Fixpoint erase_first (key : Z) (l : list Z) : bool * list Z :=
  match l with
  | [] => (false, [])
  | k :: l' =>
      if k =? key then (true, l')
      else let (found, r) := erase_first key l' in (found, k :: r)
  end.

Definition erasePressedKey (key : Z) : Run bool :=
  fun g =>
    let (found, r) := erase_first key (_pressedKeys g) in
    (found, set_pressedKeys r g, []).

Definition push_back (key : Z) : Run unit :=
  modify (fun g => set_pressedKeys (_pressedKeys g ++ [key]) g).

(** ** InputMapper *)

(** [Gopher::mapKeyboard]. *)
Definition mapKeyboard (STATE : Z) (keys : list Z) : Run unit :=
  setXboxClickState STATE ;;
  g <- get ;;
  when (isDown_of g STATE)
    (inputKeyboardDown keys ;;
     forEach keys push_back) ;;
  g <- get ;;
  when (isUp_of g STATE)
    (inputKeyboardUp keys ;;
     forEach keys (fun key => _ <- erasePressedKey key ;; ret tt)).

(** [Gopher::mapMouseClick]. *)
Definition mapMouseClick (STATE keyDown keyUp : Z) : Run unit :=
  setXboxClickState STATE ;;
  g <- get ;;
  when (isDown_of g STATE)
    (mouseEvent keyDown 0 ;;
     if keyDown =? MOUSEEVENTF_LEFTDOWN then push_back VK_LBUTTON
     else if keyDown =? MOUSEEVENTF_RIGHTDOWN then push_back VK_RBUTTON
     else if keyDown =? MOUSEEVENTF_MIDDLEDOWN then push_back VK_MBUTTON
     else ret tt) ;;
  g <- get ;;
  when (isUp_of g STATE)
    (mouseEvent keyUp 0 ;;
     if keyUp =? MOUSEEVENTF_LEFTUP then _ <- erasePressedKey VK_LBUTTON ;; ret tt
     else if keyUp =? MOUSEEVENTF_RIGHTUP then _ <- erasePressedKey VK_RBUTTON ;; ret tt
     else if keyUp =? MOUSEEVENTF_MIDDLEUP then _ <- erasePressedKey VK_MBUTTON ;; ret tt
     else ret tt).

(** [Gopher::handleTriggers]. *)
Definition handleTriggers (lKey rKey : list Z) : Run unit :=
  g <- get ;;
  let lTriggerIsDown :=
    bLeftTrigger (_currentState g) >? TRIGGER_DEAD_ZONE (cfg g) in
  let rTriggerIsDown :=
    bRightTrigger (_currentState g) >? TRIGGER_DEAD_ZONE (cfg g) in
  (* Handle left trigger *)
  when (negb (eqb lTriggerIsDown (_lTriggerPrevious g)))
    (modify (set_lTriggerPrevious lTriggerIsDown) ;;
     if lTriggerIsDown then inputKeyboardDown lKey else inputKeyboardUp lKey) ;;
  (* Handle right trigger *)
  g <- get ;;
  when (negb (eqb rTriggerIsDown (_rTriggerPrevious g)))
    (modify (set_rTriggerPrevious rTriggerIsDown) ;;
     if rTriggerIsDown then inputKeyboardDown rKey else inputKeyboardUp rKey).

(** ** Disable toggle: [Gopher::handleDisableButton] *)

(** The [while (!_pressedKeys.empty())] loop: each round reads the front
    code, sends the mouse-up for a mouse-button code or queues the code in
    [keyboardEvents], and pops the front.  The result is the final
    [keyboardEvents] vector. *)
Fixpoint releasePressed (pressed : list Z) (keyboardEvents : list Z)
    : Run (list Z) :=
  match pressed with
  | [] => ret keyboardEvents
  | keyEvent :: rest =>
      keyboardEvents <-
        (if keyEvent =? VK_LBUTTON then
           mouseEvent MOUSEEVENTF_LEFTUP 0 ;; ret keyboardEvents
         else if keyEvent =? VK_RBUTTON then
           mouseEvent MOUSEEVENTF_RIGHTUP 0 ;; ret keyboardEvents
         else if keyEvent =? VK_MBUTTON then
           mouseEvent MOUSEEVENTF_MIDDLEUP 0 ;; ret keyboardEvents
         else ret (keyboardEvents ++ [keyEvent])) ;;
      modify (set_pressedKeys rest) ;;
      releasePressed rest keyboardEvents
  end.

Definition handleDisableButton : Run unit :=
  g <- get ;;
  setXboxClickState (CONFIG_DISABLE (cfg g)) ;;
  g <- get ;;
  when (isDown_of g (CONFIG_DISABLE (cfg g)))
    (modify (fun g => set_disabled (negb (_disabled g)) g) ;;
     g <- get ;;
     intensity <-
       (if _disabled g then
          (* Transition to a disabled state: release all keys currently
             pressed by the Gopher mapping. *)
          keyboardEvents <- releasePressed (_pressedKeys g) [] ;;
          when (negb (match keyboardEvents with [] => true | _ => false end))
            (inputKeyboardUp keyboardEvents) ;;
          ret 10000
        else ret 65000) ;;
     pulseVibrate 400 intensity intensity).

(** [Gopher::handleVibrationButton]. *)
Definition handleVibrationButton : Run unit :=
  g <- get ;;
  setXboxClickState (CONFIG_DISABLE_VIBRATION (cfg g)) ;;
  g <- get ;;
  when (isDown_of g (CONFIG_DISABLE_VIBRATION (cfg g)))
    (modify (fun g => set_vibrationDisabled (negb (_vibrationDisabled g)) g) ;;
     g <- get ;;
     emit (Printf (MsgVibration (_vibrationDisabled g))) ;;
     emit (Sleep 1000)).

(** [Gopher::setWindowVisibility] and [Gopher::toggleWindowVisibility]. *)
Definition setWindowVisibility : Run unit :=
  g <- get ;;
  emit (ShowWindow ConsoleWindow (if _hidden g then SW_HIDE else SW_SHOW)).

Definition toggleWindowVisibility : Run unit :=
  modify (fun g => set_hidden (negb (_hidden g)) g) ;;
  g <- get ;;
  emit (Printf (MsgWindow (_hidden g))) ;;
  setWindowVisibility.

(** ** MotionCurve *)

(** Two's-complement reduction of an [int] result. *)
Definition wrap_int (n : Z) : Z := (n + 2 ^ 31) mod 2 ^ 32 - 2 ^ 31.

(** The literal [0.0001f]. *)
Definition f_0_0001 : float := S754_finite false 13743895 (-37).

(** The conversion of an integer to [short]: the value of the same residue
    modulo [2^16] within the signed 16-bit range (the narrowing the Visual
    C++ compiler performs, and the one C++20 prescribes). *)
Definition to_short (n : Z) : Z := (n + 2 ^ 15) mod 2 ^ 16 - 2 ^ 15.

(** [Gopher::getDelta(short t)].  The argument of the call is converted to
    the [short] parameter first; the two comparisons are the ones of the
    source, on the promoted [int] value of that [short]. *)
Definition getDelta (t : Z) : float :=
  let t := to_short t in
  let t := if t >? 32767 then 0 else t in
  let t := if t <? -32768 then 0 else t in
  F32.of_Z t.

Section Motion.

(** [pow] of the C library on floats; its rounding is not specified, so
    it stays a parameter of the motion functions. *)
Variable powf : float -> float -> float.

(** [Gopher::getMult]; [fps] is the constant [FPS]. *)
Definition getMult (fps : Z) (lengthsq deadzone accel : float) : float :=
  (* Normalize the thumbstick value. *)
  let mult := F32.div (F32.sub (F32.sqrt lengthsq) deadzone)
                      (F32.sub (F32.of_Z MAXSHORT) deadzone) in
  (* Apply a curve to the normalized thumbstick value. *)
  let mult := if F32.gt accel f_0_0001 then powf mult accel else mult in
  F32.div mult (F32.of_Z fps).

(** The locals of [handleMouseMovement] after [x += dx] and [y -= dy]:
    the displacement [(dx, dy)] and the target coordinate [(x, y)]. *)
Record Movement := { mv_dx : float; mv_dy : float; mv_x : float; mv_y : float }.

Definition movement (g : Gopher) (inp : TickInput) : Movement :=
  let c := cfg g in
  let tx := if SWAP_THUMBSTICKS c =? 0 then sThumbLX (_currentState g)
            else sThumbRX (_currentState g) in
  let ty := if SWAP_THUMBSTICKS c =? 0 then sThumbLY (_currentState g)
            else sThumbRY (_currentState g) in
  let x := F32.add (F32.of_Z (cursor_x inp)) (_xRest g) in
  let y := F32.add (F32.of_Z (cursor_y inp)) (_yRest g) in
  (* Handle dead zone *)
  let lengthsq := F32.of_Z (wrap_int (tx * tx + ty * ty)) in
  let '(dx, dy) :=
    if F32.gt lengthsq (F32.of_Z (wrap_int (DEAD_ZONE c * DEAD_ZONE c)))
    then
      let mult := F32.mul (speed g)
                    (getMult (FPS c) lengthsq (F32.of_Z (DEAD_ZONE c))
                       (acceleration_factor c)) in
      (F32.mul (getDelta tx) mult, F32.mul (getDelta ty) mult)
    else (F32.zero, F32.zero) in
  {| mv_dx := dx; mv_dy := dy; mv_x := F32.add x dx; mv_y := F32.sub y dy |}.

(** [Gopher::handleMouseMovement]. *)
Definition handleMouseMovement (inp : TickInput) : Run unit :=
  g <- get ;;
  let m := movement g inp in
  let x := mv_x m in
  let y := mv_y m in
  modify (set_rest (F32.sub x (F32.of_Z (F32.to_int x)))
                   (F32.sub y (F32.of_Z (F32.to_int y)))) ;;
  emit (SetCursorPos (F32.to_int x) (F32.to_int y)).

(** The two wheel amounts of [handleScrolling], before their conversion
    to the [DWORD] parameter of [mouseEvent]. *)
Definition scroll_amount (c : Config) (t : float) : float :=
  F32.mul (F32.mul t (getMult (FPS c) (F32.mul t t)
                        (F32.of_Z (SCROLL_DEAD_ZONE c)) F32.zero))
          (SCROLL_SPEED c).

(** [Gopher::handleScrolling]. *)
Definition handleScrolling : Run unit :=
  g <- get ;;
  let c := cfg g in
  let tx := if SWAP_THUMBSTICKS c =? 0 then getDelta (sThumbRX (_currentState g))
            else getDelta (sThumbLX (_currentState g)) in
  let ty := if SWAP_THUMBSTICKS c =? 0 then getDelta (sThumbRY (_currentState g))
            else getDelta (sThumbLY (_currentState g)) in
  (* Handle dead zone *)
  let magnitude := F32.sqrt (F32.add (F32.mul tx tx) (F32.mul ty ty)) in
  when (F32.gt magnitude (F32.of_Z (SCROLL_DEAD_ZONE c)))
    (mouseEvent MOUSEEVENTF_HWHEEL (F32.to_DWORD (scroll_amount c tx)) ;;
     mouseEvent MOUSEEVENTF_WHEEL (F32.to_DWORD (scroll_amount c ty))).

(** ** Speed cycling: the [CONFIG_SPEED_CHANGE] block of [loop] *)

Definition CHANGE_SPEED_VIBRATION_INTENSITY : Z := 65000.
Definition CHANGE_SPEED_VIBRATION_DURATION : Z := 450.

(** [speed_idx++; if (speed_idx >= speeds.size()) speed_idx = 0;]. *)
Definition next_speed_idx (n idx : Z) : Z :=
  let idx := idx + 1 in
  if idx >=? n then 0 else idx.

(** [speeds[i]]; indexing past the end has no defined result and reads
    as zero here. *)
Definition speed_at (c : Config) (i : Z) : float :=
  nth (Z.to_nat i) (speeds c) F32.zero.
Definition speed_name_at (c : Config) (i : Z) : string :=
  nth (Z.to_nat i) (speed_names c) EmptyString.

Definition changeSpeed : Run unit :=
  modify (fun g =>
    let i := next_speed_idx (Z.of_nat (length (speeds (cfg g)))) (speed_idx g) in
    set_speed i (speed_at (cfg g) i) g) ;;
  g <- get ;;
  emit (Printf (MsgSpeed (speed g) (speed_name_at (cfg g) (speed_idx g)))) ;;
  pulseVibrate CHANGE_SPEED_VIBRATION_DURATION
    CHANGE_SPEED_VIBRATION_INTENSITY CHANGE_SPEED_VIBRATION_INTENSITY.

(** ** GopherLoop: [Gopher::loop] *)

Definition nonempty (keys : list Z) : bool :=
  match keys with [] => false | _ => true end.

(** The on-screen keyboard block. *)
Definition toggleOsk (inp : TickInput) : Run unit :=
  match osk inp with
  | None => emit (Printf MsgStartOsk)
  | Some true => emit (ShowWindow OskWindow SW_RESTORE)
  | Some false => emit (ShowWindow OskWindow SW_MINIMIZE)
  end.

(** Everything [loop] does after the [if (_disabled) return;]. *)
Definition dispatch (inp : TickInput) : Run unit :=
  g <- get ;;
  let c := cfg g in
  (* Vibration *)
  handleVibrationButton ;;
  (* Mouse functions *)
  handleMouseMovement inp ;;
  handleScrolling ;;
  when (negb (CONFIG_MOUSE_LEFT c =? 0))
    (mapMouseClick (CONFIG_MOUSE_LEFT c) MOUSEEVENTF_LEFTDOWN MOUSEEVENTF_LEFTUP) ;;
  when (negb (CONFIG_MOUSE_RIGHT c =? 0))
    (mapMouseClick (CONFIG_MOUSE_RIGHT c) MOUSEEVENTF_RIGHTDOWN MOUSEEVENTF_RIGHTUP) ;;
  when (negb (CONFIG_MOUSE_MIDDLE c =? 0))
    (mapMouseClick (CONFIG_MOUSE_MIDDLE c) MOUSEEVENTF_MIDDLEDOWN MOUSEEVENTF_MIDDLEUP) ;;
  (* Hides the console *)
  when (negb (CONFIG_HIDE c =? 0))
    (setXboxClickState (CONFIG_HIDE c) ;;
     g <- get ;;
     when (isDown_of g (CONFIG_HIDE c)) toggleWindowVisibility) ;;
  (* Toggle the on-screen keyboard *)
  when (negb (CONFIG_OSK c =? 0))
    (setXboxClickState (CONFIG_OSK c) ;;
     g <- get ;;
     when (isDown_of g (CONFIG_OSK c)) (toggleOsk inp)) ;;
  (* Will change between the current speed values *)
  setXboxClickState (CONFIG_SPEED_CHANGE c) ;;
  g <- get ;;
  when (isDown_of g (CONFIG_SPEED_CHANGE c)) changeSpeed ;;
  (* Update all controller keys. *)
  handleTriggers (GAMEPAD_TRIGGER_LEFT c) (GAMEPAD_TRIGGER_RIGHT c) ;;
  when (nonempty (GAMEPAD_DPAD_UP c))
    (mapKeyboard XINPUT_GAMEPAD_DPAD_UP (GAMEPAD_DPAD_UP c)) ;;
  when (nonempty (GAMEPAD_DPAD_DOWN c))
    (mapKeyboard XINPUT_GAMEPAD_DPAD_DOWN (GAMEPAD_DPAD_DOWN c)) ;;
  when (nonempty (GAMEPAD_DPAD_LEFT c))
    (mapKeyboard XINPUT_GAMEPAD_DPAD_LEFT (GAMEPAD_DPAD_LEFT c)) ;;
  when (nonempty (GAMEPAD_DPAD_RIGHT c))
    (mapKeyboard XINPUT_GAMEPAD_DPAD_RIGHT (GAMEPAD_DPAD_RIGHT c)) ;;
  when (nonempty (GAMEPAD_START c))
    (mapKeyboard XINPUT_GAMEPAD_START (GAMEPAD_START c)) ;;
  when (nonempty (GAMEPAD_BACK c))
    (mapKeyboard XINPUT_GAMEPAD_BACK (GAMEPAD_BACK c)) ;;
  when (nonempty (GAMEPAD_LEFT_THUMB c))
    (mapKeyboard XINPUT_GAMEPAD_LEFT_THUMB (GAMEPAD_LEFT_THUMB c)) ;;
  when (nonempty (GAMEPAD_RIGHT_THUMB c))
    (mapKeyboard XINPUT_GAMEPAD_RIGHT_THUMB (GAMEPAD_RIGHT_THUMB c)) ;;
  when (nonempty (GAMEPAD_LEFT_SHOULDER c))
    (mapKeyboard XINPUT_GAMEPAD_LEFT_SHOULDER (GAMEPAD_LEFT_SHOULDER c)) ;;
  when (nonempty (GAMEPAD_RIGHT_SHOULDER c))
    (mapKeyboard XINPUT_GAMEPAD_RIGHT_SHOULDER (GAMEPAD_RIGHT_SHOULDER c)) ;;
  when (nonempty (GAMEPAD_A c))
    (mapKeyboard XINPUT_GAMEPAD_A (GAMEPAD_A c)) ;;
  when (nonempty (GAMEPAD_B c))
    (mapKeyboard XINPUT_GAMEPAD_B (GAMEPAD_B c)) ;;
  when (nonempty (GAMEPAD_X c))
    (mapKeyboard XINPUT_GAMEPAD_X (GAMEPAD_X c)) ;;
  when (nonempty (GAMEPAD_Y c))
    (mapKeyboard XINPUT_GAMEPAD_Y (GAMEPAD_Y c)).

(** One iteration of the main program loop. *)
Definition loop (inp : TickInput) : Run unit :=
  g <- get ;;
  emit (Sleep (SLEEP_AMOUNT (cfg g))) ;;
  modify (set_currentState (pad inp)) ;;
  (* Disable Gopher *)
  handleDisableButton ;;
  g <- get ;;
  if _disabled g then ret tt else dispatch inp.

End Motion.

(** ** Ticks of the edge tracker *)

(** Whether the snapshot [p] shows every bit of [STATE] set. *)
Definition button_down (STATE : Z) (p : XINPUT_GAMEPAD) : bool :=
  Z.land (wButtons p) STATE =? STATE.

(** One tick as the tracker sees it: the snapshot is stored, then the
    button is queried once. *)
Definition observe (STATE : Z) (g : Gopher) (p : XINPUT_GAMEPAD) : Gopher :=
  exec (setXboxClickState STATE) (set_currentState p g).

(** Consecutive ticks, oldest snapshot first. *)
Definition observe_all (STATE : Z) (g : Gopher) (ps : list XINPUT_GAMEPAD)
    : Gopher :=
  fold_left (observe STATE) ps g.

Definition lastIteration_of (g : Gopher) (STATE : Z) : bool :=
  at_bool (_xboxClickStateLastIteration (clicks g)) STATE.
Definition downLength_of (g : Gopher) (STATE : Z) : Z :=
  at_int (_xboxClickDownLength (clicks g)) STATE.

(** ** Releasing on disable *)

Definition is_mouse_code (k : Z) : bool :=
  (k =? VK_LBUTTON) || (k =? VK_RBUTTON) || (k =? VK_MBUTTON).

(** The mouse-up flag that answers a mouse-button code. *)
Definition mouse_up_flag (k : Z) : Z :=
  if k =? VK_LBUTTON then MOUSEEVENTF_LEFTUP
  else if k =? VK_RBUTTON then MOUSEEVENTF_RIGHTUP
  else MOUSEEVENTF_MIDDLEUP.

(** The individual mouse-up calls for the mouse-button codes of [pressed],
    and the remaining (keyboard) codes, both in the order of [pressed]. *)
Definition mouse_releases (pressed : list Z) : list Event :=
  map (fun k => SendMouse (mouse_up_flag k) 0) (List.filter is_mouse_code pressed).
Definition keyboard_codes (pressed : list Z) : list Z :=
  List.filter (fun k => negb (is_mouse_code k)) pressed.

(** The batched key-up: one [SendInput] call for all of [codes], and no
    call when there is none. *)
Definition batched_key_up (codes : list Z) : list Event :=
  match codes with
  | [] => []
  | _ => [SendKeyboard codes KEYEVENTF_KEYUP]
  end.

(** The calls of one vibration pulse. *)
Definition pulse_events (g : Gopher) (duration l r : Z) : list Event :=
  if _vibrationDisabled g then [] else [Vibrate l r; Sleep duration; Vibrate 0 0].

(** ** Down and up events of the output sink *)

(** The codes an emitted event presses: the keys of a keyboard call
    without [KEYEVENTF_KEYUP], and the virtual mouse-button code of a
    mouse-down call. *)
Definition down_codes (e : Event) : list Z :=
  match e with
  | SendKeyboard cmds flag =>
      if Z.land flag KEYEVENTF_KEYUP =? 0 then cmds else []
  | SendMouse dwFlags _ =>
      if dwFlags =? MOUSEEVENTF_LEFTDOWN then [VK_LBUTTON]
      else if dwFlags =? MOUSEEVENTF_RIGHTDOWN then [VK_RBUTTON]
      else if dwFlags =? MOUSEEVENTF_MIDDLEDOWN then [VK_MBUTTON]
      else []
  | _ => []
  end.

(** The codes an emitted event releases. *)
Definition up_codes (e : Event) : list Z :=
  match e with
  | SendKeyboard cmds flag =>
      if Z.land flag KEYEVENTF_KEYUP =? 0 then [] else cmds
  | SendMouse dwFlags _ =>
      if dwFlags =? MOUSEEVENTF_LEFTUP then [VK_LBUTTON]
      else if dwFlags =? MOUSEEVENTF_RIGHTUP then [VK_RBUTTON]
      else if dwFlags =? MOUSEEVENTF_MIDDLEUP then [VK_MBUTTON]
      else []
  | _ => []
  end.

(** How many down events of code [k] are still unmatched after the event
    [e], when [n] were unmatched before it: every down adds one, every up
    answers one (an up with no down to answer is dropped). *)
Definition unmatched_step (k : Z) (n : nat) (e : Event) : nat :=
  (n + count_occ Z.eq_dec (down_codes e) k - count_occ Z.eq_dec (up_codes e) k)%nat.

(** The number of unmatched down events of code [k] in an event log. *)
Definition unmatched (k : Z) (log : list Event) : nat :=
  fold_left (unmatched_step k) log 0%nat.

(** How often the code [k] occurs in [_pressedKeys]. *)
Definition held_count (k : Z) (g : Gopher) : nat :=
  count_occ Z.eq_dec (_pressedKeys g) k.

(** ** Runs of the loop *)

(** Consecutive iterations of [loop], one per input, with the whole log. *)
Fixpoint run_ticks (powf : float -> float -> float) (inps : list TickInput)
    (g : Gopher) : Gopher * list Event :=
  match inps with
  | [] => (g, [])
  | inp :: rest =>
      let g1 := exec (loop powf inp) g in
      let '(g2, log) := run_ticks powf rest g1 in
      (g2, events (loop powf inp) g ++ log)
  end.

(** ** A concrete object

    A configuration in the shape [loadConfigFile] produces, with the built-in
    speed table, and the object as it stands before the first tick. *)

Definition f_tenth : float := F32.div (F32.of_Z 1) (F32.of_Z 10).
Definition f_thousandths (n : Z) : float := F32.div (F32.of_Z n) (F32.of_Z 1000).

Definition example_config : Config := {|
  CONFIG_MOUSE_LEFT := XINPUT_GAMEPAD_A;
  CONFIG_MOUSE_RIGHT := XINPUT_GAMEPAD_X;
  CONFIG_MOUSE_MIDDLE := XINPUT_GAMEPAD_Y;
  CONFIG_HIDE := 0;
  CONFIG_DISABLE := 0x0030;
  CONFIG_DISABLE_VIBRATION := 0x0090;
  CONFIG_SPEED_CHANGE := 0x0300;
  CONFIG_OSK := 0;
  GAMEPAD_DPAD_UP := [0x26];
  GAMEPAD_DPAD_DOWN := [0x28];
  GAMEPAD_DPAD_LEFT := [0x25];
  GAMEPAD_DPAD_RIGHT := [0x27];
  GAMEPAD_START := [0x5B];
  GAMEPAD_BACK := [0x5B; 0x44];
  GAMEPAD_LEFT_THUMB := [];
  GAMEPAD_RIGHT_THUMB := [];
  GAMEPAD_LEFT_SHOULDER := [0x11; 0x43];
  GAMEPAD_RIGHT_SHOULDER := [0x11; 0x56];
  GAMEPAD_A := [];
  GAMEPAD_B := [0x0D];
  GAMEPAD_X := [];
  GAMEPAD_Y := [];
  GAMEPAD_TRIGGER_LEFT := [0x20];
  GAMEPAD_TRIGGER_RIGHT := [0x08];
  acceleration_factor := F32.zero;
  DEAD_ZONE := 6000;
  SCROLL_DEAD_ZONE := 5000;
  SCROLL_SPEED := f_tenth;
  speeds := [f_thousandths 5; f_thousandths 15; f_thousandths 25; f_thousandths 4];
  speed_names := ["ULTRALOW"; "LOW"; "MED"; "HIGH"]%string;
  SWAP_THUMBSTICKS := 0;
  FPS := 150;
  SLEEP_AMOUNT := 6;
  TRIGGER_DEAD_ZONE := 0
|}.

Definition idle_pad : XINPUT_GAMEPAD := {|
  wButtons := 0; bLeftTrigger := 0; bRightTrigger := 0;
  sThumbLX := 0; sThumbLY := 0; sThumbRX := 0; sThumbRY := 0
|}.

Definition no_clicks : ClickMaps := {|
  _xboxClickStateLastIteration := ∅;
  _xboxClickIsDown := ∅;
  _xboxClickIsDownLong := ∅;
  _xboxClickDownLength := ∅;
  _xboxClickIsUp := ∅
|}.

Definition example_gopher : Gopher := {|
  cfg := example_config;
  _currentState := idle_pad;
  _disabled := false;
  _vibrationDisabled := false;
  _hidden := false;
  _lTriggerPrevious := false;
  _rTriggerPrevious := false;
  _xRest := F32.zero;
  _yRest := F32.zero;
  speed_idx := 0;
  speed := f_thousandths 5;
  clicks := no_clicks;
  _pressedKeys := []
|}.

(** A snapshot with the given buttons, left stick and left trigger, and the
    cursor at [(100, 100)]. *)
Definition pad_with (buttons lx ly lt : Z) : XINPUT_GAMEPAD := {|
  wButtons := buttons; bLeftTrigger := lt; bRightTrigger := 0;
  sThumbLX := lx; sThumbLY := ly; sThumbRX := 0; sThumbRY := 0
|}.

Definition input_with (buttons lx ly lt : Z) : TickInput := {|
  pad := pad_with buttons lx ly lt; cursor_x := 100; cursor_y := 100; osk := None
|}.

(** Stands in for the C library's [pow] where a run never reaches it (the
    acceleration factor of [example_config] is zero). *)
Definition pow_unused (x a : float) : float := x.

(** The object after one tick with BACK and A held: BACK is bound to two
    keys, A to the left mouse button. *)
Definition holding_gopher : Gopher :=
  exec (loop pow_unused (input_with 0x1020 0 0 0)) example_gopher.

(** The object after a disable press (BACK + START). *)
Definition disabled_gopher : Gopher :=
  exec (loop pow_unused (input_with 0x0030 0 0 0)) example_gopher.

(** ** Checking a property on every value of a range *)

(** Structural equality of floats. *)
Definition float_eqb (x y : float) : bool :=
  match x, y with
  | S754_zero s1, S754_zero s2 => Bool.eqb s1 s2
  | S754_infinity s1, S754_infinity s2 => Bool.eqb s1 s2
  | S754_nan, S754_nan => true
  | S754_finite s1 m1 e1, S754_finite s2 m2 e2 =>
      Bool.eqb s1 s2 && Pos.eqb m1 m2 && Z.eqb e1 e2
  | _, _ => false
  end.

(** [check_from f lo n]: [f] holds of the [n] integers from [lo] on. *)
Fixpoint check_from (f : Z -> bool) (lo : Z) (n : nat) : bool :=
  match n with
  | O => true
  | S k => f lo && check_from f (lo + 1) k
  end.

(** [f] holds of every integer in [lo, hi). *)
Definition check_range (f : Z -> bool) (lo hi : Z) : bool :=
  check_from f lo (Z.to_nat (hi - lo)).

(** A finite, non-zero float of sign [s]. *)
Definition is_finite_nonzero (s : bool) (f : float) : bool :=
  match f with
  | S754_finite s' _ _ => Bool.eqb s s'
  | _ => false
  end.

(** ** Wheel amounts

    [mouseData] of a wheel event is a [DWORD] that [SendInput] reads as a
    signed amount. *)

Definition signed_DWORD (d : Z) : Z := if d <? 2 ^ 31 then d else d - 2 ^ 32.

(** The [mouseData] of the first mouse event with the flag [dwFlags]. *)
Fixpoint wheel_data (dwFlags : Z) (log : list Event) : option Z :=
  match log with
  | [] => None
  | SendMouse f d :: rest => if f =? dwFlags then Some d else wheel_data dwFlags rest
  | _ :: rest => wheel_data dwFlags rest
  end.

(** The emitted amount scrolls against the axis value [t]. *)
Definition reverses_axis (t emitted : Z) : Prop :=
  Z.sgn (signed_DWORD emitted) = - Z.sgn t.

(** A snapshot with only the right stick deflected. *)
Definition scroll_pad (rx ry : Z) : XINPUT_GAMEPAD := {|
  wButtons := 0; bLeftTrigger := 0; bRightTrigger := 0;
  sThumbLX := 0; sThumbLY := 0; sThumbRX := rx; sThumbRY := ry
|}.

(** [magnitude] of [handleScrolling]. *)
Definition scroll_magnitude (tx ty : float) : float :=
  F32.sqrt (F32.add (F32.mul tx tx) (F32.mul ty ty)).

(** ** Rounding to 24 significant bits *)

(** [n] shifted right by [k] bits and rounded to nearest, ties to even. *)
Definition rnd (n k : Z) : Z :=
  let q := n / 2 ^ k in
  let rem := n mod 2 ^ k in
  let half := 2 ^ (k - 1) in
  if rem <? half then q
  else if rem =? half then (if Z.even q then q else q + 1)
  else q + 1.

(** The integer nearest to [n] among those with at most 24 significant
    bits (ties to the even mantissa): the value of [(float)n]. *)
Definition nearest24 (n : Z) : Z :=
  if n <? 2 ^ 24 then n
  else let k := Z.log2 n - 23 in rnd n k * 2 ^ k.

(** ** Frames and bookkeeping of computations *)

(** [preserves f m]: running [m] does not change the observation [f] of the
    object. *)
Definition preserves {A X : Type} (f : Gopher -> X) (m : Run A) : Prop :=
  forall g, f (exec m g) = f g.

(** [tracks_at g m]: over the run of [m] from [g], the occurrences of every
    code in [_pressedKeys] change exactly as the unmatched down events of
    the emitted log do. *)
Definition tracks_at {A : Type} (g : Gopher) (m : Run A) : Prop :=
  forall k, held_count k (exec m g)
            = fold_left (unmatched_step k) (events m g) (held_count k g).

Definition tracks {A : Type} (m : Run A) : Prop := forall g, tracks_at g m.

(** An event that presses and releases nothing. *)
Definition silent (e : Event) : Prop := down_codes e = [] /\ up_codes e = [].

(** ** Entries of the edge tracker *)

(** [untouched k c c']: the five maps of [c'] hold for the button [k] what
    those of [c] hold. *)
Definition untouched (k : Z) (c c' : ClickMaps) : Prop :=
  _xboxClickStateLastIteration c' !! k = _xboxClickStateLastIteration c !! k /\
  _xboxClickIsDown c' !! k = _xboxClickIsDown c !! k /\
  _xboxClickIsUp c' !! k = _xboxClickIsUp c !! k /\
  _xboxClickIsDownLong c' !! k = _xboxClickIsDownLong c !! k /\
  _xboxClickDownLength c' !! k = _xboxClickDownLength c !! k.

(** ** The vibration motors *)

(** The motor speeds after the event [e], given the speeds before it. *)
Definition motor_step (s : Z * Z) (e : Event) : Z * Z :=
  match e with
  | Vibrate l r => (l, r)
  | _ => s
  end.

(** The motor speeds at the end of a log. *)
Definition motors_after (log : list Event) (s : Z * Z) : Z * Z :=
  fold_left motor_step log s.

(** [rests m]: a run of [m] that starts with the motors stopped ends with
    the motors stopped. *)
Definition rests {A : Type} (m : Run A) : Prop :=
  forall g, motors_after (events m g) (0, 0) = (0, 0).

(** ** Runs of one handler *)

(** [m] run once per snapshot, oldest first, each snapshot stored in
    [_currentState] before the run, with the whole log. *)
Fixpoint run_on (m : Run unit) (ps : list XINPUT_GAMEPAD) (g : Gopher)
    : Gopher * list Event :=
  match ps with
  | [] => (g, [])
  | p :: rest =>
      let g0 := set_currentState p g in
      let '(g2, log) := run_on m rest (exec m g0) in
      (g2, events m g0 ++ log)
  end.

(** The trigger readings of a snapshot against the dead zone [dz]. *)
Definition left_pulled (dz : Z) (p : XINPUT_GAMEPAD) : bool := bLeftTrigger p >? dz.
Definition right_pulled (dz : Z) (p : XINPUT_GAMEPAD) : bool := bRightTrigger p >? dz.

(** [c] with another disable command and other trigger bindings. *)
Definition rebind (disable : Z) (lKey rKey : list Z) (c : Config) : Config := {|
  CONFIG_MOUSE_LEFT := CONFIG_MOUSE_LEFT c;
  CONFIG_MOUSE_RIGHT := CONFIG_MOUSE_RIGHT c;
  CONFIG_MOUSE_MIDDLE := CONFIG_MOUSE_MIDDLE c;
  CONFIG_HIDE := CONFIG_HIDE c;
  CONFIG_DISABLE := disable;
  CONFIG_DISABLE_VIBRATION := CONFIG_DISABLE_VIBRATION c;
  CONFIG_SPEED_CHANGE := CONFIG_SPEED_CHANGE c;
  CONFIG_OSK := CONFIG_OSK c;
  GAMEPAD_DPAD_UP := GAMEPAD_DPAD_UP c;
  GAMEPAD_DPAD_DOWN := GAMEPAD_DPAD_DOWN c;
  GAMEPAD_DPAD_LEFT := GAMEPAD_DPAD_LEFT c;
  GAMEPAD_DPAD_RIGHT := GAMEPAD_DPAD_RIGHT c;
  GAMEPAD_START := GAMEPAD_START c;
  GAMEPAD_BACK := GAMEPAD_BACK c;
  GAMEPAD_LEFT_THUMB := GAMEPAD_LEFT_THUMB c;
  GAMEPAD_RIGHT_THUMB := GAMEPAD_RIGHT_THUMB c;
  GAMEPAD_LEFT_SHOULDER := GAMEPAD_LEFT_SHOULDER c;
  GAMEPAD_RIGHT_SHOULDER := GAMEPAD_RIGHT_SHOULDER c;
  GAMEPAD_A := GAMEPAD_A c;
  GAMEPAD_B := GAMEPAD_B c;
  GAMEPAD_X := GAMEPAD_X c;
  GAMEPAD_Y := GAMEPAD_Y c;
  GAMEPAD_TRIGGER_LEFT := lKey;
  GAMEPAD_TRIGGER_RIGHT := rKey;
  acceleration_factor := acceleration_factor c;
  DEAD_ZONE := DEAD_ZONE c;
  SCROLL_DEAD_ZONE := SCROLL_DEAD_ZONE c;
  SCROLL_SPEED := SCROLL_SPEED c;
  speeds := speeds c;
  speed_names := speed_names c;
  SWAP_THUMBSTICKS := SWAP_THUMBSTICKS c;
  FPS := FPS c;
  SLEEP_AMOUNT := SLEEP_AMOUNT c;
  TRIGGER_DEAD_ZONE := TRIGGER_DEAD_ZONE c
|}.


(** [g] with the configuration [c]. *)
Definition set_cfg (c : Config) (g : Gopher) : Gopher :=
  {| cfg := c; _currentState := _currentState g; _disabled := _disabled g;
     _vibrationDisabled := _vibrationDisabled g; _hidden := _hidden g;
     _lTriggerPrevious := _lTriggerPrevious g;
     _rTriggerPrevious := _rTriggerPrevious g;
     _xRest := _xRest g; _yRest := _yRest g;
     speed_idx := speed_idx g; speed := speed g;
     clicks := clicks g; _pressedKeys := _pressedKeys g |}.

(** The example object with no key bound to the triggers, and with no
    button bound to the disable command. *)
Definition plain_gopher : Gopher :=
  set_cfg (rebind 0x0030 [] [] example_config) example_gopher.
Definition unbound_gopher : Gopher :=
  set_cfg (rebind 0 [0x20] [0x08] example_config) example_gopher.

(** ** The configuration file: [ConfigFile::getValuesOfKey] and
    [Gopher::loadConfigFile] *)

(** [ConfigFile::getValuesOfKey] on the parsed [contents]: the values
    stored under [key], or [defaultValue] when the key is missing. *)
Definition getValuesOfKey (contents : gmap string (list string)) (key : string)
    (defaultValue : list string) : list string :=
  match contents !! key with
  | None => defaultValue
  | Some values => values
  end.

(** The default argument of [getValuesOfKey]. *)
Definition defaultValue : list string := ["0"%string].

(** [s.c_str()] read back as a C string: the characters before the first
    NUL. *)
Fixpoint c_str (s : string) : string :=
  match s with
  | EmptyString => EmptyString
  | String a s' => if Ascii.eqb a "000"%char then EmptyString else String a (c_str s')
  end.

(** The characters of [s] before the first [delim], and the characters
    after it. *)
Fixpoint split_at (delim : ascii) (s : string) : string * string :=
  match s with
  | EmptyString => (EmptyString, EmptyString)
  | String a s' =>
      if Ascii.eqb a delim then (EmptyString, s')
      else let (line, rest) := split_at delim s' in (String a line, rest)
  end.

(** [std::getline(stream, line, delim)] on a string stream whose unread
    characters are [unread]: with nothing left to read the call fails;
    otherwise it yields the characters up to the first [delim], which it
    consumes, or up to the end. *)
Definition getline (delim : ascii) (unread : string) : option (string * string) :=
  match unread with
  | EmptyString => None
  | _ => Some (split_at delim unread)
  end.

(** The lines that successive calls of [getline] yield until one fails. *)
Fixpoint getlines (delim : ascii) (s : string) : list string :=
  match s with
  | EmptyString => []
  | String a s' =>
      if Ascii.eqb a delim then EmptyString :: getlines delim s'
      else match getlines delim s' with
           | [] => [String a EmptyString]
           | line :: lines => String a line :: lines
           end
  end.

(** [s.find_first_of(c) != std::string::npos]. *)
Fixpoint contains (c : ascii) (s : string) : bool :=
  match s with
  | EmptyString => false
  | String a s' => Ascii.eqb a c || contains c s'
  end.

(** [a < b] and [a <= b] on floats (false when either side is a NaN). *)
Definition float_lt (a b : float) : bool := SFltb a b.
Definition float_le (a b : float) : bool := SFleb a b.

(** The literals [0.00001f] and [1.0f]; [0.1f] is [f_tenth] and the
    built-in speeds are [f_thousandths]. *)
Definition f_0_00001 : float := S754_finite false 10995116 (-40).
Definition CUR_SPEED_MIN : float := f_0_0001.
Definition CUR_SPEED_MAX : float := F32.of_Z 1.

(** The speed table that is installed when the file defines no speed. *)
Definition default_speeds : list float :=
  [f_thousandths 5; f_thousandths 15; f_thousandths 25; f_thousandths 4].
Definition default_speed_names : list string :=
  ["ULTRALOW"; "LOW"; "MED"; "HIGH"]%string.

Section Loading.

(** The parsers of the C and C++ libraries: [std::stoi(s, 0, 0)], which
    throws on a string it cannot convert ([None]), [strtof(s, 0)] and
    [strtol(s, 0, 0)]. *)
Variable stoi : string -> option Z.
Variable strtof : string -> float.
Variable strtol : string -> Z.

(** [stringsToShorts]: every string is converted with [std::stoi] and
    stored as a [WORD]. *)
Fixpoint stringsToShorts (strings : list string) : option (list Z) :=
  match strings with
  | [] => Some []
  | s :: rest =>
      v ← stoi (c_str s);
      shorts ← stringsToShorts rest;
      Some (v mod 2 ^ 16 :: shorts)
  end.

(** One round of the loop over the entries of [CURSOR_SPEED]: the state is
    [cur_speed_idx] and the two vectors [speeds] and [speed_names]. *)
Definition parse_speed (st : Z * list float * list string) (cur_speed : string)
    : Z * list float * list string :=
  let '(cur_speed_idx, sp, names) := st in
  (* Check to see if we are at the string that includes the equals sign. *)
  let '(cur_name, cur_speed_idx, entry) :=
    if contains "="%char cur_speed
    then let (name, rest) := split_at "="%char cur_speed in
         (name, cur_speed_idx, rest)
    else (pretty cur_speed_idx, cur_speed_idx + 1, cur_speed) in
  let cur_speed_s :=
    match getline "010"%char entry with
    | Some (line, _) => line
    | None => EmptyString
    end in
  let cur_speedf := strtof (c_str cur_speed_s) in
  (* Ignore speeds that are not within the allowed range. *)
  if F32.gt cur_speedf CUR_SPEED_MIN && float_le cur_speedf CUR_SPEED_MAX
  then (cur_speed_idx, sp ++ [cur_speedf], names ++ [cur_name])
  else (cur_speed_idx, sp, names).

(** The loop over the comma-separated entries of [CURSOR_SPEED], from
    [cur_speed_idx = 1]. *)
Definition parse_speeds (cursor_speed : string) (sp : list float)
    (names : list string) : Z * list float * list string :=
  fold_left parse_speed (getlines ","%char (c_str cursor_speed)) (1, sp, names).

(** [Gopher::loadConfigFile] on the contents of the parsed file.  The
    result is [None] when a conversion throws, when [front()] is taken of
    an empty vector or when [at(0)] is out of range.  The dead zones and
    [SWAP_THUMBSTICKS] are stored as [int]. *)
Definition loadConfigFile (contents : gmap string (list string)) (g : Gopher)
    : option (Gopher * list Event) :=
  let values key := getValuesOfKey contents key defaultValue in
  let command key := shorts ← stringsToShorts (values key); head shorts in
  let binding key := stringsToShorts (values key) in
  let setting key := head (values key) in
  (* Configuration bindings *)
  config_mouse_left ← command "CONFIG_MOUSE_LEFT";
  config_mouse_right ← command "CONFIG_MOUSE_RIGHT";
  config_mouse_middle ← command "CONFIG_MOUSE_MIDDLE";
  config_hide ← command "CONFIG_HIDE";
  config_disable ← command "CONFIG_DISABLE";
  config_disable_vibration ← command "CONFIG_DISABLE_VIBRATION";
  config_speed_change ← command "CONFIG_SPEED_CHANGE";
  config_osk ← command "CONFIG_OSK";
  (* Controller bindings *)
  gamepad_dpad_up ← binding "GAMEPAD_DPAD_UP";
  gamepad_dpad_down ← binding "GAMEPAD_DPAD_DOWN";
  gamepad_dpad_left ← binding "GAMEPAD_DPAD_LEFT";
  gamepad_dpad_right ← binding "GAMEPAD_DPAD_RIGHT";
  gamepad_start ← binding "GAMEPAD_START";
  gamepad_back ← binding "GAMEPAD_BACK";
  gamepad_left_thumb ← binding "GAMEPAD_LEFT_THUMB";
  gamepad_right_thumb ← binding "GAMEPAD_RIGHT_THUMB";
  gamepad_left_shoulder ← binding "GAMEPAD_LEFT_SHOULDER";
  gamepad_right_shoulder ← binding "GAMEPAD_RIGHT_SHOULDER";
  gamepad_a ← binding "GAMEPAD_A";
  gamepad_b ← binding "GAMEPAD_B";
  gamepad_x ← binding "GAMEPAD_X";
  gamepad_y ← binding "GAMEPAD_Y";
  gamepad_trigger_left ← binding "GAMEPAD_TRIGGER_LEFT";
  gamepad_trigger_right ← binding "GAMEPAD_TRIGGER_RIGHT";
  (* Advanced settings *)
  acceleration ← setting "ACCELERATION_FACTOR";
  dead_zone ← setting "DEAD_ZONE";
  let dead_zone := wrap_int (strtol (c_str dead_zone)) in
  let dead_zone := if dead_zone =? 0 then 6000 else dead_zone in
  scroll_dead_zone ← setting "SCROLL_DEAD_ZONE";
  let scroll_dead_zone := wrap_int (strtol (c_str scroll_dead_zone)) in
  let scroll_dead_zone :=
    if scroll_dead_zone =? 0 then 5000 else scroll_dead_zone in
  scroll_speed ← setting "SCROLL_SPEED";
  let scroll_speed := strtof (c_str scroll_speed) in
  let scroll_speed :=
    if float_lt scroll_speed f_0_00001 then f_tenth else scroll_speed in
  (* Variable cursor speeds *)
  cursor_speed ← setting "CURSOR_SPEED";
  let '(_, sp, names) :=
    parse_speeds cursor_speed (speeds (cfg g)) (speed_names (cfg g)) in
  (* If no cursor speeds were defined, add a set of default speeds. *)
  let '(sp, names) :=
    if (Z.of_nat (length sp) =? 0)
    then (sp ++ default_speeds, names ++ default_speed_names)
    else (sp, names) in
  (* Swap stick functions *)
  swap ← setting "SWAP_THUMBSTICKS";
  let c := {|
    CONFIG_MOUSE_LEFT := config_mouse_left;
    CONFIG_MOUSE_RIGHT := config_mouse_right;
    CONFIG_MOUSE_MIDDLE := config_mouse_middle;
    CONFIG_HIDE := config_hide;
    CONFIG_DISABLE := config_disable;
    CONFIG_DISABLE_VIBRATION := config_disable_vibration;
    CONFIG_SPEED_CHANGE := config_speed_change;
    CONFIG_OSK := config_osk;
    GAMEPAD_DPAD_UP := gamepad_dpad_up;
    GAMEPAD_DPAD_DOWN := gamepad_dpad_down;
    GAMEPAD_DPAD_LEFT := gamepad_dpad_left;
    GAMEPAD_DPAD_RIGHT := gamepad_dpad_right;
    GAMEPAD_START := gamepad_start;
    GAMEPAD_BACK := gamepad_back;
    GAMEPAD_LEFT_THUMB := gamepad_left_thumb;
    GAMEPAD_RIGHT_THUMB := gamepad_right_thumb;
    GAMEPAD_LEFT_SHOULDER := gamepad_left_shoulder;
    GAMEPAD_RIGHT_SHOULDER := gamepad_right_shoulder;
    GAMEPAD_A := gamepad_a;
    GAMEPAD_B := gamepad_b;
    GAMEPAD_X := gamepad_x;
    GAMEPAD_Y := gamepad_y;
    GAMEPAD_TRIGGER_LEFT := gamepad_trigger_left;
    GAMEPAD_TRIGGER_RIGHT := gamepad_trigger_right;
    acceleration_factor := strtof (c_str acceleration);
    DEAD_ZONE := dead_zone;
    SCROLL_DEAD_ZONE := scroll_dead_zone;
    SCROLL_SPEED := scroll_speed;
    speeds := sp;
    speed_names := names;
    SWAP_THUMBSTICKS := wrap_int (strtol (c_str swap));
    FPS := FPS (cfg g);
    SLEEP_AMOUNT := SLEEP_AMOUNT (cfg g);
    TRIGGER_DEAD_ZONE := TRIGGER_DEAD_ZONE (cfg g)
  |} in
  (* Initialize the speed to the first speed stored. *)
  let g := set_speed (speed_idx g) (speed_at c 0) (set_cfg c g) in
  (* Set the initial window visibility *)
  Some (exec setWindowVisibility g, events setWindowVisibility g).

End Loading.

(** A file with no entry at all. *)
Definition empty_file : gmap string (list string) := ∅.

(** Parsers that read decimal digits: enough of the library functions to
    run the loader on a file whose values are small non-negative
    integers. *)
Fixpoint digits_value (s : string) (acc : Z) : option Z :=
  match s with
  | EmptyString => Some acc
  | String a s' =>
      let d := Z.of_nat (nat_of_ascii a) - 48 in
      if (0 <=? d) && (d <=? 9) then digits_value s' (10 * acc + d) else None
  end.
Definition stoi_digits (s : string) : option Z :=
  match s with
  | EmptyString => None
  | _ => digits_value s 0
  end.
Definition strtol_digits (s : string) : Z :=
  match digits_value s 0 with Some v => v | None => 0 end.
Definition strtof_digits (s : string) : float := F32.of_Z (strtol_digits s).

(** A speed that [loadConfigFile] accepts. *)
Definition speed_in_range (s : float) : bool :=
  F32.gt s CUR_SPEED_MIN && float_le s CUR_SPEED_MAX.

(** [lines] joined with [delim] between them. *)
Fixpoint join (delim : ascii) (lines : list string) : string :=
  match lines with
  | [] => EmptyString
  | [line] => line
  | line :: rest => (line ++ String delim (join delim rest))%string
  end.

(** A [WORD]. *)
Definition is_word (v : Z) : Prop := 0 <= v < 2 ^ 16.

(** The key codes and button masks of a configuration. *)
Definition commands_of (c : Config) : list Z :=
  [CONFIG_MOUSE_LEFT c; CONFIG_MOUSE_RIGHT c; CONFIG_MOUSE_MIDDLE c;
   CONFIG_HIDE c; CONFIG_DISABLE c; CONFIG_DISABLE_VIBRATION c;
   CONFIG_SPEED_CHANGE c; CONFIG_OSK c].
Definition bindings_of (c : Config) : list (list Z) :=
  [GAMEPAD_DPAD_UP c; GAMEPAD_DPAD_DOWN c; GAMEPAD_DPAD_LEFT c;
   GAMEPAD_DPAD_RIGHT c; GAMEPAD_START c; GAMEPAD_BACK c;
   GAMEPAD_LEFT_THUMB c; GAMEPAD_RIGHT_THUMB c; GAMEPAD_LEFT_SHOULDER c;
   GAMEPAD_RIGHT_SHOULDER c; GAMEPAD_A c; GAMEPAD_B c; GAMEPAD_X c;
   GAMEPAD_Y c; GAMEPAD_TRIGGER_LEFT c; GAMEPAD_TRIGGER_RIGHT c].

(** ** The On-Screen Keyboard window: [EnumWindowsProc] and
    [Gopher::getOskWindow] *)

(** A top-level window: its handle and the text of its title bar. *)
Record TopWindow := { hWnd : Z; caption : string }.

(** The [NULL] handle. *)
Definition NULL : Z := 0.

(** The first [n] characters of [s]. *)
Fixpoint truncate (n : nat) (s : string) : string :=
  match n, s with
  | S n', String a s' => String a (truncate n' s')
  | _, _ => EmptyString
  end.

(** [GetWindowText(hWnd, lpString, nMaxCount)]: at most [nMaxCount - 1]
    characters of the title are copied; the result is the number of
    characters copied (0 for a window without title) and the buffer. *)
Definition GetWindowText (w : TopWindow) (nMaxCount : nat) : Z * string :=
  let title := truncate (nMaxCount - 1) (caption w) in
  (Z.of_nat (String.length title), title).

Definition osk_title : string := "On-Screen Keyboard".

(** [EnumWindowsProc]: [lParam] points to the handle to fill in, which is
    passed in and out here; the boolean is the [BOOL] returned. *)
Definition EnumWindowsProc (curWnd : TopWindow) (lParam : Z) : bool * Z :=
  let (n, title) := GetWindowText curWnd 256 in
  (* Check to see if the window title matches what we are looking for. *)
  if negb (n =? 0) && String.eqb title osk_title
  then (false, hWnd curWnd)  (* Correct window found, stop enumerating. *)
  else (true, lParam).

(** [EnumWindows]: the callback is called for each top-level window in
    turn until it returns [FALSE] or the windows are exhausted. *)
Fixpoint EnumWindows (lpEnumFunc : TopWindow -> Z -> bool * Z)
    (windows : list TopWindow) (lParam : Z) : Z :=
  match windows with
  | [] => lParam
  | w :: rest =>
      let (continue, lParam) := lpEnumFunc w lParam in
      if continue then EnumWindows lpEnumFunc rest lParam else lParam
  end.

(** [Gopher::getOskWindow], given the top-level windows in enumeration
    order. *)
Definition getOskWindow (windows : list TopWindow) : Z :=
  EnumWindows EnumWindowsProc windows NULL.

(** ** A file to load *)

(** The configuration members before [loadConfigFile] has run: nothing
    bound, empty speed tables; the three constants as in
    [example_config]. *)
Definition blank_config : Config := {|
  CONFIG_MOUSE_LEFT := 0;
  CONFIG_MOUSE_RIGHT := 0;
  CONFIG_MOUSE_MIDDLE := 0;
  CONFIG_HIDE := 0;
  CONFIG_DISABLE := 0;
  CONFIG_DISABLE_VIBRATION := 0;
  CONFIG_SPEED_CHANGE := 0;
  CONFIG_OSK := 0;
  GAMEPAD_DPAD_UP := [];
  GAMEPAD_DPAD_DOWN := [];
  GAMEPAD_DPAD_LEFT := [];
  GAMEPAD_DPAD_RIGHT := [];
  GAMEPAD_START := [];
  GAMEPAD_BACK := [];
  GAMEPAD_LEFT_THUMB := [];
  GAMEPAD_RIGHT_THUMB := [];
  GAMEPAD_LEFT_SHOULDER := [];
  GAMEPAD_RIGHT_SHOULDER := [];
  GAMEPAD_A := [];
  GAMEPAD_B := [];
  GAMEPAD_X := [];
  GAMEPAD_Y := [];
  GAMEPAD_TRIGGER_LEFT := [];
  GAMEPAD_TRIGGER_RIGHT := [];
  acceleration_factor := F32.zero;
  DEAD_ZONE := 0;
  SCROLL_DEAD_ZONE := 0;
  SCROLL_SPEED := F32.zero;
  speeds := [];
  speed_names := [];
  SWAP_THUMBSTICKS := 0;
  FPS := 150;
  SLEEP_AMOUNT := 6;
  TRIGGER_DEAD_ZONE := 0
|}.

Definition new_gopher : Gopher := set_cfg blank_config example_gopher.

(** A file that binds the disable command and the A button and lists three
    speeds, the second of them out of range. *)
Definition example_file : gmap string (list string) :=
  <["CONFIG_DISABLE"%string := ["48"%string]]>
    (<["GAMEPAD_A"%string := ["65601"%string; "13"%string]]>
       (<["CURSOR_SPEED"%string := ["fast=1,2,1"%string]]> ∅)).



(** Three top-level windows, the second and third titled like the
    On-Screen Keyboard. *)
Definition example_windows : list TopWindow :=
  [{| hWnd := 0x1A2; caption := "On-Screen Keyboard - Notepad" |};
   {| hWnd := 0x2B4; caption := "On-Screen Keyboard" |};
   {| hWnd := 0x3C6; caption := "On-Screen Keyboard" |}].

(** ** Ticks on which nothing changes *)

(** The sleep of a tick and the events of cursor and wheel motion. *)
Definition is_motion (e : Event) : bool :=
  match e with
  | Sleep _ | SetCursorPos _ _ => true
  | SendMouse dwFlags _ =>
      (dwFlags =? MOUSEEVENTF_WHEEL) || (dwFlags =? MOUSEEVENTF_HWHEEL)
  | _ => false
  end.

(** The tracker holds for button [s] what the snapshot [p] shows. *)
Definition synced (p : XINPUT_GAMEPAD) (s : Z) (g : Gopher) : Prop :=
  lastIteration_of g s = button_down s p.

(** The trigger flags hold what the snapshot [p] shows. *)
Definition triggers_synced (p : XINPUT_GAMEPAD) (g : Gopher) : Prop :=
  _lTriggerPrevious g = left_pulled (TRIGGER_DEAD_ZONE (cfg g)) p /\
  _rTriggerPrevious g = right_pulled (TRIGGER_DEAD_ZONE (cfg g)) p.

(** [framed m]: [m] leaves the configuration, the snapshot, the tracker and
    the trigger flags alone. *)
Definition framed {A : Type} (m : Run A) : Prop :=
  preserves cfg m /\ preserves _currentState m /\ preserves clicks m /\
  preserves _lTriggerPrevious m /\ preserves _rTriggerPrevious m.

(** [stays p g g']: from [g] to [g'] the configuration and the snapshot
    are kept, and whatever agreed with [p] still does. *)
Definition stays (p : XINPUT_GAMEPAD) (g g' : Gopher) : Prop :=
  cfg g' = cfg g /\ _currentState g' = _currentState g /\
  (forall s, synced p s g -> synced p s g') /\
  (triggers_synced p g -> triggers_synced p g').

(** [steady_at c p S T m g]: run from [g], with configuration [c] and
    snapshot [p], the computation [m] keeps what agrees with [p], brings
    the buttons of [S] (and the triggers, when [T] is set) into agreement
    with [p], and, when they agreed with [p] already, sends nothing but
    motion. *)
Definition steady_at {A : Type} (c : Config) (p : XINPUT_GAMEPAD)
    (S : list Z) (T : bool) (m : Run A) (g : Gopher) : Prop :=
  cfg g = c -> _currentState g = p ->
  stays p g (exec m g) /\
  (forall s, In s S -> synced p s (exec m g)) /\
  (T = true -> triggers_synced p (exec m g)) /\
  ((forall s, In s S -> synced p s g) -> (T = true -> triggers_synced p g) ->
   Forall (fun e => is_motion e = true) (events m g)).

(** ** Invariants of computations *)

(** [keeps I ok m]: run from an object that satisfies [I], the computation
    [m] ends in one that satisfies [I] and sends only events that pass
    [ok]. *)
Definition keeps {A : Type} (I : Gopher -> Prop) (ok : Event -> bool)
    (m : Run A) : Prop :=
  forall g, I g ->
    I (exec m g) /\ Forall (fun e => ok e = true) (events m g).

(** A command to the vibration motors. *)
Definition is_vibration (e : Event) : bool :=
  match e with
  | Vibrate _ _ => true
  | _ => false
  end.

(** The vibration is switched off and the vibration command shows no new
    press: under configuration [c] and snapshot [p], if the command is down
    in [p] then the tracker has seen it down already. *)
Definition vibration_off (c : Config) (p : XINPUT_GAMEPAD) (g : Gopher) : Prop :=
  _vibrationDisabled g = true /\ cfg g = c /\ _currentState g = p /\
  (button_down (CONFIG_DISABLE_VIBRATION c) p = true ->
   lastIteration_of g (CONFIG_DISABLE_VIBRATION c) = true).

(** ** Blocking time *)

(** The milliseconds for which an event blocks the loop. *)
Definition nap_of (e : Event) : Z :=
  match e with
  | Sleep ms => ms
  | _ => 0
  end.

(** The time a log spends asleep. *)
Definition nap_total (log : list Event) : Z :=
  fold_right (fun e acc => nap_of e + acc) 0 log.

(** [blocks n m]: a run of [m] sleeps for at most [n] milliseconds in all
    (and never for a negative time). *)
Definition blocks {A : Type} (n : Z) (m : Run A) : Prop :=
  forall g, 0 <= nap_total (events m g) <= n.

(** ** The active speed *)

(** The configuration is [c], the speed index is within its table and the
    active speed is the entry at the index. *)
Definition speed_ok (c : Config) (g : Gopher) : Prop :=
  cfg g = c /\
  0 <= speed_idx g < Z.of_nat (length (speeds c)) /\
  speed g = speed_at c (speed_idx g).

(** ** The console window *)

(** Whether the console is hidden after the event [e], given whether it was
    before. *)
Definition console_step (hidden : bool) (e : Event) : bool :=
  match e with
  | ShowWindow ConsoleWindow SW_HIDE => true
  | ShowWindow ConsoleWindow _ => false
  | _ => hidden
  end.

(** Whether the console is hidden at the end of a log. *)
Definition console_after (log : list Event) (hidden : bool) : bool :=
  fold_left console_step log hidden.

(** [shows m]: a run of [m] that starts with the console hidden exactly when
    [_hidden] is set ends in the same way. *)
Definition shows {A : Type} (m : Run A) : Prop :=
  forall g, console_after (events m g) (_hidden g) = _hidden (exec m g).

(** * Properties *)

(** ** Map reads *)

Lemma at_bool_insert_eq (m : gmap Z bool) k v : at_bool (<[k := v]> m) k = v.
Proof. unfold at_bool. by rewrite lookup_insert_eq. Qed.

Lemma at_int_insert_eq (m : gmap Z Z) k v : at_int (<[k := v]> m) k = v.
Proof. unfold at_int. by rewrite lookup_insert_eq. Qed.

Lemma at_bool_insert_ne (m : gmap Z bool) k k' v :
  k <> k' -> at_bool (<[k := v]> m) k' = at_bool m k'.
Proof. intros. unfold at_bool. by rewrite lookup_insert_ne. Qed.

(** ** The edge tracker, field by field *)

Section Tracker.

Variables (sa buttons STATE : Z) (c : ClickMaps).

Let pressed := Z.land buttons STATE =? STATE.
Let last := at_bool (_xboxClickStateLastIteration c) STATE.
Let c' := setXboxClickState_maps sa buttons STATE c.

Ltac tracker_simpl :=
  repeat (cbn [_xboxClickStateLastIteration _xboxClickIsDown _xboxClickIsDownLong
               _xboxClickDownLength _xboxClickIsUp set_IsDown set_IsUp
               set_LastIteration set_DownLength set_IsDownLong negb andb orb];
          rewrite ?at_bool_insert_eq, ?at_int_insert_eq).

Ltac tracker_cases :=
  subst c' pressed last;
  unfold setXboxClickState_maps, xboxClickStateExists;
  tracker_simpl;
  destruct (Z.land buttons STATE =? STATE);
  (destruct (_xboxClickStateLastIteration c !! STATE) as [[]|] eqn:Hlast;
   [ assert (Hl : at_bool (_xboxClickStateLastIteration c) STATE = true)
       by (unfold at_bool; by rewrite Hlast)
   | assert (Hl : at_bool (_xboxClickStateLastIteration c) STATE = false)
       by (unfold at_bool; by rewrite Hlast)
   | assert (Hl : at_bool (_xboxClickStateLastIteration c) STATE = false)
       by (unfold at_bool; by rewrite Hlast) ]);
  match goal with
  | H : at_bool (_xboxClickStateLastIteration c) STATE = _ |- _ =>
      repeat (progress (tracker_simpl; rewrite ?H))
  end;
  tracker_simpl.

Lemma tracker_last : at_bool (_xboxClickStateLastIteration c') STATE = pressed.
Proof.
  subst c' pressed. unfold setXboxClickState_maps.
  cbn [_xboxClickStateLastIteration set_LastIteration].
  apply at_bool_insert_eq.
Qed.

Lemma tracker_isDown :
  at_bool (_xboxClickIsDown c') STATE = pressed && negb last.
Proof.
  tracker_cases; try reflexivity;
    match goal with |- context [if ?b then _ else _] => destruct b end;
    tracker_simpl; reflexivity.
Qed.

Lemma tracker_isUp :
  at_bool (_xboxClickIsUp c') STATE = negb pressed && last.
Proof.
  tracker_cases; try reflexivity;
    match goal with |- context [if ?b then _ else _] => destruct b end;
    tracker_simpl; reflexivity.
Qed.

Lemma tracker_downLength :
  at_int (_xboxClickDownLength c') STATE =
  if pressed
  then (if last then at_int (_xboxClickDownLength c) STATE else 0) + 1
  else at_int (_xboxClickDownLength c) STATE.
Proof.
  tracker_cases; try reflexivity;
    match goal with |- context [if ?b then _ else _] => destruct b end;
    tracker_simpl; reflexivity.
Qed.

Lemma tracker_isDownLong :
  at_bool (_xboxClickIsDownLong c') STATE =
  if pressed
  then (at_int (_xboxClickDownLength c') STATE * sa >? LONG_PRESS_TIME)
       || (last && at_bool (_xboxClickIsDownLong c) STATE)
  else negb last && at_bool (_xboxClickIsDownLong c) STATE.
Proof.
  tracker_cases; try reflexivity;
    match goal with |- context [if ?b then _ else _] => destruct b eqn:Hlong end;
    tracker_simpl; rewrite ?Hlong; reflexivity.
Qed.

End Tracker.

(** ** One observation of a button *)

Lemma observe_cfg STATE g p : cfg (observe STATE g p) = cfg g.
Proof. reflexivity. Qed.

Lemma observe_clicks STATE g p :
  clicks (observe STATE g p) =
  setXboxClickState_maps (SLEEP_AMOUNT (cfg g)) (wButtons p) STATE (clicks g).
Proof. reflexivity. Qed.

Lemma observe_last STATE g p :
  lastIteration_of (observe STATE g p) STATE = button_down STATE p.
Proof. unfold lastIteration_of. rewrite observe_clicks. apply tracker_last. Qed.

Lemma observe_isDown STATE g p :
  isDown_of (observe STATE g p) STATE =
  button_down STATE p && negb (lastIteration_of g STATE).
Proof. unfold isDown_of. rewrite observe_clicks. apply tracker_isDown. Qed.

Lemma observe_isUp STATE g p :
  isUp_of (observe STATE g p) STATE =
  negb (button_down STATE p) && lastIteration_of g STATE.
Proof. unfold isUp_of. rewrite observe_clicks. apply tracker_isUp. Qed.

Lemma observe_downLength STATE g p :
  downLength_of (observe STATE g p) STATE =
  if button_down STATE p
  then (if lastIteration_of g STATE then downLength_of g STATE else 0) + 1
  else downLength_of g STATE.
Proof. unfold downLength_of. rewrite observe_clicks. apply tracker_downLength. Qed.

Lemma observe_isDownLong STATE g p :
  isDownLong_of (observe STATE g p) STATE =
  if button_down STATE p
  then (downLength_of (observe STATE g p) STATE * SLEEP_AMOUNT (cfg g)
          >? LONG_PRESS_TIME)
       || (lastIteration_of g STATE && isDownLong_of g STATE)
  else negb (lastIteration_of g STATE) && isDownLong_of g STATE.
Proof.
  unfold isDownLong_of, downLength_of. rewrite observe_clicks.
  apply tracker_isDownLong.
Qed.

Lemma lastIteration_not_down g STATE :
  _xboxClickStateLastIteration (clicks g) !! STATE <> Some true ->
  lastIteration_of g STATE = false.
Proof.
  unfold lastIteration_of, at_bool.
  destruct (_ !! STATE) as [[]|]; congruence.
Qed.

(** C4. The edge flags follow Up, JustDown, Down, JustUp: a button seen
    down when it was up on the previous tick, or was never seen before, has
    isDown set and isUp clear on that tick; seen down again on the next tick
    it has isDown clear; seen up on the tick after it was down it has isUp
    set, and one tick later both flags are clear and the button counts as up
    again. *)
Theorem button_edge_cycle (g : Gopher) (STATE : Z) (p1 p2 p3 : XINPUT_GAMEPAD) :
  _xboxClickStateLastIteration (clicks g) !! STATE <> Some true ->
  button_down STATE p1 = true ->
  let g1 := observe STATE g p1 in
  let g2 := observe STATE g1 p2 in
  let g3 := observe STATE g2 p3 in
  (isDown_of g1 STATE = true /\ isUp_of g1 STATE = false) /\
  (button_down STATE p2 = true ->
     isDown_of g2 STATE = false /\ isUp_of g2 STATE = false) /\
  (button_down STATE p2 = false ->
     (isUp_of g2 STATE = true /\ isDown_of g2 STATE = false) /\
     (button_down STATE p3 = false ->
        isUp_of g3 STATE = false /\ isDown_of g3 STATE = false /\
        lastIteration_of g3 STATE = false)).
Proof.
  intros Hup Hd1 g1 g2 g3.
  apply lastIteration_not_down in Hup.
  assert (Hl1 : lastIteration_of g1 STATE = true)
    by (subst g1; rewrite observe_last; exact Hd1).
  split; [|split].
  - subst g1. rewrite observe_isDown, observe_isUp, Hd1, Hup. by split.
  - intros Hd2. subst g2.
    rewrite observe_isDown, observe_isUp, Hl1, Hd2. by split.
  - intros Hu2.
    assert (Hl2 : lastIteration_of g2 STATE = false)
      by (subst g2; rewrite observe_last; exact Hu2).
    split.
    + subst g2. rewrite observe_isDown, observe_isUp, Hl1, Hu2. by split.
    + intros Hu3. subst g3.
      rewrite observe_isDown, observe_isUp, observe_last, Hl2, Hu3. by repeat split.
Qed.

(** ** Holding a button *)

Lemma observe_all_cfg STATE ps : forall g, cfg (observe_all STATE g ps) = cfg g.
Proof.
  induction ps as [|p ps IH]; intros g; [reflexivity|].
  cbn. unfold observe_all in IH. rewrite IH. apply observe_cfg.
Qed.

Lemma observe_all_snoc STATE g ps p :
  observe_all STATE g (ps ++ [p]) = observe STATE (observe_all STATE g ps) p.
Proof. unfold observe_all. by rewrite fold_left_app. Qed.

(** After a run of at least one tick with the button down, begun when the
    button was up: the button counts as down, the tick counter is the length
    of the run, and the long-press flag is the threshold test on it. *)
Lemma held_run (g : Gopher) (STATE : Z) (ps : list XINPUT_GAMEPAD) :
  lastIteration_of g STATE = false ->
  ps <> [] ->
  Forall (fun p => button_down STATE p = true) ps ->
  let g' := observe_all STATE g ps in
  let ticksHeld := Z.of_nat (length ps) in
  lastIteration_of g' STATE = true /\
  downLength_of g' STATE = ticksHeld /\
  isDownLong_of g' STATE = (ticksHeld * SLEEP_AMOUNT (cfg g) >? LONG_PRESS_TIME).
Proof.
  intros Hup. induction ps as [|p ps IH] using rev_ind; [congruence|].
  intros _ Hall. apply Forall_app in Hall as [Hps Hp].
  apply Forall_inv in Hp. cbn zeta.
  rewrite observe_all_snoc, length_app, Nat2Z.inj_add. cbn [length].
  rewrite observe_last, observe_isDownLong, observe_downLength, Hp.
  rewrite observe_all_cfg.
  destruct ps as [|p0 ps0].
  - cbn [observe_all fold_left length]. rewrite Hup. cbn [andb orb].
    rewrite orb_false_r. split; [reflexivity|]. split; reflexivity.
  - destruct IH as (Hl & Hn & Hlong); [congruence|exact Hps|].
    rewrite Hl, Hn, Hlong. cbn [andb].
    split; [reflexivity|]. split; [reflexivity|].
    unfold LONG_PRESS_TIME. change (Z.of_nat 1) with 1.
    set (n := Z.of_nat (length (p0 :: ps0))).
    assert (Hn1 : 1 <= n) by (subst n; cbn [length]; lia).
    destruct (Z.gtb_spec ((n + 1) * SLEEP_AMOUNT (cfg g)) 200) as [Hgt|Hle];
      [reflexivity|].
    destruct (Z.gtb_spec (n * SLEEP_AMOUNT (cfg g)) 200) as [Hgt'|Hle'];
      [nia|reflexivity].
Qed.

(** C5. For a button held down over consecutive ticks, the long-press flag
    after the run is exactly the test [ticksHeld * SLEEP_AMOUNT > 200] on
    the number of ticks held, so a button held for exactly 200 ms is not
    reported as long; the flag is cleared on the tick the button is seen
    released. *)
Theorem held_long_threshold (g : Gopher) (STATE : Z)
    (ps : list XINPUT_GAMEPAD) (p_up : XINPUT_GAMEPAD) :
  _xboxClickStateLastIteration (clicks g) !! STATE <> Some true ->
  ps <> [] ->
  Forall (fun p => button_down STATE p = true) ps ->
  let g' := observe_all STATE g ps in
  let ticksHeld := Z.of_nat (length ps) in
  downLength_of g' STATE = ticksHeld /\
  isDownLong_of g' STATE = (ticksHeld * SLEEP_AMOUNT (cfg g) >? LONG_PRESS_TIME) /\
  (ticksHeld * SLEEP_AMOUNT (cfg g) = LONG_PRESS_TIME ->
     isDownLong_of g' STATE = false) /\
  (button_down STATE p_up = false ->
     isDownLong_of (observe STATE g' p_up) STATE = false).
Proof.
  intros Hup Hne Hall g' ticksHeld.
  apply lastIteration_not_down in Hup.
  destruct (held_run g STATE ps Hup Hne Hall) as (Hl & Hn & Hlong).
  fold g' ticksHeld in Hl, Hn, Hlong.
  repeat split; try assumption.
  - intros Heq. rewrite Hlong, Heq. reflexivity.
  - intros Hrel. rewrite observe_isDownLong, Hrel, Hl. reflexivity.
Qed.

(** ** The disable toggle *)

Lemma set_pressedKeys_same g : set_pressedKeys (_pressedKeys g) g = g.
Proof. by destruct g. Qed.

(** The release loop: mouse codes are answered one by one, the other codes
    are appended to [keyboardEvents], and the list is left empty. *)
Lemma releasePressed_run (pressed : list Z) :
  forall (kb : list Z) (g : Gopher),
    _pressedKeys g = pressed ->
    releasePressed pressed kb g =
    (kb ++ keyboard_codes pressed, set_pressedKeys [] g, mouse_releases pressed).
Proof.
  induction pressed as [|k rest IH]; intros kb g Hg.
  - cbn. rewrite app_nil_r, <- Hg, set_pressedKeys_same. reflexivity.
  - cbn [releasePressed]. unfold bind at 1.
    unfold keyboard_codes, mouse_releases, is_mouse_code, mouse_up_flag.
    cbn [List.filter].
    destruct (k =? VK_LBUTTON) eqn:HL; [|destruct (k =? VK_RBUTTON) eqn:HR;
      [|destruct (k =? VK_MBUTTON) eqn:HM]];
      cbn [orb negb map]; rewrite ?HL, ?HR;
      unfold bind, mouseEvent, emit, ret, modify; cbn;
      rewrite (IH _ (set_pressedKeys rest g) eq_refl); cbn;
      rewrite <- ?app_assoc; reflexivity.
Qed.

(** [handleDisableButton], case by case. *)
Lemma handleDisableButton_run (g : Gopher) :
  let D := CONFIG_DISABLE (cfg g) in
  let g1 := exec (setXboxClickState D) g in
  handleDisableButton g =
  if isDown_of g1 D then
    if _disabled g then
      (tt, set_disabled false g1, pulse_events g 400 65000 65000)
    else
      (tt, set_pressedKeys [] (set_disabled true g1),
       mouse_releases (_pressedKeys g)
       ++ batched_key_up (keyboard_codes (_pressedKeys g))
       ++ pulse_events g 400 10000 10000)
  else (tt, g1, []).
Proof.
  intros D g1.
  unfold handleDisableButton, bind, get, when, modify, ret, setXboxClickState.
  cbn -[setXboxClickState_maps releasePressed isDown_of pulseVibrate].
  subst g1 D. unfold exec, setXboxClickState, modify. cbn [fst snd].
  destruct (isDown_of _ _); [|reflexivity].
  cbn -[setXboxClickState_maps releasePressed pulseVibrate].
  destruct (_disabled g) eqn:Hdis;
    cbn -[setXboxClickState_maps releasePressed pulseVibrate].
  - unfold pulseVibrate, pulse_events, bind, get, when, emit, ret.
    cbn -[setXboxClickState_maps]. destruct (_vibrationDisabled g); reflexivity.
  - match goal with
    | |- context [releasePressed ?l ?kb ?g'] =>
        rewrite (releasePressed_run l kb g' eq_refl)
    end.
    cbn [app]. unfold pulse_events, batched_key_up.
    destruct (keyboard_codes (_pressedKeys g)) as [|k kb];
      unfold pulseVibrate, bind, get, when, emit, ret, inputKeyboardUp, inputKeyboard;
      cbn -[setXboxClickState_maps mouse_releases];
      destruct (_vibrationDisabled g); cbn -[setXboxClickState_maps mouse_releases];
      rewrite <- ?app_assoc, ?app_nil_r; reflexivity.
Qed.

(** [loop] stops after [handleDisableButton] when the object is disabled. *)
Lemma loop_run powf (inp : TickInput) (g : Gopher) :
  let g0 := set_currentState (pad inp) g in
  let g1 := exec handleDisableButton g0 in
  let e1 := events handleDisableButton g0 in
  loop powf inp g =
  if _disabled g1 then (tt, g1, Sleep (SLEEP_AMOUNT (cfg g)) :: e1)
  else (tt, exec (dispatch powf inp) g1,
        Sleep (SLEEP_AMOUNT (cfg g)) :: e1 ++ events (dispatch powf inp) g1).
Proof.
  intros g0 g1 e1. subst g1 e1. unfold exec, events.
  unfold loop, bind at 1 2 3 4 5, get, emit, modify. fold g0.
  destruct (handleDisableButton g0) as [[[] g1] e1]. cbn [fst snd app].
  destruct (_disabled g1).
  - cbn. rewrite app_nil_r. reflexivity.
  - destruct (dispatch powf inp g1) as [[[] g2] e2]. reflexivity.
Qed.

(** C2. On the tick whose disable-button edge takes the mapper from enabled
    to disabled, every mouse-button code held in [_pressedKeys] is answered
    by its own mouse-up call, the remaining codes are released together by
    one batched key-up call that carries each of them once, nothing else is
    sent but the vibration pulse, and [_pressedKeys] is empty afterwards. *)
Theorem disable_releases_all powf (inp : TickInput) (g : Gopher) :
  _disabled g = false ->
  _xboxClickStateLastIteration (clicks g) !! CONFIG_DISABLE (cfg g) <> Some true ->
  button_down (CONFIG_DISABLE (cfg g)) (pad inp) = true ->
  events (loop powf inp) g =
    Sleep (SLEEP_AMOUNT (cfg g))
    :: mouse_releases (_pressedKeys g)
    ++ batched_key_up (keyboard_codes (_pressedKeys g))
    ++ pulse_events g 400 10000 10000 /\
  _pressedKeys (exec (loop powf inp) g) = [] /\
  _disabled (exec (loop powf inp) g) = true.
Proof.
  intros Hen Hup Hdown.
  apply lastIteration_not_down in Hup.
  pose proof (loop_run powf inp g) as Hloop. cbn zeta in Hloop.
  unfold exec at 1 2, events at 1 in Hloop.
  rewrite (handleDisableButton_run (set_currentState (pad inp) g)) in Hloop.
  cbn zeta in Hloop.
  change (cfg (set_currentState (pad inp) g)) with (cfg g) in Hloop.
  change (exec (setXboxClickState (CONFIG_DISABLE (cfg g)))
            (set_currentState (pad inp) g))
    with (observe (CONFIG_DISABLE (cfg g)) g (pad inp)) in Hloop.
  rewrite observe_isDown, Hdown, Hup in Hloop. cbn [andb negb] in Hloop.
  change (_disabled (set_currentState (pad inp) g)) with (_disabled g) in Hloop.
  rewrite Hen in Hloop. cbn [fst snd _disabled set_pressedKeys set_disabled] in Hloop.
  unfold events at 1, exec at 1 2. rewrite Hloop. cbn [fst snd].
  change (_pressedKeys (set_currentState (pad inp) g)) with (_pressedKeys g).
  auto.
Qed.

(** ** Members a computation leaves alone *)

Section Frame.

Context {X : Type} (f : Gopher -> X).

Lemma preserves_ret {A} (a : A) : preserves f (ret a).
Proof. intros g. reflexivity. Qed.

Lemma preserves_get : preserves f get.
Proof. intros g. reflexivity. Qed.

Lemma preserves_emit e : preserves f (emit e).
Proof. intros g. reflexivity. Qed.

Lemma preserves_modify h : (forall g, f (h g) = f g) -> preserves f (modify h).
Proof. intros H g. apply H. Qed.

Lemma preserves_bind {A B} (m : Run A) (k : A -> Run B) :
  preserves f m -> (forall a, preserves f (k a)) -> preserves f (bind m k).
Proof.
  intros Hm Hk g. unfold exec, bind.
  specialize (Hm g). unfold exec in Hm.
  destruct (m g) as [[a g1] e1]. specialize (Hk a g1). unfold exec in Hk.
  destruct (k a g1) as [[b g2] e2]. cbn in *. congruence.
Qed.

Lemma preserves_when b m : preserves f m -> preserves f (when b m).
Proof. destruct b; [trivial|]. intros _. apply preserves_ret. Qed.

Lemma preserves_forEach {A} (l : list A) body :
  (forall a, preserves f (body a)) -> preserves f (forEach l body).
Proof.
  intros Hb. induction l as [|a l IH]; cbn [forEach].
  - apply preserves_ret.
  - apply preserves_bind; [apply Hb|intros _; exact IH].
Qed.

Lemma preserves_erasePressedKey key :
  (forall l g, f (set_pressedKeys l g) = f g) -> preserves f (erasePressedKey key).
Proof.
  intros H g. unfold exec, erasePressedKey.
  destruct (erase_first key (_pressedKeys g)). apply H.
Qed.

Lemma preserves_releasePressed pressed :
  (forall l g, f (set_pressedKeys l g) = f g) ->
  forall kb, preserves f (releasePressed pressed kb).
Proof.
  intros H. induction pressed as [|k rest IH]; intros kb; cbn [releasePressed].
  - apply preserves_ret.
  - apply preserves_bind.
    + repeat match goal with
             | |- preserves _ (if ?b then _ else _) => destruct b
             | |- preserves _ (bind _ _) => apply preserves_bind; [|intros ?]
             | |- preserves _ (ret _) => apply preserves_ret
             | |- preserves _ (mouseEvent _ _) => apply preserves_emit
             end.
    + intros kb'. apply preserves_bind; [|intros _; apply IH].
      apply preserves_modify. intros g. apply H.
Qed.

End Frame.

Ltac frame_step :=
  match goal with
  | |- preserves _ (bind _ _) => apply preserves_bind; [|intros ?]
  | |- preserves _ (ret _) => apply preserves_ret
  | |- preserves _ get => apply preserves_get
  | |- preserves _ (emit _) => apply preserves_emit
  | |- preserves _ (when _ _) => apply preserves_when
  | |- preserves _ (forEach _ _) => apply preserves_forEach; intros ?
  | |- preserves _ (modify _) => apply preserves_modify; intros ?; reflexivity
  | |- preserves _ (erasePressedKey _) =>
      apply preserves_erasePressedKey; intros ? ?; reflexivity
  | |- preserves _ (releasePressed _ _) =>
      apply preserves_releasePressed; intros ? ?; reflexivity
  | |- preserves _ (if ?b then _ else _) => destruct b
  | |- preserves _ (match ?x with _ => _ end) => destruct x
  | |- preserves _ _ =>
      progress unfold inputKeyboardDown, inputKeyboardUp, inputKeyboard,
        mouseEvent, pulseVibrate, setXboxClickState, push_back, mapKeyboard,
        mapMouseClick, handleTriggers, handleDisableButton,
        handleVibrationButton, setWindowVisibility, toggleWindowVisibility,
        handleMouseMovement, handleScrolling, changeSpeed, toggleOsk
  | |- preserves _ _ => progress cbv zeta
  end.

Ltac frame := repeat frame_step.

Lemma dispatch_disabled powf inp : preserves _disabled (dispatch powf inp).
Proof. unfold dispatch. frame. Qed.

Lemma dispatch_cfg powf inp : preserves cfg (dispatch powf inp).
Proof. unfold dispatch. frame. Qed.

Lemma handleDisableButton_cfg : preserves cfg handleDisableButton.
Proof. frame. Qed.

Lemma loop_cfg powf inp : preserves cfg (loop powf inp).
Proof. unfold loop. frame. apply dispatch_cfg. Qed.

(** C3. A tick on which the mapper is disabled when [loop] tests
    [_disabled] runs nothing after [handleDisableButton]: no mouse movement,
    scrolling, click, keyboard or trigger mapping and no speed change.  In
    particular a tick that starts disabled and sees no new press of the
    disable button only sleeps, stores the snapshot and updates the edge
    state of the disable button.  The edge of the disable button is still
    evaluated, so a new press on a disabled mapper enables it again and the
    mapping is dispatched on that tick. *)
Theorem disabled_tick_skips_dispatch powf (inp : TickInput) (g : Gopher) :
  let D := CONFIG_DISABLE (cfg g) in
  let g0 := set_currentState (pad inp) g in
  (_disabled (exec handleDisableButton g0) = true ->
     exec (loop powf inp) g = exec handleDisableButton g0 /\
     events (loop powf inp) g =
       Sleep (SLEEP_AMOUNT (cfg g)) :: events handleDisableButton g0) /\
  (_disabled g = true ->
     (isDown_of (observe D g (pad inp)) D = false ->
        exec (loop powf inp) g = observe D g (pad inp) /\
        events (loop powf inp) g = [Sleep (SLEEP_AMOUNT (cfg g))]) /\
     (isDown_of (observe D g (pad inp)) D = true ->
        _disabled (exec (loop powf inp) g) = false /\
        exec (loop powf inp) g =
          exec (dispatch powf inp) (set_disabled false (observe D g (pad inp))))).
Proof.
  intros D g0.
  pose proof (loop_run powf inp g) as Hloop. cbn zeta in Hloop. fold g0 in Hloop.
  split.
  - intros Hdis. rewrite Hdis in Hloop.
    unfold exec at 1, events at 1. rewrite Hloop. split; reflexivity.
  - intros Hdis.
    pose proof (handleDisableButton_run g0) as Hh. cbn zeta in Hh.
    change (cfg g0) with (cfg g) in Hh. fold D in Hh.
    change (exec (setXboxClickState D) g0) with (observe D g (pad inp)) in Hh.
    change (_disabled g0) with (_disabled g) in Hh. rewrite Hdis in Hh.
    split; intros Hedge; rewrite Hedge in Hh;
      assert (He : exec handleDisableButton g0 = snd (fst (handleDisableButton g0)))
        by reflexivity;
      assert (Hv : events handleDisableButton g0 = snd (handleDisableButton g0))
        by reflexivity;
      rewrite Hh in He, Hv; cbn [fst snd] in He, Hv;
      rewrite He, ?Hv in Hloop.
    + change (_disabled (observe D g (pad inp))) with (_disabled g) in Hloop.
      rewrite Hdis in Hloop.
      unfold exec at 1, events at 1. rewrite Hloop. split; reflexivity.
    + cbn [_disabled set_disabled] in Hloop.
      unfold exec at 1 2. rewrite Hloop. cbn [fst snd]. split; [|reflexivity].
      apply dispatch_disabled.
Qed.

(** ** Speed cycling *)





(** ** PressedKeySet against the event log *)

Lemma exec_bind {A B} (m : Run A) (k : A -> Run B) g :
  exec (bind m k) g = exec (k (fst (fst (m g)))) (exec m g).
Proof.
  unfold exec, bind. destruct (m g) as [[a g1] e1]. cbn.
  destruct (k a g1) as [[b g2] e2]. reflexivity.
Qed.

Lemma events_bind {A B} (m : Run A) (k : A -> Run B) g :
  events (bind m k) g = events m g ++ events (k (fst (fst (m g)))) (exec m g).
Proof.
  unfold events, exec, bind. destruct (m g) as [[a g1] e1]. cbn.
  destruct (k a g1) as [[b g2] e2]. reflexivity.
Qed.

Lemma tracks_at_bind {A B} (m : Run A) (k : A -> Run B) g :
  tracks_at g m -> tracks_at (exec m g) (k (fst (fst (m g)))) ->
  tracks_at g (bind m k).
Proof.
  intros Hm Hk c. rewrite exec_bind, events_bind, fold_left_app, <- Hm. apply Hk.
Qed.

Lemma tracks_bind {A B} (m : Run A) (k : A -> Run B) :
  tracks m -> (forall a, tracks (k a)) -> tracks (bind m k).
Proof. intros Hm Hk g. apply tracks_at_bind; [apply Hm|apply Hk]. Qed.

Lemma tracks_ret {A} (a : A) : tracks (ret a).
Proof. intros g k. reflexivity. Qed.

Lemma tracks_get : tracks get.
Proof. intros g k. reflexivity. Qed.

Lemma tracks_modify h :
  (forall g, _pressedKeys (h g) = _pressedKeys g) -> tracks (modify h).
Proof. intros H g k. unfold held_count, exec. cbn. by rewrite H. Qed.

Lemma tracks_emit e : down_codes e = [] -> up_codes e = [] -> tracks (emit e).
Proof.
  intros Hd Hu g k. unfold events, exec. cbn. unfold unmatched_step.
  rewrite Hd, Hu. cbn. lia.
Qed.

Lemma tracks_when b m : tracks m -> tracks (when b m).
Proof. destruct b; [trivial|]. intros _. apply tracks_ret. Qed.

(** *** Pressing *)

Lemma forEach_push_back keys : forall g,
  forEach keys push_back g = (tt, set_pressedKeys (_pressedKeys g ++ keys) g, []).
Proof.
  induction keys as [|key keys IH]; intros g; cbn [forEach].
  - unfold ret. rewrite app_nil_r, set_pressedKeys_same. reflexivity.
  - unfold bind, push_back, modify. rewrite IH. cbn.
    rewrite <- app_assoc. reflexivity.
Qed.

Lemma tracks_key_down keys :
  tracks (inputKeyboardDown keys ;; forEach keys push_back).
Proof.
  intros g k. unfold exec, events, bind, inputKeyboardDown, inputKeyboard, emit.
  rewrite forEach_push_back. cbn. unfold held_count, unmatched_step.
  change (down_codes (SendKeyboard keys 0)) with keys.
  change (up_codes (SendKeyboard keys 0)) with (@nil Z).
  cbn. rewrite count_occ_app. lia.
Qed.

(** *** Releasing *)

Lemma erase_first_count key l k :
  count_occ Z.eq_dec (snd (erase_first key l)) k =
  (count_occ Z.eq_dec l k - (if Z.eq_dec key k then 1 else 0))%nat.
Proof.
  induction l as [|x l IH]; cbn [erase_first].
  - reflexivity.
  - destruct (Z.eqb_spec x key) as [->|Hne].
    + cbn. destruct (Z.eq_dec key k); lia.
    + destruct (erase_first key l) as [found r]. cbn in *.
      destruct (Z.eq_dec x k), (Z.eq_dec key k); try lia; congruence.
Qed.

Lemma forEach_erase_count keys k : forall g,
  held_count k (exec (forEach keys (fun key => _ <- erasePressedKey key ;; ret tt)) g)
  = (held_count k g - count_occ Z.eq_dec keys k)%nat.
Proof.
  induction keys as [|key keys IH]; intros g; cbn [forEach].
  - unfold exec, ret. cbn. lia.
  - rewrite exec_bind, IH. clear IH.
    unfold exec, bind, erasePressedKey, ret, held_count.
    pose proof (erase_first_count key (_pressedKeys g) k) as H.
    destruct (erase_first key (_pressedKeys g)) as [found r]. cbn in *.
    rewrite H. destruct (Z.eq_dec key k); lia.
Qed.

Lemma forEach_erase_events keys : forall g,
  events (forEach keys (fun key => _ <- erasePressedKey key ;; ret tt)) g = [].
Proof.
  induction keys as [|key keys IH]; intros g; cbn [forEach]; [reflexivity|].
  rewrite events_bind, IH, app_nil_r.
  unfold events, bind, erasePressedKey, ret.
  destruct (erase_first key (_pressedKeys g)). reflexivity.
Qed.

Lemma tracks_key_up keys :
  tracks (inputKeyboardUp keys ;;
          forEach keys (fun key => _ <- erasePressedKey key ;; ret tt)).
Proof.
  intros g k. rewrite exec_bind, events_bind, forEach_erase_count, forEach_erase_events.
  unfold exec, events, inputKeyboardUp, inputKeyboard, emit. cbn.
  unfold unmatched_step.
  change (down_codes (SendKeyboard keys KEYEVENTF_KEYUP)) with (@nil Z).
  change (up_codes (SendKeyboard keys KEYEVENTF_KEYUP)) with keys.
  cbn. lia.
Qed.

Lemma tracks_mouse_down flag code :
  (forall d, down_codes (SendMouse flag d) = [code]) ->
  (forall d, up_codes (SendMouse flag d) = []) ->
  tracks (mouseEvent flag 0 ;; push_back code).
Proof.
  intros Hd Hu g k. unfold exec, events, bind, mouseEvent, emit, push_back, modify.
  cbn. unfold held_count, unmatched_step. rewrite Hd, Hu. cbn.
  rewrite count_occ_app. cbn. lia.
Qed.

Lemma tracks_mouse_up flag code :
  (forall d, down_codes (SendMouse flag d) = []) ->
  (forall d, up_codes (SendMouse flag d) = [code]) ->
  tracks (mouseEvent flag 0 ;; _ <- erasePressedKey code ;; ret tt).
Proof.
  intros Hd Hu g k. unfold exec, events, bind, mouseEvent, emit, erasePressedKey, ret.
  pose proof (erase_first_count code (_pressedKeys g) k) as H.
  destruct (erase_first code (_pressedKeys g)) as [found r].
  cbn [fst snd app fold_left _pressedKeys set_pressedKeys] in *.
  unfold held_count, unmatched_step. rewrite Hd, Hu.
  cbn [fst snd app fold_left _pressedKeys set_pressedKeys count_occ].
  rewrite H. destruct (Z.eq_dec code k); lia.
Qed.

(** *** Events that press and release nothing *)

Lemma fold_silent k (log : list Event) n :
  Forall silent log -> fold_left (unmatched_step k) log n = n.
Proof.
  intros H. revert n. induction H as [|e log [Hd Hu] _ IH]; intros n; cbn.
  - reflexivity.
  - rewrite IH. unfold unmatched_step. rewrite Hd, Hu. cbn. lia.
Qed.

Lemma pulse_events_silent g d l r : Forall silent (pulse_events g d l r).
Proof.
  unfold pulse_events. destruct (_vibrationDisabled g);
    repeat constructor.
Qed.

Lemma tracks_pulseVibrate d l r : tracks (pulseVibrate d l r).
Proof.
  intros g k.
  assert (He : exec (pulseVibrate d l r) g = g)
    by (unfold exec, pulseVibrate, bind, get, when, emit, ret; cbn;
        by destruct (_vibrationDisabled g)).
  assert (Hv : events (pulseVibrate d l r) g = pulse_events g d l r)
    by (unfold events, pulseVibrate, pulse_events, bind, get, when, emit, ret; cbn;
        by destruct (_vibrationDisabled g)).
  rewrite He, Hv, fold_silent; [reflexivity|apply pulse_events_silent].
Qed.

(** *** The release on disable *)

Lemma is_mouse_code_cases c :
  is_mouse_code c = true -> c = VK_LBUTTON \/ c = VK_RBUTTON \/ c = VK_MBUTTON.
Proof.
  unfold is_mouse_code. intros H.
  apply orb_true_iff in H as [H|H]; [apply orb_true_iff in H as [H|H]|];
    apply Z.eqb_eq in H; auto.
Qed.

Lemma fold_mouse_releases k (l : list Z) : forall n,
  fold_left (unmatched_step k) (mouse_releases l) n
  = (n - count_occ Z.eq_dec (List.filter is_mouse_code l) k)%nat.
Proof.
  unfold mouse_releases.
  induction l as [|c l IH]; intros n; cbn [List.filter].
  - cbn. lia.
  - destruct (is_mouse_code c) eqn:Hc; [|apply IH].
    cbn [map fold_left]. rewrite IH. unfold unmatched_step.
    assert (Hd : down_codes (SendMouse (mouse_up_flag c) 0) = [])
      by (destruct (is_mouse_code_cases c Hc) as [->|[->| ->]]; reflexivity).
    assert (Hu : up_codes (SendMouse (mouse_up_flag c) 0) = [c])
      by (destruct (is_mouse_code_cases c Hc) as [->|[->| ->]]; reflexivity).
    rewrite Hd, Hu. cbn [count_occ]. destruct (Z.eq_dec c k); lia.
Qed.

Lemma fold_batched_key_up k (codes : list Z) n :
  fold_left (unmatched_step k) (batched_key_up codes) n
  = (n - count_occ Z.eq_dec codes k)%nat.
Proof.
  destruct codes as [|c codes]; cbn [batched_key_up fold_left].
  - cbn. lia.
  - unfold unmatched_step.
    change (down_codes (SendKeyboard (c :: codes) KEYEVENTF_KEYUP)) with (@nil Z).
    change (up_codes (SendKeyboard (c :: codes) KEYEVENTF_KEYUP)) with (c :: codes).
    cbn [count_occ]. lia.
Qed.

Lemma count_occ_split (P : Z -> bool) (l : list Z) k :
  count_occ Z.eq_dec l k
  = (count_occ Z.eq_dec (List.filter P l) k
     + count_occ Z.eq_dec (List.filter (fun c => negb (P c)) l) k)%nat.
Proof.
  induction l as [|c l IH]; [reflexivity|].
  cbn [List.filter count_occ]. destruct (P c); cbn [negb count_occ];
    destruct (Z.eq_dec c k); lia.
Qed.

Lemma tracks_handleDisableButton : tracks handleDisableButton.
Proof.
  intros g k.
  assert (He : exec handleDisableButton g = snd (fst (handleDisableButton g)))
    by reflexivity.
  assert (Hv : events handleDisableButton g = snd (handleDisableButton g))
    by reflexivity.
  rewrite handleDisableButton_run in He, Hv. cbn zeta in He, Hv.
  destruct (isDown_of _ _); [destruct (_disabled g)|];
    cbn [fst snd] in He, Hv; rewrite He, Hv.
  - rewrite fold_silent by apply pulse_events_silent. reflexivity.
  - rewrite !fold_left_app, fold_mouse_releases, fold_batched_key_up.
    rewrite fold_silent by apply pulse_events_silent.
    unfold held_count at 1. cbn [_pressedKeys set_pressedKeys count_occ].
    unfold held_count, keyboard_codes.
    rewrite (count_occ_split is_mouse_code (_pressedKeys g) k). lia.
  - reflexivity.
Qed.

(** *** The mappers *)

Lemma tracks_setXboxClickState STATE : tracks (setXboxClickState STATE).
Proof. apply tracks_modify. reflexivity. Qed.

Lemma tracks_mapKeyboard STATE keys : tracks (mapKeyboard STATE keys).
Proof.
  unfold mapKeyboard.
  apply tracks_bind; [apply tracks_setXboxClickState|intros _].
  apply tracks_bind; [apply tracks_get|intros g1].
  apply tracks_bind; [apply tracks_when, tracks_key_down|intros _].
  apply tracks_bind; [apply tracks_get|intros g2].
  apply tracks_when, tracks_key_up.
Qed.

Lemma tracks_mapMouseClick_left STATE :
  tracks (mapMouseClick STATE MOUSEEVENTF_LEFTDOWN MOUSEEVENTF_LEFTUP).
Proof.
  unfold mapMouseClick.
  apply tracks_bind; [apply tracks_setXboxClickState|intros _].
  apply tracks_bind; [apply tracks_get|intros g1].
  apply tracks_bind; [apply tracks_when|intros _].
  { apply (tracks_mouse_down MOUSEEVENTF_LEFTDOWN VK_LBUTTON); reflexivity. }
  apply tracks_bind; [apply tracks_get|intros g2].
  apply tracks_when.
  apply (tracks_mouse_up MOUSEEVENTF_LEFTUP VK_LBUTTON); reflexivity.
Qed.

Lemma tracks_mapMouseClick_right STATE :
  tracks (mapMouseClick STATE MOUSEEVENTF_RIGHTDOWN MOUSEEVENTF_RIGHTUP).
Proof.
  unfold mapMouseClick.
  apply tracks_bind; [apply tracks_setXboxClickState|intros _].
  apply tracks_bind; [apply tracks_get|intros g1].
  apply tracks_bind; [apply tracks_when|intros _].
  { apply (tracks_mouse_down MOUSEEVENTF_RIGHTDOWN VK_RBUTTON); reflexivity. }
  apply tracks_bind; [apply tracks_get|intros g2].
  apply tracks_when.
  apply (tracks_mouse_up MOUSEEVENTF_RIGHTUP VK_RBUTTON); reflexivity.
Qed.

Lemma tracks_mapMouseClick_middle STATE :
  tracks (mapMouseClick STATE MOUSEEVENTF_MIDDLEDOWN MOUSEEVENTF_MIDDLEUP).
Proof.
  unfold mapMouseClick.
  apply tracks_bind; [apply tracks_setXboxClickState|intros _].
  apply tracks_bind; [apply tracks_get|intros g1].
  apply tracks_bind; [apply tracks_when|intros _].
  { apply (tracks_mouse_down MOUSEEVENTF_MIDDLEDOWN VK_MBUTTON); reflexivity. }
  apply tracks_bind; [apply tracks_get|intros g2].
  apply tracks_when.
  apply (tracks_mouse_up MOUSEEVENTF_MIDDLEUP VK_MBUTTON); reflexivity.
Qed.

Ltac track_step :=
  match goal with
  | |- tracks (mapKeyboard _ _) => apply tracks_mapKeyboard
  | |- tracks (mapMouseClick _ MOUSEEVENTF_LEFTDOWN _) =>
      apply tracks_mapMouseClick_left
  | |- tracks (mapMouseClick _ MOUSEEVENTF_RIGHTDOWN _) =>
      apply tracks_mapMouseClick_right
  | |- tracks (mapMouseClick _ MOUSEEVENTF_MIDDLEDOWN _) =>
      apply tracks_mapMouseClick_middle
  | |- tracks handleDisableButton => apply tracks_handleDisableButton
  | |- tracks (pulseVibrate _ _ _) => apply tracks_pulseVibrate
  | |- tracks (setXboxClickState _) => apply tracks_setXboxClickState
  | |- tracks (bind _ _) => apply tracks_bind; [|intros ?]
  | |- tracks (ret _) => apply tracks_ret
  | |- tracks get => apply tracks_get
  | |- tracks (when _ _) => apply tracks_when
  | |- tracks (emit _) => apply tracks_emit; reflexivity
  | |- tracks (modify _) => apply tracks_modify; intros ?; reflexivity
  | |- tracks (if ?b then _ else _) => destruct b
  | |- tracks (match ?x with _ => _ end) => destruct x
  | |- tracks _ =>
      progress unfold handleTriggers, inputKeyboardDown, inputKeyboardUp,
        inputKeyboard, handleVibrationButton, handleMouseMovement,
        handleScrolling, mouseEvent, changeSpeed, toggleOsk,
        toggleWindowVisibility, setWindowVisibility
  | |- tracks _ => progress cbv zeta
  end.

Ltac track := repeat track_step.

(** With no key bound to either trigger, everything after the disable
    check keeps [_pressedKeys] in step with the log. *)
Lemma tracks_dispatch powf (inp : TickInput) (g : Gopher) :
  GAMEPAD_TRIGGER_LEFT (cfg g) = [] ->
  GAMEPAD_TRIGGER_RIGHT (cfg g) = [] ->
  tracks_at g (dispatch powf inp).
Proof.
  intros HL HR. unfold dispatch.
  apply tracks_at_bind; [apply tracks_get|].
  change (exec get g) with g. change (fst (fst (get g))) with g.
  cbv zeta. rewrite HL, HR.
  match goal with
  | |- tracks_at ?g0 ?m => cut (tracks m); [intros H; apply H|]
  end.
  track.
Qed.

(** One iteration of [loop], with no key bound to either trigger. *)
Lemma tracks_loop powf (inp : TickInput) (g : Gopher) :
  GAMEPAD_TRIGGER_LEFT (cfg g) = [] ->
  GAMEPAD_TRIGGER_RIGHT (cfg g) = [] ->
  tracks_at g (loop powf inp).
Proof.
  intros HL HR k.
  pose proof (loop_run powf inp g) as Hloop. cbn zeta in Hloop.
  set (g0 := set_currentState (pad inp) g) in *.
  pose proof (tracks_handleDisableButton g0 k) as Hh.
  change (held_count k g0) with (held_count k g) in Hh.
  assert (Hc : cfg (exec handleDisableButton g0) = cfg g)
    by apply (handleDisableButton_cfg g0).
  unfold exec at 1, events at 1. rewrite Hloop.
  destruct (_disabled (exec handleDisableButton g0)); cbn [fst snd fold_left].
  - rewrite Hh. f_equal. unfold unmatched_step. cbn. lia.
  - rewrite fold_left_app.
    rewrite (tracks_dispatch powf inp (exec handleDisableButton g0))
      by (rewrite Hc; assumption).
    rewrite Hh. do 2 f_equal. unfold unmatched_step. cbn. lia.
Qed.

Lemma run_ticks_cfg powf inps : forall g, cfg (fst (run_ticks powf inps g)) = cfg g.
Proof.
  induction inps as [|inp rest IH]; intros g; cbn [run_ticks]; [reflexivity|].
  specialize (IH (exec (loop powf inp) g)).
  destruct (run_ticks powf rest _) as [g2 log]. cbn [fst] in *.
  rewrite IH. apply loop_cfg.
Qed.

(** The part of the invariant of [_pressedKeys] that the code keeps: over
    any number of ticks of a mapper with no key bound to the triggers, every
    code occurs in [_pressedKeys] as often as the log holds unmatched down
    events for it; so, starting with nothing held, a code is in
    [_pressedKeys] exactly when it has an unmatched down event. *)
Theorem pressed_keys_match_log powf (inps : list TickInput) (g : Gopher) :
  GAMEPAD_TRIGGER_LEFT (cfg g) = [] ->
  GAMEPAD_TRIGGER_RIGHT (cfg g) = [] ->
  let g' := fst (run_ticks powf inps g) in
  let log := snd (run_ticks powf inps g) in
  (forall k, held_count k g' = fold_left (unmatched_step k) log (held_count k g)) /\
  (_pressedKeys g = [] ->
   forall k, In k (_pressedKeys g') <-> (0 < unmatched k log)%nat).
Proof.
  intros HL HR. cbn zeta.
  assert (H : forall k,
    held_count k (fst (run_ticks powf inps g))
    = fold_left (unmatched_step k) (snd (run_ticks powf inps g)) (held_count k g)).
  { revert g HL HR. induction inps as [|inp rest IH]; intros g HL HR k;
      cbn [run_ticks]; [reflexivity|].
    specialize (IH (exec (loop powf inp) g)).
    rewrite (loop_cfg powf inp g) in IH. specialize (IH HL HR k).
    destruct (run_ticks powf rest _) as [g2 log]. cbn [fst snd] in *.
    rewrite fold_left_app, <- (tracks_loop powf inp g HL HR k). exact IH. }
  split; [exact H|].
  intros Hempty k. specialize (H k). unfold held_count in H.
  rewrite Hempty in H. cbn [count_occ] in H.
  fold (unmatched k (snd (run_ticks powf inps g))) in H.
  rewrite <- H. rewrite (count_occ_In Z.eq_dec). lia.
Qed.

(** ** Keys pressed by the triggers *)

(** [handleTriggers] never touches [_pressedKeys]. *)
Lemma handleTriggers_pressedKeys lKey rKey :
  preserves _pressedKeys (handleTriggers lKey rKey).
Proof. frame. Qed.

(** C1, evaluated where it fails: pulling the left trigger, bound to the
    space bar, sends a key-down for code [0x20] that never enters
    [_pressedKeys]; the code then has an unmatched down event without being
    in the set, and the release on a following disable tick sends no key-up
    for it. *)
Theorem trigger_key_down_not_tracked powf :
  let pull := input_with 0 0 0 255 in
  let disable := input_with 0x0030 0 0 255 in
  let g1 := exec (loop powf pull) example_gopher in
  let log1 := events (loop powf pull) example_gopher in
  let g2 := exec (loop powf disable) g1 in
  let log2 := events (loop powf disable) g1 in
  In (SendKeyboard [0x20] 0) log1 /\
  unmatched 0x20 log1 = 1%nat /\
  _pressedKeys g1 = [] /\
  ~ (In 0x20 (_pressedKeys g1) <-> (0 < unmatched 0x20 log1)%nat) /\
  _disabled g2 = true /\
  log2 = [Sleep 6; Vibrate 10000 10000; Sleep 400; Vibrate 0 0] /\
  unmatched 0x20 (log1 ++ log2) = 1%nat.
Proof.
  cbn zeta.
  assert (H1 : events (loop powf (input_with 0 0 0 255)) example_gopher
               = [Sleep 6; SetCursorPos 100 100; SendKeyboard [0x20] 0])
    by (vm_compute; reflexivity).
  assert (H2 : _pressedKeys (exec (loop powf (input_with 0 0 0 255)) example_gopher) = [])
    by (vm_compute; reflexivity).
  assert (H3 : events (loop powf (input_with 0x0030 0 0 255))
                 (exec (loop powf (input_with 0 0 0 255)) example_gopher)
               = [Sleep 6; Vibrate 10000 10000; Sleep 400; Vibrate 0 0])
    by (vm_compute; reflexivity).
  assert (H4 : _disabled (exec (loop powf (input_with 0x0030 0 0 255))
                 (exec (loop powf (input_with 0 0 0 255)) example_gopher)) = true)
    by (vm_compute; reflexivity).
  rewrite H1, H2, H3, H4.
  repeat split; try reflexivity.
  - cbn. auto.
  - intros [_ H]. apply H. vm_compute. lia.
Qed.

(** ** Floats: rounding keeps the sign *)

Lemma iter_pos_invariant {A : Type} (P : A -> Prop) (f : A -> A) :
  (forall x, P x -> P (f x)) -> forall p x, P x -> P (SpecFloat.iter_pos f p x).
Proof.
  intros Hf. induction p as [p IH|p IH|]; intros x Hx; cbn [SpecFloat.iter_pos]; auto.
Qed.

Lemma shr_1_nonneg mrs : 0 <= shr_m mrs -> 0 <= shr_m (shr_1 mrs).
Proof.
  destruct mrs as [m r s]. cbn [shr_m]. intros Hm.
  destruct m as [|[p|p|]|p]; cbn; lia.
Qed.

Lemma shr_nonneg mrs e n : 0 <= shr_m mrs -> 0 <= shr_m (fst (shr mrs e n)).
Proof.
  intros Hm. destruct n as [|p|p]; cbn [shr fst]; [exact Hm| |exact Hm].
  apply iter_pos_invariant; [apply shr_1_nonneg|exact Hm].
Qed.

Lemma shr_fexp_nonneg m e l :
  0 <= m -> 0 <= shr_m (fst (shr_fexp F32.prec F32.emax m e l)).
Proof.
  intros Hm. unfold shr_fexp. apply shr_nonneg.
  destruct l as [|[]]; exact Hm.
Qed.

Lemma round_nearest_even_nonneg m l : 0 <= m -> 0 <= round_nearest_even m l.
Proof.
  intros Hm. destruct l as [|[]]; cbn [round_nearest_even]; try lia.
  destruct (Z.even m); lia.
Qed.

Lemma binary_round_aux_signbit s m e l :
  0 <= m -> F32.signbit (binary_round_aux F32.prec F32.emax s m e l) = Some s.
Proof.
  intros Hm. unfold binary_round_aux.
  pose proof (shr_fexp_nonneg m e l Hm) as H1.
  destruct (shr_fexp F32.prec F32.emax m e l) as [mrs' e'].
  cbn [fst] in H1.
  pose proof (shr_fexp_nonneg _ e' loc_Exact
                (round_nearest_even_nonneg (shr_m mrs') (loc_of_shr_record mrs') H1)) as H2.
  destruct (shr_fexp F32.prec F32.emax _ e' loc_Exact) as [mrs'' e''].
  cbn [fst] in H2.
  destruct (shr_m mrs'') as [|p|p]; [reflexivity| |lia].
  destruct (e'' <=? F32.emax - F32.prec); reflexivity.
Qed.

Lemma binary_round_signbit s m e :
  F32.signbit (binary_round F32.prec F32.emax s m e) = Some s.
Proof.
  unfold binary_round. destruct (shl_align _ _ _) as [mz ez].
  apply binary_round_aux_signbit. lia.
Qed.

Lemma of_Z_signbit n : F32.signbit (F32.of_Z n) = Some (n <? 0).
Proof.
  unfold F32.of_Z, binary_normalize. destruct n as [|p|p];
    [reflexivity|apply binary_round_signbit..].
Qed.

Lemma mul_signbit_finite_l sx mx ex y sy :
  F32.signbit y = Some sy ->
  F32.signbit (F32.mul (S754_finite sx mx ex) y) = Some (xorb sx sy).
Proof.
  destruct y as [s|s| |s m e]; cbn [F32.signbit]; intros [= <-];
    try reflexivity.
  apply binary_round_aux_signbit. lia.
Qed.

Lemma mul_signbit_finite_r x sx sy my ey :
  F32.signbit x = Some sx ->
  F32.signbit (F32.mul x (S754_finite sy my ey)) = Some (xorb sx sy).
Proof.
  destruct x as [s|s| |s m e]; cbn [F32.signbit]; intros [= <-];
    try reflexivity.
  apply binary_round_aux_signbit. lia.
Qed.

Lemma div_core_nonneg m1 e1 m2 e2 :
  0 <= fst (fst (SFdiv_core_binary F32.prec F32.emax (Zpos m1) e1 (Zpos m2) e2)).
Proof.
  unfold SFdiv_core_binary.
  set (s := _ - _ - _).
  set (m' := match s with Zpos _ => _ | Z0 => _ | Zneg _ => _ end).
  assert (Hm' : 0 <= m').
  { subst m'. destruct s; try lia. apply Z.shiftl_nonneg. lia. }
  pose proof (Z_div_mod m' (Zpos m2) ltac:(lia)) as H.
  destruct (Z.div_eucl m' (Zpos m2)) as [q r]. cbn [fst].
  destruct H as [H1 H2]. nia.
Qed.

Lemma div_signbit_finite_r x sx sy my ey :
  F32.signbit x = Some sx ->
  F32.signbit (F32.div x (S754_finite sy my ey)) = Some (xorb sx sy).
Proof.
  destruct x as [s|s| |s m e]; cbn [F32.signbit]; intros [= <-];
    try reflexivity.
  unfold F32.div, SFdiv.
  pose proof (div_core_nonneg m e my ey) as H.
  destruct (SFdiv_core_binary _ _ _ _ _ _) as [[mz ez] lz]. cbn [fst] in H.
  apply binary_round_aux_signbit. exact H.
Qed.

(** ** Floats: results that need no rounding *)

Lemma digits2_pos_iter_xO p j :
  digits2_pos (Pos.iter xO p j) = (digits2_pos p + j)%positive.
Proof.
  induction j as [|j IH] using Pos.peano_ind.
  - cbn. lia.
  - rewrite Pos.iter_succ. cbn [digits2_pos]. rewrite IH. lia.
Qed.

Lemma Zpos_iter_xO p j : Zpos (Pos.iter xO p j) = Zpos p * 2 ^ Zpos j.
Proof.
  induction j as [|j IH] using Pos.peano_ind.
  - cbn. lia.
  - rewrite Pos.iter_succ, Pos2Z.inj_xO, IH, Pos2Z.inj_succ, Z.pow_succ_r; lia.
Qed.

Lemma digits2_pos_bounds p :
  2 ^ (Zpos (digits2_pos p) - 1) <= Zpos p < 2 ^ Zpos (digits2_pos p).
Proof.
  change (digits2_pos p) with (Pos.size p).
  pose proof (Pos.size_gt p) as Hgt. pose proof (Pos.size_le p) as Hle.
  apply Pos2Z.pos_lt_pos in Hgt. apply Pos2Z.pos_le_pos in Hle.
  rewrite Pos2Z.inj_pow in Hgt, Hle. change (Z.pos p~0) with (2 * Z.pos p) in Hle.
  split; [|exact Hgt].
  assert (H : 2 ^ Zpos (Pos.size p) = 2 * 2 ^ (Zpos (Pos.size p) - 1)).
  { rewrite <- Z.pow_succ_r by lia. f_equal. lia. }
  lia.
Qed.

(** The digit count of a positive number, from its bounds. *)
Lemma digits2_pos_unique p d :
  2 ^ (d - 1) <= Zpos p < 2 ^ d -> Zpos (digits2_pos p) = d.
Proof.
  intros [Hlo Hhi]. pose proof (digits2_pos_bounds p) as [Hlo' Hhi'].
  set (d' := Zpos (digits2_pos p)) in *.
  assert (Hd : 0 < d).
  { destruct (Z.lt_ge_cases 0 d) as [H|H]; [exact H|].
    rewrite Z.pow_neg_r in Hlo by lia.
    assert (2 ^ d <= 1); [|lia].
    destruct (Z.eq_dec d 0) as [->|]; [cbn; lia|].
    rewrite Z.pow_neg_r by lia. lia. }
  destruct (Z.lt_trichotomy d d') as [H|[H|H]]; [|exact (eq_sym H)|].
  - assert (2 ^ d <= 2 ^ (d' - 1)) by (apply Z.pow_le_mono_r; lia). lia.
  - assert (2 ^ d' <= 2 ^ (d - 1)) by (apply Z.pow_le_mono_r; lia). lia.
Qed.

(** A 24-digit mantissa with an exponent of the format is returned as it
    is. *)
Lemma binary_round_aux_canonical s m e :
  digits2_pos m = 24%positive -> -149 <= e <= 104 ->
  binary_round_aux F32.prec F32.emax s (Zpos m) e loc_Exact = S754_finite s m e.
Proof.
  intros Hd He.
  assert (Hshift : fexp F32.prec F32.emax (Zdigits2 (Zpos m) + e) - e = 0).
  { unfold fexp, emin, F32.prec, F32.emax. cbn [Zdigits2]. rewrite Hd. lia. }
  unfold binary_round_aux, shr_fexp. rewrite Hshift.
  cbn [shr shr_record_of_loc shr_m loc_of_shr_record round_nearest_even].
  rewrite Hshift. cbn [shr shr_record_of_loc shr_m].
  unfold F32.prec, F32.emax.
  destruct (Z.leb_spec e (128 - 24)); [reflexivity|lia].
Qed.

(** A mantissa of at most 24 digits is shifted left to 24 digits; nothing
    is lost. *)
Lemma binary_round_exact s m e :
  let d := Zpos (digits2_pos m) in
  d <= 24 -> -149 <= e - (24 - d) <= 104 ->
  exists m', binary_round F32.prec F32.emax s m e = S754_finite s m' (e - (24 - d))
             /\ Zpos m' = Zpos m * 2 ^ (24 - d)
             /\ digits2_pos m' = 24%positive.
Proof.
  intros d Hd He. unfold binary_round.
  assert (Hf : fexp F32.prec F32.emax (Zpos (digits2_pos m) + e) = e - (24 - d)).
  { unfold fexp, emin, F32.prec, F32.emax. fold d. lia. }
  rewrite Hf. unfold shl_align.
  destruct (Z.eq_dec d 24) as [Heq|Hne].
  - replace (e - (24 - d) - e) with 0 by lia.
    exists m. rewrite binary_round_aux_canonical; [|subst d; lia|lia].
    replace (e - (24 - d)) with e by lia. rewrite Heq. cbn.
    split; [reflexivity|]. split; [lia|]. subst d. lia.
  - destruct (24 - d) as [|j|j] eqn:Hj; try lia.
    replace (e - Zpos j - e) with (Zneg j) by lia.
    exists (Pos.iter xO m j).
    rewrite binary_round_aux_canonical;
      [|rewrite digits2_pos_iter_xO; subst d; lia|lia].
    split; [reflexivity|]. split; [apply Zpos_iter_xO|].
    rewrite digits2_pos_iter_xO. subst d. lia.
Qed.

(** The float of a non-zero integer of magnitude below [2^24]. *)
Lemma of_Z_small (n : Z) :
  n <> 0 -> Z.abs n < 2 ^ 24 ->
  exists m e, F32.of_Z n = S754_finite (n <? 0) m e
              /\ -23 <= e <= 0 /\ Zpos m = Z.abs n * 2 ^ (- e)
              /\ digits2_pos m = 24%positive.
Proof.
  intros Hn0 Hn.
  assert (H : forall s p, Zpos p < 2 ^ 24 ->
    exists m e, binary_round F32.prec F32.emax s p 0 = S754_finite s m e
                /\ -23 <= e <= 0 /\ Zpos m = Zpos p * 2 ^ (- e)
                /\ digits2_pos m = 24%positive).
  { intros s p Hp. pose proof (digits2_pos_bounds p) as Hb.
    assert (Hd : Zpos (digits2_pos p) <= 24).
    { destruct (Z.le_gt_cases (Zpos (digits2_pos p)) 24) as [H|H]; [exact H|].
      assert (2 ^ 24 <= 2 ^ (Zpos (digits2_pos p) - 1))
        by (apply Z.pow_le_mono_r; lia). lia. }
    destruct (binary_round_exact s p 0 Hd ltac:(lia)) as (m' & Hr & Hv & Hd').
    exists m', (0 - (24 - Zpos (digits2_pos p))).
    split; [exact Hr|]. split; [lia|]. split; [|exact Hd'].
    rewrite Hv. f_equal. f_equal. lia. }
  destruct n as [|p|p]; [congruence|apply (H false p Hn)|apply (H true p Hn)].
Qed.


(** ** Floats: the sign of a difference of small integers *)

Lemma shl_align_fst m e ez :
  ez <= e -> Zpos (fst (shl_align m e ez)) = Zpos m * 2 ^ (e - ez).
Proof.
  intros Hle. unfold shl_align.
  destruct (ez - e) as [|d|d] eqn:Hd; cbn [fst]; try lia.
  - replace (e - ez) with 0 by lia. lia.
  - rewrite Zpos_iter_xO. f_equal. f_equal. lia.
Qed.

Lemma sub_small_signbit (a b : Z) :
  0 <= a < b -> b < 2 ^ 24 ->
  F32.signbit (F32.sub (F32.of_Z a) (F32.of_Z b)) = Some true.
Proof.
  intros Hab Hb.
  destruct (of_Z_small b ltac:(lia) ltac:(lia)) as (mb & eb & Hfb & Heb & Hvb & _).
  rewrite Hfb. replace (b <? 0) with false by (symmetry; apply Z.ltb_ge; lia).
  destruct (Z.eq_dec a 0) as [->|Ha0]; [reflexivity|].
  destruct (of_Z_small a Ha0 ltac:(lia)) as (ma & ea & Hfa & Hea & Hva & _).
  rewrite Hfa. replace (a <? 0) with false by (symmetry; apply Z.ltb_ge; lia).
  unfold F32.sub, SFsub. cbn [cond_Zopp].
  set (ez := Z.min ea eb).
  pose proof (shl_align_fst ma ea ez ltac:(lia)) as Ha.
  pose proof (shl_align_fst mb eb ez ltac:(lia)) as Hb'.
  rewrite Z.abs_eq in Hva, Hvb by lia.
  assert (Ha2 : Zpos (fst (shl_align ma ea ez)) = a * 2 ^ (- ez)).
  { rewrite Ha, Hva, <- Z.mul_assoc, <- Z.pow_add_r by lia. f_equal. f_equal. lia. }
  assert (Hb2 : Zpos (fst (shl_align mb eb ez)) = b * 2 ^ (- ez)).
  { rewrite Hb', Hvb, <- Z.mul_assoc, <- Z.pow_add_r by lia. f_equal. f_equal. lia. }
  assert (Hpow : 0 < 2 ^ (- ez)) by (apply Z.pow_pos_nonneg; lia).
  destruct (Zpos (fst (shl_align ma ea ez)) - Zpos (fst (shl_align mb eb ez)))
    as [|d|d] eqn:Hd; try nia.
  unfold binary_normalize. apply binary_round_signbit.
Qed.

(** ** Floats: facts checked over the whole range of an axis *)

Lemma float_eqb_eq x y : float_eqb x y = true -> x = y.
Proof.
  destruct x as [s1|s1| |s1 m1 e1], y as [s2|s2| |s2 m2 e2]; cbn;
    try discriminate; try reflexivity.
  - intros H. apply Bool.eqb_prop in H. congruence.
  - intros H. apply Bool.eqb_prop in H. congruence.
  - intros H. apply andb_true_iff in H as [H He].
    apply andb_true_iff in H as [Hs Hm].
    apply Bool.eqb_prop in Hs. apply Pos.eqb_eq in Hm. apply Z.eqb_eq in He.
    congruence.
Qed.

Lemma check_from_spec f n : forall lo,
  check_from f lo n = true -> forall i, lo <= i < lo + Z.of_nat n -> f i = true.
Proof.
  induction n as [|k IH]; cbn [check_from]; intros lo H i Hi; [lia|].
  apply andb_true_iff in H as [Hlo H].
  destruct (Z.eq_dec i lo) as [->|Hne]; [exact Hlo|].
  apply (IH (lo + 1)); [exact H|lia].
Qed.

Lemma check_range_spec f lo hi :
  check_range f lo hi = true -> forall i, lo <= i < hi -> f i = true.
Proof.
  intros H i Hi. apply (check_from_spec f _ lo H). rewrite Z2Nat.id; lia.
Qed.

Lemma is_finite_nonzero_spec s f :
  is_finite_nonzero s f = true -> exists m e, f = S754_finite s m e.
Proof.
  destruct f as [| | |s' m e]; cbn; try discriminate.
  intros H. apply Bool.eqb_prop in H. subst s'. eauto.
Qed.

(** The square root of the square of an axis value is its magnitude. *)
Lemma sqrt_square_short (t : Z) :
  is_short t ->
  F32.sqrt (F32.mul (F32.of_Z t) (F32.of_Z t)) = F32.of_Z (Z.abs t).
Proof.
  intros Ht.
  assert (H : check_range
                (fun t => float_eqb (F32.sqrt (F32.mul (F32.of_Z t) (F32.of_Z t)))
                                    (F32.of_Z (Z.abs t)))
                (-32768) 32768 = true) by (vm_compute; reflexivity).
  apply float_eqb_eq.
  apply (check_range_spec _ _ _ H t). unfold is_short in Ht. lia.
Qed.

(** [MAXSHORT - deadzone] is a positive float for a dead zone below
    [MAXSHORT]. *)
Lemma maxshort_minus_deadzone (dz : Z) :
  0 < dz < MAXSHORT ->
  exists m e, F32.sub (F32.of_Z MAXSHORT) (F32.of_Z dz) = S754_finite false m e.
Proof.
  intros Hdz.
  assert (H : check_range
                (fun i => is_finite_nonzero false
                            (F32.sub (F32.of_Z MAXSHORT) (F32.of_Z i)))
                1 MAXSHORT = true) by (vm_compute; reflexivity).
  apply is_finite_nonzero_spec. apply (check_range_spec _ _ _ H dz). lia.
Qed.

(** A magnitude below [MAXSHORT] minus [MAXSHORT] is a negative float. *)
Lemma magnitude_minus_maxshort (a : Z) :
  0 <= a < MAXSHORT ->
  exists m e, F32.sub (F32.of_Z a) (F32.of_Z MAXSHORT) = S754_finite true m e.
Proof.
  intros Ha.
  assert (H : check_range
                (fun i => is_finite_nonzero true
                            (F32.sub (F32.of_Z i) (F32.of_Z MAXSHORT)))
                0 MAXSHORT = true) by (vm_compute; reflexivity).
  apply is_finite_nonzero_spec. apply (check_range_spec _ _ _ H a). lia.
Qed.

(** ** Floats: rounding an integer of more than 24 digits *)

Lemma iter_pos_nat {A : Type} (f : A -> A) (p : positive) : forall x,
  SpecFloat.iter_pos f p x = Nat.iter (Pos.to_nat p) f x.
Proof.
  induction p as [p IH|p IH|]; intros x; cbn [SpecFloat.iter_pos].
  - rewrite !IH, Pos2Nat.inj_xI, <- Nat.iter_add, <- Nat.iter_succ_r.
    f_equal. lia.
  - rewrite !IH, Pos2Nat.inj_xO, <- Nat.iter_add. f_equal. lia.
  - reflexivity.
Qed.

Lemma shr_1_spec m r s :
  0 <= m ->
  shr_1 {| shr_m := m; shr_r := r; shr_s := s |}
  = {| shr_m := m / 2; shr_r := Z.odd m; shr_s := r || s |}.
Proof.
  intros Hm. rewrite <- Z.div2_div.
  destruct m as [|[p|p|]|p]; try lia; reflexivity.
Qed.

(** [j >= 1] right shifts of [n]: the quotient, the bit shifted out last
    and whether any bit below it was set. *)
Lemma shr_iter_spec n (j : nat) :
  0 <= n -> (1 <= j)%nat ->
  Nat.iter j shr_1 {| shr_m := n; shr_r := false; shr_s := false |}
  = {| shr_m := n / 2 ^ Z.of_nat j;
       shr_r := 2 ^ (Z.of_nat j - 1) <=? n mod 2 ^ Z.of_nat j;
       shr_s := negb (n mod 2 ^ (Z.of_nat j - 1) =? 0) |}.
Proof.
  intros Hn Hj. induction j as [|j IH]; [lia|].
  destruct j as [|j].
  - cbn [Nat.iter]. rewrite shr_1_spec by exact Hn.
    change (2 ^ Z.of_nat 1) with 2. change (2 ^ (Z.of_nat 1 - 1)) with 1.
    rewrite Z.mod_1_r. cbn [orb negb Z.eqb]. f_equal.
    rewrite Zodd_mod. destruct (Z.mod_pos_bound n 2 ltac:(lia)) as [H0 H2].
    destruct (Z.leb_spec 1 (n mod 2)), (Z.eqb_spec (n mod 2) 1); lia || reflexivity.
  - rewrite Nat.iter_succ, IH by lia. clear IH.
    set (k := Z.of_nat (S j)).
    assert (Hk : 1 <= k) by (subst k; lia).
    replace (Z.of_nat (S (S j))) with (k + 1) by (subst k; lia).
    replace (k + 1 - 1) with k by lia.
    assert (Hp : 0 < 2 ^ (k - 1)) by (apply Z.pow_pos_nonneg; lia).
    assert (Hpk : 2 ^ k = 2 ^ (k - 1) * 2).
    { replace k with (Z.succ (k - 1)) at 1 by lia.
      rewrite Z.pow_succ_r by lia. lia. }
    assert (Hpk1 : 2 ^ (k + 1) = 2 ^ k * 2)
      by (change (k + 1) with (Z.succ k); rewrite Z.pow_succ_r; lia).
    rewrite shr_1_spec by (apply Z.div_pos; lia).
    f_equal.
    + rewrite Z.div_div by lia. f_equal. lia.
    + rewrite Hpk1, Z.rem_mul_r by lia.
      rewrite Zodd_mod.
      pose proof (Z.mod_pos_bound n (2 ^ k) ltac:(lia)) as Hb.
      pose proof (Z.mod_pos_bound (n / 2 ^ k) 2 ltac:(lia)) as Hb2.
      destruct (Z.eqb_spec ((n / 2 ^ k) mod 2) 1) as [He|He];
        destruct (Z.leb_spec (2 ^ k) (n mod 2 ^ k + 2 ^ k * ((n / 2 ^ k) mod 2)));
        try reflexivity; nia.
    + rewrite Hpk at 1 2. rewrite Z.rem_mul_r by lia.
      pose proof (Z.mod_pos_bound n (2 ^ (k - 1)) ltac:(lia)) as Hb.
      pose proof (Z.mod_pos_bound (n / 2 ^ (k - 1)) 2 ltac:(lia)) as Hb2.
      set (a := n mod 2 ^ (k - 1)) in *.
      set (b := (n / 2 ^ (k - 1)) mod 2) in *.
      set (P := 2 ^ (k - 1)) in *. clearbody a b P.
      assert (Hb01 : b = 0 \/ b = 1) by lia.
      destruct Hb01 as [-> | ->];
        [replace (a + P * 0) with a by lia|];
        repeat match goal with
               | |- context [?x <=? ?y] => destruct (Z.leb_spec x y)
               | |- context [?x =? ?y] => destruct (Z.eqb_spec x y)
               end;
        cbn [orb negb]; try reflexivity; exfalso; lia.
Qed.

Lemma rnd_bounds n k : n / 2 ^ k <= rnd n k <= n / 2 ^ k + 1.
Proof.
  unfold rnd. destruct (_ <? _); [lia|].
  destruct (_ =? _); [destruct (Z.even _)|]; lia.
Qed.

Lemma round_shifted n (kp : positive) :
  0 <= n ->
  let mrs := SpecFloat.iter_pos shr_1 kp
               {| shr_m := n; shr_r := false; shr_s := false |} in
  round_nearest_even (shr_m mrs) (loc_of_shr_record mrs) = rnd n (Zpos kp).
Proof.
  intros Hn. cbn zeta.
  rewrite iter_pos_nat, shr_iter_spec by lia.
  rewrite positive_nat_Z. unfold rnd. cbn [shr_m loc_of_shr_record].
  set (k := Zpos kp).
  assert (Hp : 0 < 2 ^ (k - 1)) by (apply Z.pow_pos_nonneg; lia).
  assert (Hpk : 2 ^ k = 2 ^ (k - 1) * 2).
  { replace k with (Z.succ (k - 1)) at 1 by lia.
    rewrite Z.pow_succ_r by lia. lia. }
  assert (Hrem : n mod 2 ^ k
                 = n mod 2 ^ (k - 1) + 2 ^ (k - 1) * ((n / 2 ^ (k - 1)) mod 2))
    by (rewrite Hpk at 1; apply Z.rem_mul_r; lia).
  pose proof (Z.mod_pos_bound n (2 ^ (k - 1)) ltac:(lia)) as Hb.
  pose proof (Z.mod_pos_bound (n / 2 ^ (k - 1)) 2 ltac:(lia)) as Hb2.
  set (q := n / 2 ^ k). rewrite Hrem.
  set (a := n mod 2 ^ (k - 1)) in *.
  set (b := (n / 2 ^ (k - 1)) mod 2) in *.
  set (P := 2 ^ (k - 1)) in *. clearbody a b P q.
  assert (Hb01 : b = 0 \/ b = 1) by lia.
  destruct Hb01 as [-> | ->];
    [replace (a + P * 0) with a by lia|];
    repeat match goal with
           | |- context [?x <=? ?y] => destruct (Z.leb_spec x y)
           | |- context [?x <? ?y] => destruct (Z.ltb_spec x y)
           | |- context [?x =? ?y] => destruct (Z.eqb_spec x y)
           end;
    cbn [orb negb round_nearest_even]; try reflexivity; try lia.
Qed.

Lemma shr_fexp_big p kp :
  Zpos (digits2_pos p) = 24 + Zpos kp ->
  shr_fexp F32.prec F32.emax (Zpos p) 0 loc_Exact
  = (SpecFloat.iter_pos shr_1 kp {| shr_m := Zpos p; shr_r := false; shr_s := false |},
     Zpos kp).
Proof.
  intros Hd. unfold shr_fexp. cbn [Zdigits2 shr_record_of_loc].
  assert (Hf : fexp F32.prec F32.emax (Zpos (digits2_pos p) + 0) - 0 = Zpos kp).
  { rewrite Hd. unfold fexp, emin, F32.prec, F32.emax. lia. }
  rewrite Hf. reflexivity.
Qed.

(** The float of an integer of [24 + k] digits. *)
Lemma of_Z_big (n k : Z) :
  1 <= k <= 103 -> 2 ^ (23 + k) <= n < 2 ^ (24 + k) ->
  F32.of_Z n =
  if rnd n k <? 2 ^ 24 then S754_finite false (Z.to_pos (rnd n k)) k
  else S754_finite false (2 ^ 23) (k + 1).
Proof.
  intros Hk Hn.
  assert (Hn0 : 0 < n).
  { assert (0 < 2 ^ (23 + k)) by (apply Z.pow_pos_nonneg; lia). lia. }
  destruct n as [|p|p]; try lia.
  assert (Hd : Zpos (digits2_pos p) = 24 + k).
  { apply digits2_pos_unique. replace (24 + k - 1) with (23 + k) by lia. exact Hn. }
  destruct k as [|kp|kp]; try lia.
  assert (Hq : 2 ^ 23 <= Zpos p / 2 ^ Zpos kp < 2 ^ 24).
  { split.
    - apply Z.div_le_lower_bound; [apply Z.pow_pos_nonneg; lia|].
      rewrite <- Z.pow_add_r by lia. rewrite Z.add_comm. apply Hn.
    - apply Z.div_lt_upper_bound; [apply Z.pow_pos_nonneg; lia|].
      rewrite <- Z.pow_add_r by lia. rewrite Z.add_comm. apply Hn. }
  pose proof (rnd_bounds (Zpos p) (Zpos kp)) as HM.
  unfold F32.of_Z, binary_normalize, binary_round.
  assert (Hf : fexp F32.prec F32.emax (Zpos (digits2_pos p) + 0) = Zpos kp).
  { rewrite Hd. unfold fexp, emin, F32.prec, F32.emax. lia. }
  rewrite Hf. unfold shl_align.
  change (Z.pos kp - 0) with (Z.pos kp). cbv iota beta.
  unfold binary_round_aux. rewrite (shr_fexp_big p kp Hd).
  rewrite (round_shifted (Zpos p) kp ltac:(lia)).
  set (M := rnd (Zpos p) (Zpos kp)) in *.
  destruct (Z.ltb_spec M (2 ^ 24)) as [Hlt|Hge].
  - destruct M as [|mp|mp] eqn:HMeq; try lia.
    assert (Hdm : Zpos (digits2_pos mp) = 24)
      by (apply digits2_pos_unique; lia).
    unfold shr_fexp. cbn [Zdigits2]. rewrite Hdm.
    assert (Hf2 : fexp F32.prec F32.emax (24 + Zpos kp) - Zpos kp = 0)
      by (unfold fexp, emin, F32.prec, F32.emax; lia).
    rewrite Hf2. cbn [shr shr_record_of_loc shr_m Z.to_pos].
    unfold F32.prec, F32.emax.
    destruct (Z.leb_spec (Zpos kp) (128 - 24)); [reflexivity|lia].
  - assert (HM24 : M = 2 ^ 24) by lia. rewrite HM24.
    unfold shr_fexp.
    assert (Hf2 : fexp F32.prec F32.emax (Zdigits2 (2 ^ 24) + Zpos kp) - Zpos kp = 1)
      by (unfold fexp, emin, F32.prec, F32.emax;
          change (Zdigits2 (2 ^ 24)) with 25; lia).
    rewrite Hf2. unfold F32.prec, F32.emax.
    change (2 ^ 24) with 16777216.
    cbn [shr shr_record_of_loc SpecFloat.iter_pos shr_1 shr_m orb].
    destruct (Z.leb_spec (Zpos kp + 1) (128 - 24)); [reflexivity|lia].
Qed.

(** ** Floats: the conversion of integers is monotone *)

Lemma rnd_mono (n1 n2 k : Z) :
  1 <= k -> 0 <= n1 <= n2 -> rnd n1 k <= rnd n2 k.
Proof.
  intros Hk Hn.
  assert (Hp : 0 < 2 ^ (k - 1)) by (apply Z.pow_pos_nonneg; lia).
  assert (Hpk : 2 ^ k = 2 ^ (k - 1) * 2).
  { replace k with (Z.succ (k - 1)) at 1 by lia.
    rewrite Z.pow_succ_r by lia. lia. }
  pose proof (Z.div_mod n1 (2 ^ k) ltac:(lia)) as H1.
  pose proof (Z.div_mod n2 (2 ^ k) ltac:(lia)) as H2.
  pose proof (Z.mod_pos_bound n1 (2 ^ k) ltac:(lia)) as Hb1.
  pose proof (Z.mod_pos_bound n2 (2 ^ k) ltac:(lia)) as Hb2.
  pose proof (rnd_bounds n1 k) as Hr1. pose proof (rnd_bounds n2 k) as Hr2.
  assert (Hq : n1 / 2 ^ k <= n2 / 2 ^ k) by (apply Z.div_le_mono; lia).
  destruct (Z.eq_dec (n1 / 2 ^ k) (n2 / 2 ^ k)) as [Heq|Hne]; [|lia].
  unfold rnd in *. rewrite <- Heq in *.
  set (q := n1 / 2 ^ k) in *. set (r1 := n1 mod 2 ^ k) in *.
  set (r2 := n2 mod 2 ^ k) in *. set (P := 2 ^ (k - 1)) in *.
  assert (Hr : r1 <= r2) by nia.
  clearbody q r1 r2 P.
  repeat match goal with
         | |- context [?x <? ?y] => destruct (Z.ltb_spec x y)
         | |- context [?x =? ?y] => destruct (Z.eqb_spec x y)
         end; try lia; destruct (Z.even q); lia.
Qed.

Lemma nearest24_big_bounds n :
  2 ^ 24 <= n ->
  let k := Z.log2 n - 23 in
  1 <= k /\ 2 ^ (23 + k) <= n < 2 ^ (24 + k) /\
  2 ^ 23 <= n / 2 ^ k < 2 ^ 24.
Proof.
  intros Hn. cbn zeta.
  pose proof (Z.log2_spec n ltac:(lia)) as Hl.
  assert (Hl24 : 24 <= Z.log2 n).
  { change 24 with (Z.log2 (2 ^ 24)). apply Z.log2_le_mono. exact Hn. }
  replace (23 + (Z.log2 n - 23)) with (Z.log2 n) by lia.
  replace (24 + (Z.log2 n - 23)) with (Z.succ (Z.log2 n)) by lia.
  split; [lia|]. split; [exact Hl|].
  set (k := Z.log2 n - 23).
  assert (Hk : 0 < 2 ^ k) by (apply Z.pow_pos_nonneg; subst k; lia).
  split.
  - apply Z.div_le_lower_bound; [exact Hk|].
    rewrite <- Z.pow_add_r by (subst k; lia).
    replace (k + 23) with (Z.log2 n) by (subst k; lia). apply Hl.
  - apply Z.div_lt_upper_bound; [exact Hk|].
    rewrite <- Z.pow_add_r by (subst k; lia).
    replace (k + 24) with (Z.succ (Z.log2 n)) by (subst k; lia). apply Hl.
Qed.

Lemma nearest24_mono (n1 n2 : Z) :
  0 <= n1 <= n2 -> nearest24 n1 <= nearest24 n2.
Proof.
  intros Hn. unfold nearest24.
  destruct (Z.ltb_spec n1 (2 ^ 24)) as [Hs1|Hb1];
    destruct (Z.ltb_spec n2 (2 ^ 24)) as [Hs2|Hb2]; try lia.
  - destruct (nearest24_big_bounds n2 Hb2) as (Hk & _ & Hq).
    cbn zeta in *. set (k := Z.log2 n2 - 23) in *.
    pose proof (rnd_bounds n2 k) as Hr.
    assert (2 ^ 1 <= 2 ^ k) by (apply Z.pow_le_mono_r; lia).
    change (2 ^ 1) with 2 in *. nia.
  - destruct (nearest24_big_bounds n1 Hb1) as (Hk1 & Hn1 & Hq1).
    destruct (nearest24_big_bounds n2 Hb2) as (Hk2 & Hn2 & Hq2).
    cbn zeta in *.
    assert (Hl : Z.log2 n1 <= Z.log2 n2) by (apply Z.log2_le_mono; lia).
    set (k1 := Z.log2 n1 - 23) in *. set (k2 := Z.log2 n2 - 23) in *.
    destruct (Z.eq_dec k1 k2) as [Heq|Hne].
    + rewrite Heq.
      apply Z.mul_le_mono_nonneg_r; [apply Z.pow_nonneg; lia|].
      apply rnd_mono; lia.
    + pose proof (rnd_bounds n1 k1) as Hr1. pose proof (rnd_bounds n2 k2) as Hr2.
      assert (Hpow : 2 ^ (k1 + 1) <= 2 ^ k2) by (apply Z.pow_le_mono_r; lia).
      rewrite Z.pow_add_r in Hpow by lia. change (2 ^ 1) with 2 in Hpow.
      assert (0 < 2 ^ k1) by (apply Z.pow_pos_nonneg; lia).
      assert (0 < 2 ^ k2) by (apply Z.pow_pos_nonneg; lia).
      assert (rnd n1 k1 * 2 ^ k1 <= 2 ^ 24 * 2 ^ k1) by nia.
      assert (2 ^ 23 * 2 ^ k2 <= rnd n2 k2 * 2 ^ k2) by nia.
      lia.
Qed.

(** The float of a positive [int]: a 24-digit mantissa, and the value
    [nearest24 n]. *)
Lemma of_Z_canonical (n : Z) :
  0 < n < 2 ^ 31 ->
  exists m e, F32.of_Z n = S754_finite false m e
              /\ digits2_pos m = 24%positive /\ -23 <= e
              /\ Zpos m * 2 ^ (e + 23) = nearest24 n * 2 ^ 23.
Proof.
  intros Hn. unfold nearest24.
  destruct (Z.ltb_spec n (2 ^ 24)) as [Hs|Hb].
  - destruct (of_Z_small n ltac:(lia) ltac:(lia)) as (m & e & Hf & He & Hv & Hd).
    replace (n <? 0) with false in Hf by (symmetry; apply Z.ltb_ge; lia).
    exists m, e. split; [exact Hf|]. split; [exact Hd|]. split; [lia|].
    rewrite Hv, Z.abs_eq, <- Z.mul_assoc, <- Z.pow_add_r by lia.
    f_equal. f_equal. lia.
  - destruct (nearest24_big_bounds n Hb) as (Hk & Hnk & Hq). cbn zeta in *.
    set (k := Z.log2 n - 23) in *.
    assert (Hk7 : k <= 103).
    { assert (Z.log2 n < 31); [|subst k; lia].
      apply Z.log2_lt_pow2; lia. }
    pose proof (rnd_bounds n k) as Hr.
    rewrite (of_Z_big n k ltac:(lia) Hnk).
    destruct (Z.ltb_spec (rnd n k) (2 ^ 24)) as [Hlt|Hge].
    + exists (Z.to_pos (rnd n k)), k.
      split; [reflexivity|].
      assert (Hpos : Zpos (Z.to_pos (rnd n k)) = rnd n k)
        by (apply Z2Pos.id; lia).
      split; [|split; [lia|]].
      * assert (Zpos (digits2_pos (Z.to_pos (rnd n k))) = 24); [|lia].
        apply digits2_pos_unique. rewrite Hpos. lia.
      * rewrite Hpos, Z.pow_add_r by lia. lia.
    + exists (2 ^ 23)%positive, (k + 1).
      split; [reflexivity|]. split; [reflexivity|]. split; [lia|].
      assert (Heq : rnd n k = 2 ^ 24) by lia. rewrite Heq.
      change (Zpos (2 ^ 23)) with (2 ^ 23).
      rewrite !Z.pow_add_r by lia. change (2 ^ 24) with (2 ^ 23 * 2). 
      change (2 ^ 1) with 2. lia.
Qed.

(** Floats with 24-digit mantissas compare as their values do. *)
Lemma ltb_canonical m1 e1 m2 e2 :
  digits2_pos m1 = 24%positive -> digits2_pos m2 = 24%positive ->
  -23 <= e1 -> -23 <= e2 ->
  Zpos m1 * 2 ^ (e1 + 23) <= Zpos m2 * 2 ^ (e2 + 23) ->
  SFltb (S754_finite false m2 e2) (S754_finite false m1 e1) = false.
Proof.
  intros Hd1 Hd2 He1 He2 Hle.
  pose proof (digits2_pos_bounds m1) as Hb1.
  pose proof (digits2_pos_bounds m2) as Hb2.
  rewrite Hd1 in Hb1. rewrite Hd2 in Hb2.
  change (2 ^ (24 - 1)) with (2 ^ 23) in *.
  unfold SFltb, SFcompare.
  destruct (Z.compare_spec e2 e1) as [Heq|Hlt|Hgt]; [| |reflexivity].
  - subst e2.
    assert (Hp : 0 < 2 ^ (e1 + 23)) by (apply Z.pow_pos_nonneg; lia).
    assert (Hm : Zpos m1 <= Zpos m2) by nia.
    fold (Pos.compare m2 m1).
    destruct (Pos.compare_spec m2 m1); try reflexivity. lia.
  - exfalso.
    assert (Hp : 0 < 2 ^ (e2 + 23)) by (apply Z.pow_pos_nonneg; lia).
    assert (Hpow : 2 ^ (e2 + 23 + 1) <= 2 ^ (e1 + 23))
      by (apply Z.pow_le_mono_r; lia).
    rewrite Z.pow_add_r in Hpow by lia. change (2 ^ 1) with 2 in Hpow.
    change (2 ^ 24) with (2 ^ 23 * 2) in *. nia.
Qed.

(** The conversion never turns [a <= b] into [(float)a > (float)b]. *)
Lemma of_Z_le (a b : Z) :
  0 <= a <= b -> b < 2 ^ 31 -> F32.gt (F32.of_Z a) (F32.of_Z b) = false.
Proof.
  intros Hab Hb. unfold F32.gt.
  destruct (Z.eq_dec b 0) as [->|Hb0].
  - assert (a = 0) as -> by lia. reflexivity.
  - destruct (of_Z_canonical b ltac:(lia)) as (mb & eb & -> & Hdb & Heb & Hvb).
    destruct (Z.eq_dec a 0) as [->|Ha0]; [reflexivity|].
    destruct (of_Z_canonical a ltac:(lia)) as (ma & ea & -> & Hda & Hea & Hva).
    apply ltb_canonical; try assumption.
    rewrite Hva, Hvb.
    apply Z.mul_le_mono_nonneg_r; [lia|]. apply nearest24_mono. lia.
Qed.

(** ** Floats: the fractional part *)





Lemma sub_self s m e :
  F32.sub (S754_finite s m e) (S754_finite s m e) = S754_zero false.
Proof.
  unfold F32.sub, SFsub. rewrite Z.min_id. unfold shl_align.
  rewrite Z.sub_diag. cbn [fst]. rewrite ?Z.sub_diag. reflexivity.
Qed.






(** ** getDelta *)

Lemma to_short_range n : is_short (to_short n).
Proof.
  unfold is_short, to_short.
  pose proof (Z.mod_pos_bound (n + 2 ^ 15) (2 ^ 16) ltac:(lia)). lia.
Qed.

Lemma to_short_short t : is_short t -> to_short t = t.
Proof.
  unfold is_short, to_short. intros Ht. rewrite Z.mod_small; lia.
Qed.

Lemma getDelta_to_short t : getDelta t = F32.of_Z (to_short t).
Proof.
  unfold getDelta. cbn zeta. pose proof (to_short_range t) as Hs.
  unfold is_short in Hs.
  destruct (Z.gtb_spec (to_short t) 32767); [lia|].
  destruct (Z.ltb_spec (to_short t) (-32768)); [lia|]. reflexivity.
Qed.

Lemma getDelta_short t : is_short t -> getDelta t = F32.of_Z t.
Proof.
  intros Ht. rewrite getDelta_to_short, (to_short_short t Ht). reflexivity.
Qed.



(** ** Scrolling inside the per-axis dead zone *)

Lemma gt_zero_accel : F32.gt F32.zero f_0_0001 = false.
Proof. reflexivity. Qed.

(** The multiplier of an axis whose magnitude is below the scroll dead
    zone has its sign bit set. *)
Lemma getMult_negative powf (fps dz t : Z) :
  is_short t -> Z.abs t < dz <= MAXSHORT -> 0 < fps < 2 ^ 24 ->
  F32.signbit (getMult powf fps (F32.mul (getDelta t) (getDelta t))
                 (F32.of_Z dz) F32.zero) = Some true.
Proof.
  intros Ht Hdz Hfps. unfold getMult. rewrite gt_zero_accel.
  rewrite (getDelta_short t Ht), (sqrt_square_short t Ht).
  destruct (of_Z_small fps ltac:(lia) ltac:(lia)) as (mf & ef & Hf & _).
  replace (fps <? 0) with false in Hf by (symmetry; apply Z.ltb_ge; lia).
  rewrite Hf.
  change true with (xorb true false). apply div_signbit_finite_r.
  unfold MAXSHORT in Hdz.
  destruct (Z.eq_dec dz MAXSHORT) as [->|Hne].
  - destruct (magnitude_minus_maxshort (Z.abs t)) as (m & e & ->);
      [unfold MAXSHORT; lia|].
    reflexivity.
  - destruct (maxshort_minus_deadzone dz) as (m & e & ->);
      [unfold MAXSHORT in *; lia|].
    change true with (xorb true false). apply div_signbit_finite_r.
    apply sub_small_signbit; lia.
Qed.

Lemma handleScrolling_events powf (g : Gopher) :
  let c := cfg g in
  let tx := getDelta (if SWAP_THUMBSTICKS c =? 0 then sThumbRX (_currentState g)
                      else sThumbLX (_currentState g)) in
  let ty := getDelta (if SWAP_THUMBSTICKS c =? 0 then sThumbRY (_currentState g)
                      else sThumbLY (_currentState g)) in
  events (handleScrolling powf) g =
  if F32.gt (scroll_magnitude tx ty) (F32.of_Z (SCROLL_DEAD_ZONE c))
  then [SendMouse MOUSEEVENTF_HWHEEL (F32.to_DWORD (scroll_amount powf c tx));
        SendMouse MOUSEEVENTF_WHEEL (F32.to_DWORD (scroll_amount powf c ty))]
  else [].
Proof.
  cbn zeta. unfold handleScrolling, events, bind, get, scroll_magnitude.
  cbn [fst snd app].
  destruct (SWAP_THUMBSTICKS (cfg g) =? 0);
    destruct (F32.gt _ _); reflexivity.
Qed.

(** C8, as the code has it.  When the combined magnitude of the scroll stick
    exceeds the scroll dead zone, [handleScrolling] sends one wheel event
    per axis, each carrying the integer part of the amount computed for the
    axis (reduced modulo [2^32]).  For a non-zero axis value below the dead
    zone (dead zone at most [MAXSHORT], a positive [FPS] below [2^24], a
    positive finite [SCROLL_SPEED]) the multiplier has its sign bit set and
    the computed amount has the sign opposite to the axis value. *)
Theorem scroll_inside_axis_deadzone powf (g : Gopher) :
  let c := cfg g in
  let tx := getDelta (if SWAP_THUMBSTICKS c =? 0 then sThumbRX (_currentState g)
                      else sThumbLX (_currentState g)) in
  let ty := getDelta (if SWAP_THUMBSTICKS c =? 0 then sThumbRY (_currentState g)
                      else sThumbLY (_currentState g)) in
  (F32.gt (scroll_magnitude tx ty) (F32.of_Z (SCROLL_DEAD_ZONE c)) = true ->
   events (handleScrolling powf) g =
     [SendMouse MOUSEEVENTF_HWHEEL (F32.to_DWORD (scroll_amount powf c tx));
      SendMouse MOUSEEVENTF_WHEEL (F32.to_DWORD (scroll_amount powf c ty))]) /\
  (forall t sm se,
     is_short t -> t <> 0 ->
     Z.abs t < SCROLL_DEAD_ZONE c <= MAXSHORT ->
     0 < FPS c < 2 ^ 24 ->
     SCROLL_SPEED c = S754_finite false sm se ->
     F32.signbit (getMult powf (FPS c) (F32.mul (getDelta t) (getDelta t))
                    (F32.of_Z (SCROLL_DEAD_ZONE c)) F32.zero) = Some true /\
     F32.signbit (scroll_amount powf c (getDelta t)) = Some (negb (t <? 0))).
Proof.
  cbn zeta. split.
  - intros Hmag. pose proof (handleScrolling_events powf g) as H.
    cbn zeta in H. rewrite Hmag in H. exact H.
  - intros t sm se Ht Ht0 Hdz Hfps Hspeed.
    pose proof (getMult_negative powf (FPS (cfg g)) (SCROLL_DEAD_ZONE (cfg g)) t
                  Ht Hdz Hfps) as Hmult.
    split; [exact Hmult|].
    unfold scroll_amount. rewrite Hspeed.
    replace (negb (t <? 0)) with (xorb (xorb (t <? 0) true) false)
      by (destruct (t <? 0); reflexivity).
    apply mul_signbit_finite_r.
    revert Hmult. generalize (getMult powf (FPS (cfg g))
      (F32.mul (getDelta t) (getDelta t)) (F32.of_Z (SCROLL_DEAD_ZONE (cfg g))) F32.zero).
    intros mult Hmult. rewrite (getDelta_short t Ht).
    unfold is_short in Ht.
    destruct (of_Z_small t Ht0 ltac:(lia)) as (m & e & -> & _).
    apply mul_signbit_finite_l. exact Hmult.
Qed.

(** C8 as stated fails: with the stick at [(10, 6000)] and the dead zone at
    5000 the horizontal axis is below the dead zone, and the amount sent
    for it is 0, not a negative one. *)
Lemma scroll_counterexample :
  let g := set_currentState (scroll_pad 10 6000) example_gopher in
  F32.gt (scroll_magnitude (getDelta 10) (getDelta 6000))
         (F32.of_Z (SCROLL_DEAD_ZONE (cfg g))) = true /\
  Z.abs 10 < SCROLL_DEAD_ZONE (cfg g) /\
  wheel_data MOUSEEVENTF_HWHEEL (events (handleScrolling pow_unused) g) = Some 0 /\
  ~ reverses_axis 10 0.
Proof.
  cbn zeta. split; [vm_compute; reflexivity|]. split; [vm_compute; reflexivity|].
  split; [vm_compute; reflexivity|]. unfold reverses_axis. vm_compute. discriminate.
Qed.

(** ** The cursor dead zone *)

Lemma wrap_int_small n : - 2 ^ 31 <= n < 2 ^ 31 -> wrap_int n = n.
Proof. intros Hn. unfold wrap_int. rewrite Z.mod_small; lia. Qed.



(** ** The motion accumulator *)


(** ** The edge tracker: what one query guarantees *)

(** After a query the two edge flags of the button exclude each other and
    agree with the snapshot: isDown is only set when the button is down,
    isUp only when it is not, and a button reported as just released is no
    longer reported as long-pressed. *)
Theorem edge_flags_consistent (STATE : Z) (g : Gopher) (p : XINPUT_GAMEPAD) :
  let g' := observe STATE g p in
  lastIteration_of g' STATE = button_down STATE p /\
  (isDown_of g' STATE = true ->
     button_down STATE p = true /\ isUp_of g' STATE = false) /\
  (isUp_of g' STATE = true ->
     button_down STATE p = false /\ isDown_of g' STATE = false /\
     isDownLong_of g' STATE = false).
Proof.
  cbn zeta. rewrite observe_last, observe_isDown, observe_isUp, observe_isDownLong.
  destruct (button_down STATE p), (lastIteration_of g STATE); cbn [andb negb];
    repeat split; try congruence; try discriminate.
Qed.

Section Untouched.

Variables (k STATE : Z) (c : ClickMaps).
Hypothesis Hk : k <> STATE.

Lemma untouched_refl : untouched k c c.
Proof. repeat split. Qed.

Lemma untouched_if (b : bool) (x y : ClickMaps) :
  untouched k c x -> untouched k c y -> untouched k c (if b then x else y).
Proof. by destruct b. Qed.

Lemma untouched_set_LastIteration v x :
  untouched k c x ->
  untouched k c (set_LastIteration (<[STATE := v]> (_xboxClickStateLastIteration x)) x).
Proof.
  intros (H1 & H2 & H3 & H4 & H5). unfold untouched.
  cbn [_xboxClickStateLastIteration _xboxClickIsDown _xboxClickIsDownLong
       _xboxClickDownLength _xboxClickIsUp set_LastIteration].
  rewrite lookup_insert_ne by congruence. auto.
Qed.

Lemma untouched_set_IsDown v x :
  untouched k c x ->
  untouched k c (set_IsDown (<[STATE := v]> (_xboxClickIsDown x)) x).
Proof.
  intros (H1 & H2 & H3 & H4 & H5). unfold untouched.
  cbn [_xboxClickStateLastIteration _xboxClickIsDown _xboxClickIsDownLong
       _xboxClickDownLength _xboxClickIsUp set_IsDown].
  rewrite lookup_insert_ne by congruence. auto.
Qed.

Lemma untouched_set_IsUp v x :
  untouched k c x ->
  untouched k c (set_IsUp (<[STATE := v]> (_xboxClickIsUp x)) x).
Proof.
  intros (H1 & H2 & H3 & H4 & H5). unfold untouched.
  cbn [_xboxClickStateLastIteration _xboxClickIsDown _xboxClickIsDownLong
       _xboxClickDownLength _xboxClickIsUp set_IsUp].
  rewrite lookup_insert_ne by congruence. auto.
Qed.

Lemma untouched_set_IsDownLong v x :
  untouched k c x ->
  untouched k c (set_IsDownLong (<[STATE := v]> (_xboxClickIsDownLong x)) x).
Proof.
  intros (H1 & H2 & H3 & H4 & H5). unfold untouched.
  cbn [_xboxClickStateLastIteration _xboxClickIsDown _xboxClickIsDownLong
       _xboxClickDownLength _xboxClickIsUp set_IsDownLong].
  rewrite lookup_insert_ne by congruence. auto.
Qed.

Lemma untouched_set_DownLength v x :
  untouched k c x ->
  untouched k c (set_DownLength (<[STATE := v]> (_xboxClickDownLength x)) x).
Proof.
  intros (H1 & H2 & H3 & H4 & H5). unfold untouched.
  cbn [_xboxClickStateLastIteration _xboxClickIsDown _xboxClickIsDownLong
       _xboxClickDownLength _xboxClickIsUp set_DownLength].
  rewrite lookup_insert_ne by congruence. auto.
Qed.

Lemma untouched_let (e : ClickMaps) (body : ClickMaps -> ClickMaps) :
  untouched k c e -> (forall x, untouched k c x -> untouched k c (body x)) ->
  untouched k c (let x := e in body x).
Proof. intros He Hb. apply Hb, He. Qed.

End Untouched.

Ltac untouched_step Hk :=
  lazymatch goal with
  | |- untouched ?k ?c (let x := ?e in @?body x) =>
      first [ apply (untouched_let k c e body); [|intros ? ?; cbv beta]
            | cbv zeta ]
  | |- untouched _ _ (if _ then _ else _) => apply untouched_if
  | |- untouched _ _ (set_LastIteration _ _) =>
      apply untouched_set_LastIteration; [exact Hk|]
  | |- untouched _ _ (set_IsDown _ _) => apply untouched_set_IsDown; [exact Hk|]
  | |- untouched _ _ (set_IsUp _ _) => apply untouched_set_IsUp; [exact Hk|]
  | |- untouched _ _ (set_IsDownLong _ _) =>
      apply untouched_set_IsDownLong; [exact Hk|]
  | |- untouched _ _ (set_DownLength _ _) =>
      apply untouched_set_DownLength; [exact Hk|]
  | |- untouched _ _ _ => first [assumption | apply untouched_refl]
  end.

Lemma setXboxClickState_maps_untouched (sa buttons STATE k : Z) (c : ClickMaps) :
  k <> STATE -> untouched k c (setXboxClickState_maps sa buttons STATE c).
Proof.
  intros Hk. unfold setXboxClickState_maps. repeat untouched_step Hk.
Qed.

(** A query of one button leaves the entries of every other button in all
    five maps as they were. *)
Theorem tracker_other_buttons (sa buttons STATE k : Z) (c : ClickMaps) :
  k <> STATE ->
  let c' := setXboxClickState_maps sa buttons STATE c in
  _xboxClickStateLastIteration c' !! k = _xboxClickStateLastIteration c !! k /\
  _xboxClickIsDown c' !! k = _xboxClickIsDown c !! k /\
  _xboxClickIsUp c' !! k = _xboxClickIsUp c !! k /\
  _xboxClickIsDownLong c' !! k = _xboxClickIsDownLong c !! k /\
  _xboxClickDownLength c' !! k = _xboxClickDownLength c !! k.
Proof.
  intros Hk. exact (setXboxClickState_maps_untouched sa buttons STATE k c Hk).
Qed.

(** A second query of the same button against the same snapshot reports no
    edge: whatever the first query reported, isDown and isUp are both clear
    after the second. *)
Theorem second_query_sees_no_edge (STATE : Z) (g : Gopher) (p : XINPUT_GAMEPAD) :
  let g2 := observe STATE (observe STATE g p) p in
  isDown_of g2 STATE = false /\ isUp_of g2 STATE = false /\
  lastIteration_of g2 STATE = button_down STATE p.
Proof.
  cbn zeta. rewrite observe_isDown, observe_isUp, !observe_last.
  destruct (button_down STATE p); auto.
Qed.

(** The long-press flag is only reported while the button is held: over any
    sequence of queries begun with the flag clear, a set flag means the
    last snapshot showed the button down. *)
Theorem long_press_only_while_down (STATE : Z) (ps : list XINPUT_GAMEPAD) (g : Gopher) :
  isDownLong_of g STATE = false ->
  let g' := observe_all STATE g ps in
  isDownLong_of g' STATE = true -> lastIteration_of g' STATE = true.
Proof.
  intros Hfresh. cbn zeta.
  assert (H : isDownLong_of (observe_all STATE g ps) STATE = true ->
              lastIteration_of (observe_all STATE g ps) STATE = true).
  { induction ps as [|p ps IH] using rev_ind.
    - cbn. congruence.
    - rewrite observe_all_snoc, observe_last, observe_isDownLong.
      destruct (button_down STATE p); [reflexivity|].
      destruct (lastIteration_of (observe_all STATE g ps) STATE); cbn [negb andb].
      + discriminate.
      + intros Hl. specialize (IH Hl). discriminate. }
  exact H.
Qed.

(** A command bound to a combination of buttons counts as down only while
    every button of the combination is down. *)
Theorem combination_needs_every_button (a b : Z) (g : Gopher) (p : XINPUT_GAMEPAD) :
  lastIteration_of (observe (Z.lor a b) g p) (Z.lor a b)
  = button_down a p && button_down b p.
Proof.
  rewrite observe_last. unfold button_down.
  set (w := wButtons p).
  destruct (Z.eqb_spec (Z.land w a) a) as [Ha|Ha];
    destruct (Z.eqb_spec (Z.land w b) b) as [Hb|Hb]; cbn [andb].
  - apply Z.eqb_eq. rewrite Z.land_lor_distr_r. congruence.
  - apply Z.eqb_neq. intros H. apply Hb. apply Z.bits_inj'. intros n Hn.
    pose proof (f_equal (fun z => Z.testbit z n) H) as Hbit. cbn beta in Hbit.
    rewrite Z.land_spec, Z.lor_spec in Hbit. rewrite Z.land_spec.
    destruct (Z.testbit w n), (Z.testbit a n), (Z.testbit b n);
      cbn in *; congruence.
  - apply Z.eqb_neq. intros H. apply Ha. apply Z.bits_inj'. intros n Hn.
    pose proof (f_equal (fun z => Z.testbit z n) H) as Hbit. cbn beta in Hbit.
    rewrite Z.land_spec, Z.lor_spec in Hbit. rewrite Z.land_spec.
    destruct (Z.testbit w n), (Z.testbit a n), (Z.testbit b n);
      cbn in *; congruence.
  - apply Z.eqb_neq. intros H. apply Ha. apply Z.bits_inj'. intros n Hn.
    pose proof (f_equal (fun z => Z.testbit z n) H) as Hbit. cbn beta in Hbit.
    rewrite Z.land_spec, Z.lor_spec in Hbit. rewrite Z.land_spec.
    destruct (Z.testbit w n), (Z.testbit a n), (Z.testbit b n);
      cbn in *; congruence.
Qed.
(** ** PressedKeySet: erasing and the press/release round trip *)

Lemma erase_first_absent key l : ~ In key l -> erase_first key l = (false, l).
Proof.
  induction l as [|k l IH]; intros Hn; cbn [erase_first]; [reflexivity|].
  destruct (Z.eqb_spec k key) as [->|Hne].
  - exfalso. apply Hn. left. reflexivity.
  - rewrite IH; [reflexivity|]. intros Hin. apply Hn. right. exact Hin.
Qed.

Lemma erase_first_split key l1 l2 :
  ~ In key l1 -> erase_first key (l1 ++ key :: l2) = (true, l1 ++ l2).
Proof.
  induction l1 as [|k l1 IH]; intros Hn; cbn [erase_first app].
  - rewrite Z.eqb_refl. reflexivity.
  - destruct (Z.eqb_spec k key) as [->|Hne].
    + exfalso. apply Hn. left. reflexivity.
    + rewrite IH; [reflexivity|]. intros Hin. apply Hn. right. exact Hin.
Qed.

Lemma first_occurrence (key : Z) (l : list Z) :
  In key l -> exists l1 l2, l = l1 ++ key :: l2 /\ ~ In key l1.
Proof.
  induction l as [|k l IH]; intros Hin; [destruct Hin|].
  destruct (Z.eq_dec k key) as [->|Hne].
  - exists [], l. split; [reflexivity|]. intros [].
  - destruct Hin as [Heq|Hin]; [congruence|].
    destruct (IH Hin) as (l1 & l2 & -> & Hn).
    exists (k :: l1), l2. split; [reflexivity|].
    intros [Heq|Hin']; [congruence|contradiction].
Qed.

(** [erasePressedKey] removes the first occurrence of the key and nothing
    else, and reports whether there was one: a key that is held comes out
    once, with the codes before and after it kept in order; a key that is
    not held leaves the object as it is and is answered with [false].  No
    event is sent either way. *)
Theorem erasePressedKey_first_occurrence (key : Z) (g : Gopher) :
  (In key (_pressedKeys g) ->
     exists l1 l2,
       _pressedKeys g = l1 ++ key :: l2 /\ ~ In key l1 /\
       erasePressedKey key g = (true, set_pressedKeys (l1 ++ l2) g, [])) /\
  (~ In key (_pressedKeys g) -> erasePressedKey key g = (false, g, [])).
Proof.
  split.
  - intros Hin. destruct (first_occurrence key (_pressedKeys g) Hin)
      as (l1 & l2 & Heq & Hn).
    exists l1, l2. split; [exact Heq|]. split; [exact Hn|].
    unfold erasePressedKey. rewrite Heq at 1.
    rewrite (erase_first_split key l1 l2 Hn). reflexivity.
  - intros Hn. unfold erasePressedKey. rewrite (erase_first_absent _ _ Hn).
    rewrite set_pressedKeys_same. reflexivity.
Qed.
Lemma exec_setXboxClickState (STATE : Z) (g : Gopher) :
  exec (setXboxClickState STATE) g = observe STATE g (_currentState g).
Proof. destruct g. reflexivity. Qed.

Lemma forEach_erase_run (keys : list Z) (g : Gopher) :
  forEach keys (fun key => _ <- erasePressedKey key ;; ret tt) g
  = (tt, exec (forEach keys (fun key => _ <- erasePressedKey key ;; ret tt)) g, []).
Proof.
  pose proof (forEach_erase_events keys g) as He. unfold events in He.
  unfold exec. destruct (forEach keys _ g) as [[[] g'] e]. cbn in *. by subst e.
Qed.

(** [mapKeyboard], case by case on the two edge flags. *)
Lemma mapKeyboard_run (STATE : Z) (keys : list Z) (g : Gopher) :
  let g1 := observe STATE g (_currentState g) in
  mapKeyboard STATE keys g =
  if isDown_of g1 STATE then
    (tt, set_pressedKeys (_pressedKeys g ++ keys) g1, [SendKeyboard keys 0])
  else if isUp_of g1 STATE then
    (tt, exec (forEach keys (fun key => _ <- erasePressedKey key ;; ret tt)) g1,
     [SendKeyboard keys KEYEVENTF_KEYUP])
  else (tt, g1, []).
Proof.
  cbn zeta.
  assert (Hex : isDown_of (observe STATE g (_currentState g)) STATE = true ->
                isUp_of (observe STATE g (_currentState g)) STATE = false).
  { rewrite observe_isDown, observe_isUp.
    destruct (button_down STATE (_currentState g)); [reflexivity|discriminate]. }
  rewrite <- exec_setXboxClickState in *.
  set (g1 := exec (setXboxClickState STATE) g) in *.
  assert (Hp : _pressedKeys g1 = _pressedKeys g) by reflexivity.
  unfold mapKeyboard, bind at 1. fold (exec (setXboxClickState STATE) g).
  change (setXboxClickState STATE g) with (tt, g1, @nil Event).
  cbn [fst snd]. unfold bind at 1, get at 1. cbn [fst snd].
  destruct (isDown_of g1 STATE) eqn:Hd.
  - unfold when at 1, bind at 1 2. unfold inputKeyboardDown, inputKeyboard, emit.
    rewrite forEach_push_back. cbn [fst snd app]. unfold bind, get.
    change (isUp_of (set_pressedKeys (_pressedKeys g1 ++ keys) g1) STATE)
      with (isUp_of g1 STATE).
    rewrite (Hex eq_refl). reflexivity.
  - unfold when at 1, bind at 1, ret at 1. cbn [fst snd app].
    unfold bind at 1, get at 1. cbn [fst snd app].
    destruct (isUp_of g1 STATE); cbn [when].
    + unfold bind at 1, inputKeyboardUp, inputKeyboard, emit.
      rewrite forEach_erase_run. reflexivity.
    + reflexivity.
Qed.

Lemma mapKeyboard_tick (STATE : Z) (keys : list Z) (p : XINPUT_GAMEPAD)
    (g : Gopher) :
  let g1 := observe STATE g p in
  mapKeyboard STATE keys (set_currentState p g) =
  if isDown_of g1 STATE then
    (tt, set_pressedKeys (_pressedKeys g ++ keys) g1, [SendKeyboard keys 0])
  else if isUp_of g1 STATE then
    (tt, exec (forEach keys (fun key => _ <- erasePressedKey key ;; ret tt)) g1,
     [SendKeyboard keys KEYEVENTF_KEYUP])
  else (tt, g1, []).
Proof. exact (mapKeyboard_run STATE keys (set_currentState p g)). Qed.

Lemma forEach_erase_appended (keys : list Z) : forall (l : list Z) (g : Gopher),
  _pressedKeys g = l ++ keys ->
  (forall k, In k keys -> ~ In k l) ->
  exec (forEach keys (fun key => _ <- erasePressedKey key ;; ret tt)) g
  = set_pressedKeys l g.
Proof.
  induction keys as [|k ks IH]; intros l g Hg Hdis; cbn [forEach].
  - rewrite app_nil_r in Hg. rewrite <- Hg, set_pressedKeys_same. reflexivity.
  - rewrite exec_bind.
    assert (He : exec (_ <- erasePressedKey k ;; ret tt) g
                 = set_pressedKeys (l ++ ks) g).
    { unfold exec, bind, erasePressedKey, ret. rewrite Hg.
      rewrite (erase_first_split k l ks) by (apply Hdis; left; reflexivity).
      reflexivity. }
    rewrite He. rewrite (IH l (set_pressedKeys (l ++ ks) g)).
    + reflexivity.
    + reflexivity.
    + intros k' Hk'. apply Hdis. right. exact Hk'.
Qed.

(** Pressing and releasing a mapped button is a round trip on
    [_pressedKeys]: the press sends one key-down call for the bound keys and
    appends them, the release sends one key-up call for the same keys, and
    afterwards every code is held as often as before the press.  When none
    of the bound keys was held before, the list is exactly what it was. *)
Theorem mapKeyboard_press_release (STATE : Z) (keys : list Z) (g : Gopher)
    (p1 p2 : XINPUT_GAMEPAD) :
  lastIteration_of g STATE = false ->
  button_down STATE p1 = true ->
  button_down STATE p2 = false ->
  let g1 := exec (mapKeyboard STATE keys) (set_currentState p1 g) in
  let g2 := exec (mapKeyboard STATE keys) (set_currentState p2 g1) in
  events (mapKeyboard STATE keys) (set_currentState p1 g) = [SendKeyboard keys 0] /\
  _pressedKeys g1 = _pressedKeys g ++ keys /\
  events (mapKeyboard STATE keys) (set_currentState p2 g1)
    = [SendKeyboard keys KEYEVENTF_KEYUP] /\
  (forall k, held_count k g2 = held_count k g) /\
  ((forall k, In k keys -> ~ In k (_pressedKeys g)) ->
   _pressedKeys g2 = _pressedKeys g).
Proof.
  intros Hup Hd1 Hd2. cbn zeta.
  pose proof (mapKeyboard_tick STATE keys p1 g) as H1. cbn zeta in H1.
  rewrite observe_isDown, Hd1, Hup in H1. cbn [andb negb] in H1.
  assert (He1 : exec (mapKeyboard STATE keys) (set_currentState p1 g)
                = set_pressedKeys (_pressedKeys g ++ keys) (observe STATE g p1))
    by (unfold exec; rewrite H1; reflexivity).
  assert (Hv1 : events (mapKeyboard STATE keys) (set_currentState p1 g)
                = [SendKeyboard keys 0])
    by (unfold events; rewrite H1; reflexivity).
  rewrite He1, Hv1. clear H1 He1 Hv1.
  generalize (observe STATE g p1), (observe_last STATE g p1).
  intros g1 Hl1. rewrite Hd1 in Hl1.
  pose proof (mapKeyboard_tick STATE keys p2
                (set_pressedKeys (_pressedKeys g ++ keys) g1)) as H2.
  cbn zeta in H2. rewrite observe_isDown, observe_isUp, Hd2 in H2.
  change (lastIteration_of (set_pressedKeys (_pressedKeys g ++ keys) g1) STATE)
    with (lastIteration_of g1 STATE) in H2.
  rewrite Hl1 in H2. cbn [andb negb] in H2.
  unfold exec at 1 2, events. rewrite H2. cbn [fst snd].
  split; [reflexivity|]. split; [reflexivity|]. split; [reflexivity|].
  assert (Hp : _pressedKeys
                 (observe STATE (set_pressedKeys (_pressedKeys g ++ keys) g1) p2)
               = _pressedKeys g ++ keys) by reflexivity.
  split.
  - intros k. rewrite forEach_erase_count. unfold held_count.
    rewrite Hp, count_occ_app. lia.
  - intros Hdis.
    rewrite (forEach_erase_appended keys (_pressedKeys g) _ Hp Hdis).
    reflexivity.
Qed.

(** A button bound both to a mouse click and to keys only clicks: the
    mouse mapping queries the button first, and the key mapping, querying it
    again on the same tick, sees no edge; it sends nothing and leaves
    [_pressedKeys] as the mouse mapping left it. *)
Theorem shared_button_only_clicks (STATE keyDown keyUp : Z) (keys : list Z)
    (g : Gopher) :
  let g1 := exec (mapMouseClick STATE keyDown keyUp) g in
  events (mapKeyboard STATE keys) g1 = [] /\
  _pressedKeys (exec (mapKeyboard STATE keys) g1) = _pressedKeys g1.
Proof.
  cbn zeta.
  assert (Hc : clicks (exec (mapMouseClick STATE keyDown keyUp) g)
               = clicks (observe STATE g (_currentState g))).
  { rewrite <- exec_setXboxClickState. unfold mapMouseClick.
    rewrite exec_bind.
    set (g1 := exec (setXboxClickState STATE) g).
    match goal with
    | |- clicks (exec ?m g1) = _ =>
        assert (Hp : preserves clicks m) by frame; apply Hp
    end. }
  assert (Hs : _currentState (exec (mapMouseClick STATE keyDown keyUp) g)
               = _currentState g).
  { assert (Hp : preserves _currentState (mapMouseClick STATE keyDown keyUp))
      by frame. apply Hp. }
  set (g1 := exec (mapMouseClick STATE keyDown keyUp) g) in *.
  pose proof (mapKeyboard_run STATE keys g1) as H. cbn zeta in H.
  assert (Hd : isDown_of (observe STATE g1 (_currentState g1)) STATE = false).
  { rewrite observe_isDown. unfold lastIteration_of. rewrite Hc, Hs.
    fold (lastIteration_of (observe STATE g (_currentState g)) STATE).
    rewrite observe_last. destruct (button_down _ _); reflexivity. }
  assert (Hu : isUp_of (observe STATE g1 (_currentState g1)) STATE = false).
  { rewrite observe_isUp. unfold lastIteration_of. rewrite Hc, Hs.
    fold (lastIteration_of (observe STATE g (_currentState g)) STATE).
    rewrite observe_last. destruct (button_down _ _); reflexivity. }
  rewrite Hd, Hu in H. unfold events, exec. rewrite H. split; reflexivity.
Qed.
(** ** One tick, case by case *)

Lemma observe_disabled STATE g p : _disabled (observe STATE g p) = _disabled g.
Proof. reflexivity. Qed.

Lemma handleDisableButton_tick (p : XINPUT_GAMEPAD) (g : Gopher) :
  let D := CONFIG_DISABLE (cfg g) in
  let g1 := observe D g p in
  handleDisableButton (set_currentState p g) =
  if isDown_of g1 D then
    if _disabled g then
      (tt, set_disabled false g1, pulse_events g 400 65000 65000)
    else
      (tt, set_pressedKeys [] (set_disabled true g1),
       mouse_releases (_pressedKeys g)
       ++ batched_key_up (keyboard_codes (_pressedKeys g))
       ++ pulse_events g 400 10000 10000)
  else (tt, g1, []).
Proof. exact (handleDisableButton_run (set_currentState p g)). Qed.

(** [loop] on the four cases of the disable toggle: the mapper is enabled
    again and dispatches, is disabled and releases, stays disabled, or stays
    enabled and dispatches. *)
Lemma loop_tick powf (inp : TickInput) (g : Gopher) :
  let D := CONFIG_DISABLE (cfg g) in
  let g1 := observe D g (pad inp) in
  let nap := Sleep (SLEEP_AMOUNT (cfg g)) in
  loop powf inp g =
  if isDown_of g1 D then
    if _disabled g then
      (tt, exec (dispatch powf inp) (set_disabled false g1),
       nap :: pulse_events g 400 65000 65000
           ++ events (dispatch powf inp) (set_disabled false g1))
    else
      (tt, set_pressedKeys [] (set_disabled true g1),
       nap :: mouse_releases (_pressedKeys g)
           ++ batched_key_up (keyboard_codes (_pressedKeys g))
           ++ pulse_events g 400 10000 10000)
  else if _disabled g then (tt, g1, [nap])
  else (tt, exec (dispatch powf inp) g1, nap :: events (dispatch powf inp) g1).
Proof.
  cbn zeta. rewrite loop_run. cbn zeta.
  assert (He : exec handleDisableButton (set_currentState (pad inp) g)
               = snd (fst (handleDisableButton (set_currentState (pad inp) g))))
    by reflexivity.
  assert (Hv : events handleDisableButton (set_currentState (pad inp) g)
               = snd (handleDisableButton (set_currentState (pad inp) g)))
    by reflexivity.
  rewrite handleDisableButton_tick in He, Hv. cbn zeta in He, Hv.
  rewrite He, Hv. clear He Hv.
  destruct (isDown_of _ _); [destruct (_disabled g) eqn:Hdis|];
    cbn [fst snd _disabled set_disabled set_pressedKeys].
  - reflexivity.
  - reflexivity.
  - rewrite observe_disabled. destruct (_disabled g); reflexivity.
Qed.
(** ** An unbound disable command *)

Lemma button_down_zero (p : XINPUT_GAMEPAD) : button_down 0 p = true.
Proof. unfold button_down. rewrite Z.land_0_r. reflexivity. Qed.

(** A tick of a disabled mapper whose disable command shows no new press:
    the tick only sleeps and records the query. *)
Lemma loop_disabled_idle powf (inp : TickInput) (g : Gopher) :
  _disabled g = true ->
  isDown_of (observe (CONFIG_DISABLE (cfg g)) g (pad inp)) (CONFIG_DISABLE (cfg g))
    = false ->
  loop powf inp g =
  (tt, observe (CONFIG_DISABLE (cfg g)) g (pad inp), [Sleep (SLEEP_AMOUNT (cfg g))]).
Proof.
  intros Hdis Hedge. rewrite loop_tick. cbn zeta. rewrite Hedge, Hdis. reflexivity.
Qed.

(** With no button bound to the disable command ([CONFIG_DISABLE] is 0, the
    value [loadConfigFile] stores for a missing entry) the command counts as
    held on every snapshot.  The first tick of an enabled mapper therefore
    disables it, and since the command is never seen released the mapper
    stays disabled whatever the controller does: every later tick only
    sleeps. *)
Theorem unbound_disable_locks powf (inp : TickInput) (inps : list TickInput)
    (g : Gopher) :
  CONFIG_DISABLE (cfg g) = 0 ->
  _disabled g = false ->
  lastIteration_of g 0 = false ->
  let g1 := exec (loop powf inp) g in
  _disabled g1 = true /\
  _disabled (fst (run_ticks powf inps g1)) = true /\
  snd (run_ticks powf inps g1) = map (fun _ => Sleep (SLEEP_AMOUNT (cfg g))) inps.
Proof.
  intros HD Hen Hup. cbn zeta.
  (* the first tick *)
  pose proof (loop_tick powf inp g) as Hloop. cbn zeta in Hloop.
  rewrite HD, observe_isDown, button_down_zero, Hup, Hen in Hloop.
  cbn [andb negb] in Hloop.
  set (g1 := set_pressedKeys [] (set_disabled true (observe 0 g (pad inp)))) in *.
  assert (He : exec (loop powf inp) g = g1) by (unfold exec; rewrite Hloop; reflexivity).
  rewrite He.
  assert (J : CONFIG_DISABLE (cfg g1) = 0 /\ _disabled g1 = true /\
              lastIteration_of g1 0 = true /\
              SLEEP_AMOUNT (cfg g1) = SLEEP_AMOUNT (cfg g)).
  { split; [exact HD|]. split; [reflexivity|]. split; [|reflexivity].
    change (lastIteration_of g1 0) with (lastIteration_of (observe 0 g (pad inp)) 0).
    rewrite observe_last. apply button_down_zero. }
  split; [reflexivity|].
  (* the later ticks *)
  clearbody g1. clear - J. revert g1 J.
  induction inps as [|i rest IH]; intros g1 (HD & Hdis & Hl & Hs); cbn [run_ticks map].
  - split; [exact Hdis|reflexivity].
  - assert (Hedge : isDown_of (observe (CONFIG_DISABLE (cfg g1)) g1 (pad i))
                      (CONFIG_DISABLE (cfg g1)) = false).
    { rewrite HD, observe_isDown, Hl. apply andb_false_r. }
    pose proof (loop_disabled_idle powf i g1 Hdis Hedge) as Hrun.
    rewrite HD in Hrun.
    unfold exec, events. rewrite Hrun. cbn [fst snd].
    specialize (IH (observe 0 g1 (pad i))).
    destruct (run_ticks powf rest (observe 0 g1 (pad i))) as [g2 log].
    cbn [fst snd] in *.
    destruct IH as [IH1 IH2].
    { split; [exact HD|]. split; [exact Hdis|]. split; [|exact Hs].
      rewrite observe_last. apply button_down_zero. }
    split; [exact IH1|]. rewrite IH2, Hs. reflexivity.
Qed.

(** ** A disabled mapper holds nothing *)

Lemma loop_disabled_holds_nothing powf (inp : TickInput) (g : Gopher) :
  (_disabled g = true -> _pressedKeys g = []) ->
  _disabled (exec (loop powf inp) g) = true ->
  _pressedKeys (exec (loop powf inp) g) = [].
Proof.
  intros Hinv. unfold exec. rewrite loop_tick. cbn zeta.
  destruct (isDown_of _ _); [destruct (_disabled g) eqn:Hdis|
                             destruct (_disabled g) eqn:Hdis]; cbn [fst snd].
  - fold (exec (dispatch powf inp)
            (set_disabled false (observe (CONFIG_DISABLE (cfg g)) g (pad inp)))).
    rewrite (dispatch_disabled powf inp). discriminate.
  - reflexivity.
  - intros _. apply Hinv. reflexivity.
  - fold (exec (dispatch powf inp) (observe (CONFIG_DISABLE (cfg g)) g (pad inp))).
    rewrite (dispatch_disabled powf inp).
    rewrite observe_disabled. congruence.
Qed.

(** Whenever the mapper is disabled, [_pressedKeys] is empty: the property
    holds of the object before the first tick and every tick of [loop]
    keeps it, so it holds after any number of ticks. *)
Theorem disabled_holds_nothing powf (inps : list TickInput) (g : Gopher) :
  (_disabled g = true -> _pressedKeys g = []) ->
  let g' := fst (run_ticks powf inps g) in
  _disabled g' = true -> _pressedKeys g' = [].
Proof.
  cbn zeta. revert g. induction inps as [|inp rest IH]; intros g Hinv;
    cbn [run_ticks].
  - exact Hinv.
  - specialize (IH (exec (loop powf inp) g)
                  (loop_disabled_holds_nothing powf inp g Hinv)).
    destruct (run_ticks powf rest (exec (loop powf inp) g)) as [g2 log].
    exact IH.
Qed.
(** ** The motors are stopped after every tick *)

Lemma motors_after_app (l1 l2 : list Event) (s : Z * Z) :
  motors_after (l1 ++ l2) s = motors_after l2 (motors_after l1 s).
Proof. apply fold_left_app. Qed.

Lemma rests_bind {A B} (m : Run A) (k : A -> Run B) :
  rests m -> (forall a, rests (k a)) -> rests (bind m k).
Proof.
  intros Hm Hk g. rewrite events_bind, motors_after_app, Hm. apply Hk.
Qed.

Lemma rests_ret {A} (a : A) : rests (ret a).
Proof. intros g. reflexivity. Qed.

Lemma rests_get : rests get.
Proof. intros g. reflexivity. Qed.

Lemma rests_modify h : rests (modify h).
Proof. intros g. reflexivity. Qed.

Lemma rests_when b m : rests m -> rests (when b m).
Proof. destruct b; [trivial|]. intros _. apply rests_ret. Qed.

Lemma rests_forEach {A} (l : list A) body :
  (forall a, rests (body a)) -> rests (forEach l body).
Proof.
  intros Hb. induction l as [|a l IH]; cbn [forEach].
  - apply rests_ret.
  - apply rests_bind; [apply Hb|intros _; exact IH].
Qed.

Lemma rests_erasePressedKey key : rests (erasePressedKey key).
Proof.
  intros g. unfold events, erasePressedKey.
  destruct (erase_first key (_pressedKeys g)). reflexivity.
Qed.

Lemma rests_pulseVibrate d l r : rests (pulseVibrate d l r).
Proof.
  intros g. unfold events, pulseVibrate, bind, get, when, emit, ret. cbn.
  destruct (_vibrationDisabled g); reflexivity.
Qed.

Lemma rests_releasePressed pressed : forall kb, rests (releasePressed pressed kb).
Proof.
  induction pressed as [|k rest IH]; intros kb; cbn [releasePressed].
  - apply rests_ret.
  - apply rests_bind.
    + repeat match goal with
             | |- rests (if ?b then _ else _) => destruct b
             | |- rests (bind _ _) => apply rests_bind; [|intros ?]
             | |- rests (ret _) => apply rests_ret
             | |- rests (mouseEvent _ _) => intros ?; reflexivity
             end.
    + intros kb'. apply rests_bind; [apply rests_modify|intros _; apply IH].
Qed.

Ltac rest_step :=
  match goal with
  | |- rests (pulseVibrate _ _ _) => apply rests_pulseVibrate
  | |- rests (bind _ _) => apply rests_bind; [|intros ?]
  | |- rests (ret _) => apply rests_ret
  | |- rests get => apply rests_get
  | |- rests (modify _) => apply rests_modify
  | |- rests (when _ _) => apply rests_when
  | |- rests (forEach _ _) => apply rests_forEach; intros ?
  | |- rests (erasePressedKey _) => apply rests_erasePressedKey
  | |- rests (releasePressed _ _) => apply rests_releasePressed
  | |- rests (emit _) => intros ?; reflexivity
  | |- rests (if ?b then _ else _) => destruct b
  | |- rests (match ?x with _ => _ end) => destruct x
  | |- rests _ =>
      progress unfold inputKeyboardDown, inputKeyboardUp, inputKeyboard,
        mouseEvent, setXboxClickState, push_back, mapKeyboard,
        mapMouseClick, handleTriggers, handleDisableButton,
        handleVibrationButton, setWindowVisibility, toggleWindowVisibility,
        handleMouseMovement, handleScrolling, changeSpeed, toggleOsk
  | |- rests _ => progress cbv zeta
  end.

Ltac rest := repeat rest_step.

Lemma rests_loop powf (inp : TickInput) : rests (loop powf inp).
Proof. unfold loop, dispatch. rest. Qed.

(** The controller is never left vibrating: every vibration [loop] starts
    is stopped within the same tick, so over any number of ticks that begin
    with the motors stopped the last command the motors received, if any,
    is the one that stops them. *)
Theorem motors_stopped_after_ticks powf (inps : list TickInput) (g : Gopher) :
  motors_after (snd (run_ticks powf inps g)) (0, 0) = (0, 0).
Proof.
  revert g. induction inps as [|inp rest IH]; intros g; cbn [run_ticks].
  - reflexivity.
  - specialize (IH (exec (loop powf inp) g)).
    destruct (run_ticks powf rest (exec (loop powf inp) g)) as [g2 log].
    cbn [snd] in *. rewrite motors_after_app, (rests_loop powf inp g). exact IH.
Qed.

(** ** Holding a trigger *)

Lemma handleTriggers_run (lKey rKey : list Z) (g : Gopher) :
  let l := left_pulled (TRIGGER_DEAD_ZONE (cfg g)) (_currentState g) in
  let r := right_pulled (TRIGGER_DEAD_ZONE (cfg g)) (_currentState g) in
  handleTriggers lKey rKey g =
  (tt, set_rTriggerPrevious r (set_lTriggerPrevious l g),
   (if eqb l (_lTriggerPrevious g) then []
    else [SendKeyboard lKey (if l then 0 else KEYEVENTF_KEYUP)])
   ++ (if eqb r (_rTriggerPrevious g) then []
       else [SendKeyboard rKey (if r then 0 else KEYEVENTF_KEYUP)])).
Proof.
  cbn zeta. unfold handleTriggers, left_pulled, right_pulled.
  unfold bind, get, when, modify, ret, inputKeyboardDown, inputKeyboardUp,
    inputKeyboard, emit.
  destruct g as [c s d v h lp rp xr yr si sp cl pk].
  cbn [cfg _currentState _lTriggerPrevious _rTriggerPrevious
       set_lTriggerPrevious set_rTriggerPrevious fst snd].
  destruct (bLeftTrigger s >? TRIGGER_DEAD_ZONE c), lp;
    destruct (bRightTrigger s >? TRIGGER_DEAD_ZONE c), rp; reflexivity.
Qed.

(** A trigger held over several ticks sends its keys once: while the left
    trigger reads above [TRIGGER_DEAD_ZONE] on every snapshot (and the right
    one does not), the whole run sends a single key-down call for the left
    binding; the first snapshot that reads at or below the dead zone sends
    the one matching key-up call. *)
Theorem trigger_held_sends_once (lKey rKey : list Z) (g : Gopher)
    (ps : list XINPUT_GAMEPAD) (p_up : XINPUT_GAMEPAD) :
  _lTriggerPrevious g = false ->
  _rTriggerPrevious g = false ->
  ps <> [] ->
  Forall (fun p => bLeftTrigger p > TRIGGER_DEAD_ZONE (cfg g) /\
                   bRightTrigger p <= TRIGGER_DEAD_ZONE (cfg g)) ps ->
  bLeftTrigger p_up <= TRIGGER_DEAD_ZONE (cfg g) ->
  bRightTrigger p_up <= TRIGGER_DEAD_ZONE (cfg g) ->
  let held := run_on (handleTriggers lKey rKey) ps g in
  let released := run_on (handleTriggers lKey rKey) [p_up] (fst held) in
  snd held = [SendKeyboard lKey 0] /\
  _lTriggerPrevious (fst held) = true /\
  snd released = [SendKeyboard lKey KEYEVENTF_KEYUP] /\
  _lTriggerPrevious (fst released) = false /\
  _pressedKeys (fst released) = _pressedKeys g.
Proof.
  intros Hl Hr Hne Hall Hlu Hru.
  assert (Hstay : forall ps g',
    cfg g' = cfg g -> _lTriggerPrevious g' = true -> _rTriggerPrevious g' = false ->
    Forall (fun p => bLeftTrigger p > TRIGGER_DEAD_ZONE (cfg g) /\
                     bRightTrigger p <= TRIGGER_DEAD_ZONE (cfg g)) ps ->
    let r := run_on (handleTriggers lKey rKey) ps g' in
    snd r = [] /\ cfg (fst r) = cfg g /\ _lTriggerPrevious (fst r) = true /\
    _rTriggerPrevious (fst r) = false /\ _pressedKeys (fst r) = _pressedKeys g').
  { clear. induction ps as [|p ps IH]; intros g' Hc Hl Hr Hall; cbn zeta.
    - cbn. auto.
    - apply Forall_cons_iff in Hall as [[Hp1 Hp2] Hall]. cbn [run_on].
      unfold exec, events. rewrite handleTriggers_run. cbn zeta.
      unfold left_pulled, right_pulled.
      change (cfg (set_currentState p g')) with (cfg g').
      change (_currentState (set_currentState p g')) with p.
      change (_lTriggerPrevious (set_currentState p g')) with (_lTriggerPrevious g').
      change (_rTriggerPrevious (set_currentState p g')) with (_rTriggerPrevious g').
      rewrite Hc, Hl, Hr.
      replace (bLeftTrigger p >? TRIGGER_DEAD_ZONE (cfg g)) with true
        by (symmetry; rewrite Z.gtb_ltb; apply Z.ltb_lt; lia).
      replace (bRightTrigger p >? TRIGGER_DEAD_ZONE (cfg g)) with false
        by (symmetry; rewrite Z.gtb_ltb; apply Z.ltb_ge; lia).
      cbn [fst snd eqb app].
      specialize (IH (set_rTriggerPrevious false
                        (set_lTriggerPrevious true (set_currentState p g')))
                    Hc eq_refl eq_refl Hall).
      cbn zeta in IH.
      destruct (run_on _ ps _) as [g2 log]. cbn [fst snd] in *.
      destruct IH as (-> & H2 & H3 & H4 & H5). auto. }
  assert (Hheld :
    let r := run_on (handleTriggers lKey rKey) ps g in
    snd r = [SendKeyboard lKey 0] /\ cfg (fst r) = cfg g /\
    _lTriggerPrevious (fst r) = true /\ _rTriggerPrevious (fst r) = false /\
    _pressedKeys (fst r) = _pressedKeys g).
  { destruct ps as [|p ps]; [congruence|].
    apply Forall_cons_iff in Hall as [[Hp1 Hp2] Hall]. cbn zeta. cbn [run_on].
    unfold exec, events. rewrite handleTriggers_run. cbn zeta.
    unfold left_pulled, right_pulled.
    change (cfg (set_currentState p g)) with (cfg g).
    change (_currentState (set_currentState p g)) with p.
    change (_lTriggerPrevious (set_currentState p g)) with (_lTriggerPrevious g).
    change (_rTriggerPrevious (set_currentState p g)) with (_rTriggerPrevious g).
    rewrite Hl, Hr.
    replace (bLeftTrigger p >? TRIGGER_DEAD_ZONE (cfg g)) with true
      by (symmetry; rewrite Z.gtb_ltb; apply Z.ltb_lt; lia).
    replace (bRightTrigger p >? TRIGGER_DEAD_ZONE (cfg g)) with false
      by (symmetry; rewrite Z.gtb_ltb; apply Z.ltb_ge; lia).
    cbn [fst snd eqb app].
    specialize (Hstay ps (set_rTriggerPrevious false
                            (set_lTriggerPrevious true (set_currentState p g)))
                  eq_refl eq_refl eq_refl Hall).
    cbn zeta in Hstay.
    destruct (run_on _ ps _) as [g2 log]. cbn [fst snd] in *.
    destruct Hstay as (-> & Hc2 & Hl2 & Hr2 & Hp). auto. }
  cbn zeta in Hheld |- *.
  destruct (run_on (handleTriggers lKey rKey) ps g) as [g2 log].
  cbn [fst snd] in *. destruct Hheld as (-> & Hc2 & Hl2 & Hr2 & Hp).
  split; [reflexivity|]. split; [exact Hl2|].
  cbn [run_on]. unfold exec, events. rewrite handleTriggers_run. cbn zeta.
  unfold left_pulled, right_pulled.
  change (cfg (set_currentState p_up g2)) with (cfg g2).
  change (_currentState (set_currentState p_up g2)) with p_up.
  change (_lTriggerPrevious (set_currentState p_up g2)) with (_lTriggerPrevious g2).
  change (_rTriggerPrevious (set_currentState p_up g2)) with (_rTriggerPrevious g2).
  rewrite Hc2, Hl2, Hr2.
  replace (bLeftTrigger p_up >? TRIGGER_DEAD_ZONE (cfg g)) with false
    by (symmetry; rewrite Z.gtb_ltb; apply Z.ltb_ge; lia).
  replace (bRightTrigger p_up >? TRIGGER_DEAD_ZONE (cfg g)) with false
    by (symmetry; rewrite Z.gtb_ltb; apply Z.ltb_ge; lia).
  cbn [fst snd eqb app]. split; [reflexivity|]. split; [reflexivity|].
  exact Hp.
Qed.

(** ** Floats: small integers, zero and order *)

Lemma trunc_of_Z_small (n : Z) : Z.abs n < 2 ^ 24 -> F32.trunc (F32.of_Z n) = n.
Proof.
  intros Hn. destruct (Z.eq_dec n 0) as [->|Hn0]; [reflexivity|].
  destruct (of_Z_small n Hn0 Hn) as (m & e & -> & He & Hv & _).
  assert (Ha : (match e with
                | 0 => Zpos m
                | Zpos _ => Z.shiftl (Zpos m) e
                | Zneg _ => Z.shiftr (Zpos m) (- e)
                end) = Z.abs n).
  { destruct e as [|p|p]; [change (2 ^ (- 0)) with 1 in Hv; lia|lia|].
    rewrite Z.shiftr_div_pow2 by lia. rewrite Hv.
    apply Z.div_mul. apply Z.pow_nonzero; lia. }
  unfold F32.trunc. rewrite Ha.
  destruct (Z.ltb_spec n 0); lia.
Qed.

Lemma of_Z_finite_small (n : Z) :
  Z.abs n < 2 ^ 24 -> F32.is_finite (F32.of_Z n) = true.
Proof.
  intros Hn. destruct (Z.eq_dec n 0) as [->|Hn0]; [reflexivity|].
  destruct (of_Z_small n Hn0 Hn) as (m & e & -> & _). reflexivity.
Qed.

Lemma add_zero_r (x : float) : x <> S754_zero true -> F32.add x F32.zero = x.
Proof. destruct x as [[]|[]| |s m e]; intros H; try reflexivity; congruence. Qed.

Lemma add_zero_l (x : float) : x <> S754_zero true -> F32.add F32.zero x = x.
Proof. destruct x as [[]|[]| |s m e]; intros H; try reflexivity; congruence. Qed.

Lemma sub_zero_r (x : float) : x <> S754_zero true -> F32.sub x F32.zero = x.
Proof. destruct x as [[]|[]| |s m e]; intros H; try reflexivity; congruence. Qed.

Lemma of_Z_small_positive_zero (n : Z) :
  Z.abs n < 2 ^ 24 -> F32.of_Z n <> S754_zero true.
Proof.
  intros Hn. destruct (Z.eq_dec n 0) as [->|Hn0]; [discriminate|].
  destruct (of_Z_small n Hn0 Hn) as (m & e & -> & _). discriminate.
Qed.

(** Floats with 24-digit mantissas compare as their values do, strictly. *)
Lemma ltb_canonical_strict m1 e1 m2 e2 :
  digits2_pos m1 = 24%positive -> digits2_pos m2 = 24%positive ->
  -23 <= e1 -> -23 <= e2 ->
  Zpos m1 * 2 ^ (e1 + 23) < Zpos m2 * 2 ^ (e2 + 23) ->
  SFltb (S754_finite false m1 e1) (S754_finite false m2 e2) = true.
Proof.
  intros Hd1 Hd2 He1 He2 Hlt.
  pose proof (digits2_pos_bounds m1) as Hb1.
  pose proof (digits2_pos_bounds m2) as Hb2.
  rewrite Hd1 in Hb1. rewrite Hd2 in Hb2.
  change (2 ^ (24 - 1)) with (2 ^ 23) in *.
  unfold SFltb, SFcompare.
  destruct (Z.compare_spec e1 e2) as [Heq|Hl|Hg]; [|reflexivity|].
  - subst e2.
    assert (Hp : 0 < 2 ^ (e1 + 23)) by (apply Z.pow_pos_nonneg; lia).
    assert (Hm : Zpos m1 < Zpos m2) by nia.
    fold (Pos.compare m1 m2).
    destruct (Pos.compare_spec m1 m2); try reflexivity; lia.
  - exfalso.
    assert (Hp : 0 < 2 ^ (e2 + 23)) by (apply Z.pow_pos_nonneg; lia).
    assert (Hpow : 2 ^ (e2 + 23 + 1) <= 2 ^ (e1 + 23))
      by (apply Z.pow_le_mono_r; lia).
    rewrite Z.pow_add_r in Hpow by lia. change (2 ^ 1) with 2 in Hpow.
    change (2 ^ 24) with (2 ^ 23 * 2) in *. nia.
Qed.

(** The conversion keeps [a < b] on integers that need no rounding. *)
Lemma of_Z_lt_small (a b : Z) :
  0 <= a < b -> b < 2 ^ 24 -> F32.gt (F32.of_Z b) (F32.of_Z a) = true.
Proof.
  intros Hab Hb. unfold F32.gt.
  destruct (of_Z_small b ltac:(lia) ltac:(lia)) as (mb & eb & Hfb & Heb & Hvb & Hdb).
  replace (b <? 0) with false in Hfb by (symmetry; apply Z.ltb_ge; lia).
  rewrite Hfb.
  destruct (Z.eq_dec a 0) as [->|Ha0]; [reflexivity|].
  destruct (of_Z_small a Ha0 ltac:(lia)) as (ma & ea & Hfa & Hea & Hva & Hda).
  replace (a <? 0) with false in Hfa by (symmetry; apply Z.ltb_ge; lia).
  rewrite Hfa. apply ltb_canonical_strict; try assumption; try lia.
  rewrite Hva, Hvb, !Z.abs_eq, <- !Z.mul_assoc, <- !Z.pow_add_r by lia.
  replace (- ea + (ea + 23)) with 23 by lia.
  replace (- eb + (eb + 23)) with 23 by lia. lia.
Qed.

(** A negative integer converts to a float below every non-negative one. *)
Lemma of_Z_negative_below (a b : Z) :
  - 2 ^ 24 < a < 0 -> 0 <= b < 2 ^ 24 -> F32.gt (F32.of_Z b) (F32.of_Z a) = true.
Proof.
  intros Ha Hb. unfold F32.gt.
  destruct (of_Z_small a ltac:(lia) ltac:(lia)) as (ma & ea & Hfa & _).
  replace (a <? 0) with true in Hfa by (symmetry; apply Z.ltb_lt; lia).
  rewrite Hfa.
  destruct (Z.eq_dec b 0) as [->|Hb0]; [reflexivity|].
  destruct (of_Z_small b Hb0 ltac:(lia)) as (mb & eb & Hfb & _).
  replace (b <? 0) with false in Hfb by (symmetry; apply Z.ltb_ge; lia).
  rewrite Hfb. reflexivity.
Qed.

(** ** The cursor at rest *)

Lemma set_rest_same (g : Gopher) : set_rest (_xRest g) (_yRest g) g = g.
Proof. by destruct g. Qed.

(** A coordinate with nothing to add: the float of the cursor coordinate
    is its own target, its integer part is the coordinate and its
    remainder is zero. *)
Lemma coordinate_at_rest (n : Z) :
  Z.abs n < 2 ^ 24 ->
  let x := F32.add (F32.add (F32.of_Z n) F32.zero) F32.zero in
  let y := F32.sub (F32.add (F32.of_Z n) F32.zero) F32.zero in
  x = F32.of_Z n /\ y = F32.of_Z n /\
  F32.to_int (F32.of_Z n) = n /\
  F32.sub (F32.of_Z n) (F32.of_Z n) = F32.zero.
Proof.
  intros Hn. cbn zeta.
  pose proof (of_Z_small_positive_zero n Hn) as Hz.
  rewrite !add_zero_r, sub_zero_r by (rewrite ?add_zero_r by exact Hz; exact Hz).
  split; [reflexivity|]. split; [reflexivity|]. split.
  - unfold F32.to_int. rewrite of_Z_finite_small, trunc_of_Z_small by exact Hn.
    cbn [andb].
    destruct (Z.leb_spec (- 2 ^ 31) n); [|lia].
    destruct (Z.ltb_spec n (2 ^ 31)); [reflexivity|lia].
  - destruct (Z.eq_dec n 0) as [->|Hn0]; [reflexivity|].
    destruct (of_Z_small n Hn0 Hn) as (m & e & -> & _). apply sub_self.
Qed.

(** With the stick inside the dead zone and nothing carried over, a tick
    of [handleMouseMovement] puts the cursor back where it read it and
    carries nothing over: an idle stick never moves the cursor.  (Cursor
    coordinates below [2^24] in magnitude, the dead zone within the range
    in which its square fits an [int].) *)
Theorem idle_stick_keeps_cursor powf (g : Gopher) (inp : TickInput) :
  let c := cfg g in
  let tx := if SWAP_THUMBSTICKS c =? 0 then sThumbLX (_currentState g)
            else sThumbRX (_currentState g) in
  let ty := if SWAP_THUMBSTICKS c =? 0 then sThumbLY (_currentState g)
            else sThumbRY (_currentState g) in
  Z.abs (DEAD_ZONE c) <= 46340 ->
  tx * tx + ty * ty <= DEAD_ZONE c * DEAD_ZONE c ->
  _xRest g = F32.zero -> _yRest g = F32.zero ->
  Z.abs (cursor_x inp) < 2 ^ 24 -> Z.abs (cursor_y inp) < 2 ^ 24 ->
  events (handleMouseMovement powf inp) g
    = [SetCursorPos (cursor_x inp) (cursor_y inp)] /\
  exec (handleMouseMovement powf inp) g = g.
Proof.
  intros c tx ty Hdz Hle Hxr Hyr Hcx Hcy.
  assert (Hm : movement powf g inp
               = {| mv_dx := F32.zero; mv_dy := F32.zero;
                    mv_x := F32.of_Z (cursor_x inp);
                    mv_y := F32.of_Z (cursor_y inp) |}).
  { unfold movement. fold c. fold tx ty.
    assert (Hsq : 0 <= DEAD_ZONE c * DEAD_ZONE c < 2 ^ 31) by nia.
    assert (Hnn : 0 <= tx * tx + ty * ty) by nia.
    rewrite !wrap_int_small by lia. rewrite of_Z_le by lia.
    rewrite Hxr, Hyr.
    destruct (coordinate_at_rest (cursor_x inp) Hcx) as (Hx & _).
    destruct (coordinate_at_rest (cursor_y inp) Hcy) as (_ & Hy & _).
    cbn zeta in Hx, Hy. rewrite Hx, Hy. reflexivity. }
  destruct (coordinate_at_rest (cursor_x inp) Hcx) as (_ & _ & Hix & Hsx).
  destruct (coordinate_at_rest (cursor_y inp) Hcy) as (_ & _ & Hiy & Hsy).
  unfold events, exec, handleMouseMovement, bind, get, modify, emit.
  cbn [fst snd app]. rewrite Hm. cbn [mv_x mv_y].
  rewrite Hix, Hiy, Hsx, Hsy. split; [reflexivity|].
  rewrite <- Hxr at 1. rewrite <- Hyr at 1. apply set_rest_same.
Qed.
(** ** Scrolling along one axis *)

Lemma mul_self_positive_zero (t : Z) :
  is_short t -> F32.mul (F32.of_Z t) (F32.of_Z t) <> S754_zero true.
Proof.
  intros Ht. unfold is_short in Ht.
  destruct (Z.eq_dec t 0) as [->|Ht0]; [discriminate|].
  destruct (of_Z_small t Ht0 ltac:(lia)) as (m & e & Hf & _). rewrite Hf.
  intros H.
  pose proof (mul_signbit_finite_l (t <? 0) m e (S754_finite (t <? 0) m e) (t <? 0)
                eq_refl) as Hs.
  rewrite H in Hs. cbn in Hs. destruct (t <? 0); discriminate.
Qed.

(** With one axis at rest the combined magnitude is the magnitude of the
    other axis. *)
Lemma scroll_magnitude_axis (t : Z) :
  is_short t ->
  scroll_magnitude (getDelta t) (getDelta 0) = F32.of_Z (Z.abs t) /\
  scroll_magnitude (getDelta 0) (getDelta t) = F32.of_Z (Z.abs t).
Proof.
  intros Ht. unfold scroll_magnitude. rewrite (getDelta_short t Ht).
  change (getDelta 0) with F32.zero.
  change (F32.mul F32.zero F32.zero) with F32.zero.
  rewrite add_zero_r, add_zero_l by (apply mul_self_positive_zero; exact Ht).
  split; apply sqrt_square_short; exact Ht.
Qed.

(** With the scroll stick moved along one axis only, [handleScrolling]
    sends nothing while the deflection is at or below [SCROLL_DEAD_ZONE],
    and sends its two wheel events, horizontal first, as soon as the
    deflection is above it. *)
Theorem scroll_single_axis_threshold powf (g : Gopher) :
  let c := cfg g in
  let tx := if SWAP_THUMBSTICKS c =? 0 then sThumbRX (_currentState g)
            else sThumbLX (_currentState g) in
  let ty := if SWAP_THUMBSTICKS c =? 0 then sThumbRY (_currentState g)
            else sThumbLY (_currentState g) in
  is_short tx -> is_short ty -> tx = 0 \/ ty = 0 ->
  0 <= SCROLL_DEAD_ZONE c < 2 ^ 24 ->
  (Z.abs tx + Z.abs ty <= SCROLL_DEAD_ZONE c ->
   events (handleScrolling powf) g = []) /\
  (SCROLL_DEAD_ZONE c < Z.abs tx + Z.abs ty ->
   events (handleScrolling powf) g =
     [SendMouse MOUSEEVENTF_HWHEEL (F32.to_DWORD (scroll_amount powf c (getDelta tx)));
      SendMouse MOUSEEVENTF_WHEEL (F32.to_DWORD (scroll_amount powf c (getDelta ty)))]).
Proof.
  intros c tx ty Htx Hty Hax Hdz.
  pose proof (handleScrolling_events powf g) as He. cbn zeta in He.
  fold c in He.
  assert (Hmag : scroll_magnitude (getDelta tx) (getDelta ty)
                 = F32.of_Z (Z.abs tx + Z.abs ty)).
  { destruct Hax as [H0|H0]; rewrite H0.
    - destruct (scroll_magnitude_axis ty Hty) as [_ H]. rewrite H.
      f_equal; lia.
    - destruct (scroll_magnitude_axis tx Htx) as [H _]. rewrite H.
      f_equal; lia. }
  assert (Hd : 0 <= Z.abs tx + Z.abs ty < 2 ^ 24)
    by (unfold is_short in Htx, Hty; lia).
  split; intros Hcmp.
  - rewrite He.
    replace (getDelta (if SWAP_THUMBSTICKS c =? 0 then sThumbRX (_currentState g)
                       else sThumbLX (_currentState g))) with (getDelta tx)
      by reflexivity.
    replace (getDelta (if SWAP_THUMBSTICKS c =? 0 then sThumbRY (_currentState g)
                       else sThumbLY (_currentState g))) with (getDelta ty)
      by reflexivity.
    rewrite Hmag, of_Z_le by lia. reflexivity.
  - rewrite He.
    replace (getDelta (if SWAP_THUMBSTICKS c =? 0 then sThumbRX (_currentState g)
                       else sThumbLX (_currentState g))) with (getDelta tx)
      by reflexivity.
    replace (getDelta (if SWAP_THUMBSTICKS c =? 0 then sThumbRY (_currentState g)
                       else sThumbLY (_currentState g))) with (getDelta ty)
      by reflexivity.
    rewrite Hmag, of_Z_lt_small by lia. reflexivity.
Qed.

(** ** Scrolling beyond the per-axis dead zone *)

Lemma sub_small_signbit_pos (a b : Z) :
  0 <= b < a -> a < 2 ^ 24 ->
  F32.signbit (F32.sub (F32.of_Z a) (F32.of_Z b)) = Some false.
Proof.
  intros Hab Ha.
  destruct (of_Z_small a ltac:(lia) ltac:(lia)) as (ma & ea & Hfa & Hea & Hva & _).
  rewrite Hfa. replace (a <? 0) with false by (symmetry; apply Z.ltb_ge; lia).
  destruct (Z.eq_dec b 0) as [->|Hb0]; [reflexivity|].
  destruct (of_Z_small b Hb0 ltac:(lia)) as (mb & eb & Hfb & Heb & Hvb & _).
  rewrite Hfb. replace (b <? 0) with false by (symmetry; apply Z.ltb_ge; lia).
  unfold F32.sub, SFsub. cbn [cond_Zopp].
  set (ez := Z.min ea eb).
  pose proof (shl_align_fst ma ea ez ltac:(lia)) as Ha'.
  pose proof (shl_align_fst mb eb ez ltac:(lia)) as Hb'.
  rewrite Z.abs_eq in Hva, Hvb by lia.
  assert (Ha2 : Zpos (fst (shl_align ma ea ez)) = a * 2 ^ (- ez)).
  { rewrite Ha', Hva, <- Z.mul_assoc, <- Z.pow_add_r by lia. f_equal. f_equal. lia. }
  assert (Hb2 : Zpos (fst (shl_align mb eb ez)) = b * 2 ^ (- ez)).
  { rewrite Hb', Hvb, <- Z.mul_assoc, <- Z.pow_add_r by lia. f_equal. f_equal. lia. }
  assert (Hpow : 0 < 2 ^ (- ez)) by (apply Z.pow_pos_nonneg; lia).
  destruct (Zpos (fst (shl_align ma ea ez)) - Zpos (fst (shl_align mb eb ez)))
    as [|d|d] eqn:Hd; try nia.
  unfold binary_normalize. apply binary_round_signbit.
Qed.

(** The multiplier of an axis deflected beyond the scroll dead zone has its
    sign bit clear. *)
Lemma getMult_positive powf (fps dz t : Z) :
  is_short t -> 0 <= dz < Z.abs t -> dz < MAXSHORT -> 0 < fps < 2 ^ 24 ->
  F32.signbit (getMult powf fps (F32.mul (getDelta t) (getDelta t))
                 (F32.of_Z dz) F32.zero) = Some false.
Proof.
  intros Ht Hdz Hmax Hfps. unfold getMult. rewrite gt_zero_accel.
  rewrite (getDelta_short t Ht), (sqrt_square_short t Ht).
  destruct (of_Z_small fps ltac:(lia) ltac:(lia)) as (mf & ef & Hf & _).
  replace (fps <? 0) with false in Hf by (symmetry; apply Z.ltb_ge; lia).
  rewrite Hf.
  change false with (xorb false false) at 2. apply div_signbit_finite_r.
  assert (Hden : exists m e, F32.sub (F32.of_Z MAXSHORT) (F32.of_Z dz)
                             = S754_finite false m e).
  { destruct (Z.eq_dec dz 0) as [->|Hne].
    - eexists _, _. reflexivity.
    - apply maxshort_minus_deadzone. lia. }
  destruct Hden as (m & e & ->).
  change false with (xorb false false) at 2. apply div_signbit_finite_r.
  apply sub_small_signbit_pos; unfold is_short in Ht; lia.
Qed.

(** Beyond the dead zone the scroll follows the stick: for a non-zero axis
    value whose magnitude is above [SCROLL_DEAD_ZONE] (a dead zone from 0
    to below [MAXSHORT], a positive [FPS] below [2^24], a positive finite
    [SCROLL_SPEED]) the multiplier is not negative and the amount computed
    for the axis has the sign of the axis value. *)
Theorem scroll_beyond_axis_deadzone powf (c : Config) (t : Z) (sm : positive)
    (se : Z) :
  is_short t -> t <> 0 ->
  0 <= SCROLL_DEAD_ZONE c < Z.abs t -> SCROLL_DEAD_ZONE c < MAXSHORT ->
  0 < FPS c < 2 ^ 24 ->
  SCROLL_SPEED c = S754_finite false sm se ->
  F32.signbit (getMult powf (FPS c) (F32.mul (getDelta t) (getDelta t))
                 (F32.of_Z (SCROLL_DEAD_ZONE c)) F32.zero) = Some false /\
  F32.signbit (scroll_amount powf c (getDelta t)) = Some (t <? 0).
Proof.
  intros Ht Ht0 Hdz Hmax Hfps Hspeed.
  pose proof (getMult_positive powf (FPS c) (SCROLL_DEAD_ZONE c) t
                Ht Hdz Hmax Hfps) as Hmult.
  split; [exact Hmult|].
  unfold scroll_amount. rewrite Hspeed.
  replace (t <? 0) with (xorb (xorb (t <? 0) false) false)
    by (destruct (t <? 0); reflexivity).
  apply mul_signbit_finite_r.
  revert Hmult. generalize (getMult powf (FPS c)
    (F32.mul (getDelta t) (getDelta t)) (F32.of_Z (SCROLL_DEAD_ZONE c)) F32.zero).
  intros mult Hmult. rewrite (getDelta_short t Ht).
  unfold is_short in Ht.
  destruct (of_Z_small t Ht0 ltac:(lia)) as (m & e & -> & _).
  apply mul_signbit_finite_l. exact Hmult.
Qed.

(** ** The multiplier at the ends of its range *)

Lemma span_over_span (dz : Z) :
  -32768 <= dz < MAXSHORT ->
  F32.div (F32.sub (F32.of_Z MAXSHORT) (F32.of_Z dz))
          (F32.sub (F32.of_Z MAXSHORT) (F32.of_Z dz)) = F32.of_Z 1.
Proof.
  intros Hdz.
  assert (H : check_range
                (fun i => float_eqb
                            (F32.div (F32.sub (F32.of_Z MAXSHORT) (F32.of_Z i))
                                     (F32.sub (F32.of_Z MAXSHORT) (F32.of_Z i)))
                            (F32.of_Z 1))
                (-32768) MAXSHORT = true) by (vm_compute; reflexivity).
  apply float_eqb_eq. apply (check_range_spec _ _ _ H dz). lia.
Qed.

(** [getMult] normalises without rounding error at both ends: with the
    linear curve the multiplier of an axis at full deflection is exactly
    [1 / FPS], whatever the dead zone, and the multiplier of an axis
    exactly at the dead zone is zero. *)
Theorem getMult_endpoints powf (fps dz : Z) :
  -32768 <= dz < MAXSHORT ->
  getMult powf fps (F32.mul (getDelta MAXSHORT) (getDelta MAXSHORT))
    (F32.of_Z dz) F32.zero = F32.div (F32.of_Z 1) (F32.of_Z fps) /\
  (0 <= dz -> 0 < fps < 2 ^ 24 ->
   getMult powf fps (F32.mul (getDelta dz) (getDelta dz)) (F32.of_Z dz) F32.zero
     = F32.zero /\
   getMult powf fps (F32.mul (getDelta (- dz)) (getDelta (- dz))) (F32.of_Z dz)
     F32.zero = F32.zero).
Proof.
  intros Hdz. unfold MAXSHORT in Hdz. split.
  - unfold getMult. rewrite gt_zero_accel.
    rewrite (getDelta_short MAXSHORT) by (unfold is_short, MAXSHORT; lia).
    rewrite sqrt_square_short by (unfold is_short, MAXSHORT; lia).
    change (Z.abs MAXSHORT) with MAXSHORT.
    rewrite span_over_span by (unfold MAXSHORT; lia). reflexivity.
  - intros Hnn Hfps.
    assert (H : forall t, is_short t -> Z.abs t = dz ->
              getMult powf fps (F32.mul (getDelta t) (getDelta t)) (F32.of_Z dz)
                F32.zero = F32.zero).
    { intros t Ht Habs. unfold getMult. rewrite gt_zero_accel.
      rewrite (getDelta_short t Ht), (sqrt_square_short t Ht), Habs.
      assert (Hnum : F32.sub (F32.of_Z dz) (F32.of_Z dz) = F32.zero).
      { destruct (Z.eq_dec dz 0) as [->|Hne]; [reflexivity|].
        destruct (of_Z_small dz Hne ltac:(lia)) as (m & e & -> & _).
        apply sub_self. }
      rewrite Hnum.
      assert (Hden : exists m e, F32.sub (F32.of_Z MAXSHORT) (F32.of_Z dz)
                                 = S754_finite false m e).
      { destruct (Z.eq_dec dz 0) as [->|Hne].
        - eexists _, _. reflexivity.
        - apply maxshort_minus_deadzone. unfold MAXSHORT. lia. }
      destruct Hden as (m & e & ->).
      destruct (of_Z_small fps ltac:(lia) ltac:(lia)) as (mf & ef & Hf & _).
      replace (fps <? 0) with false in Hf by (symmetry; apply Z.ltb_ge; lia).
      rewrite Hf. reflexivity. }
    split; apply H; unfold is_short; lia.
Qed.
(** ** Reading a string stream line by line *)

Lemma split_at_getlines (delim : ascii) (s : string) :
  s <> EmptyString ->
  getlines delim s = fst (split_at delim s) :: getlines delim (snd (split_at delim s)).
Proof.
  induction s as [|a s IH]; intros Hne; [congruence|].
  cbn [getlines split_at]. destruct (Ascii.eqb a delim); [reflexivity|].
  destruct s as [|b s'].
  - reflexivity.
  - rewrite IH by discriminate.
    destruct (split_at delim (String b s')) as [line rest]. reflexivity.
Qed.

(** [getlines] is the sequence of results of [getline]: it is empty when
    the first call fails, and otherwise starts with the line read and goes
    on with what the call left unread. *)
Lemma getline_getlines (delim : ascii) (s : string) :
  match getline delim s with
  | None => getlines delim s = []
  | Some (line, unread) => getlines delim s = line :: getlines delim unread
  end.
Proof.
  destruct s as [|a s]; [reflexivity|]. unfold getline.
  pose proof (split_at_getlines delim (String a s) ltac:(discriminate)) as H.
  destruct (split_at delim (String a s)) as [line rest]. exact H.
Qed.

(** The lines read from a stream are its fields: no line holds the
    delimiter, and the lines joined by the delimiter give the text back,
    up to one delimiter at its very end, which starts no further line. *)
Theorem getlines_fields (delim : ascii) (s : string) :
  let lines := getlines delim s in
  Forall (fun line => contains delim line = false) lines /\
  (s = join delim lines \/ s = (join delim lines ++ String delim EmptyString)%string) /\
  (lines = [] <-> s = EmptyString).
Proof.
  cbn zeta. induction s as [|a s (IHc & IHj & IHe)].
  - split; [constructor|]. split; [left; reflexivity|]. split; reflexivity.
  - cbn [getlines]. destruct (Ascii.eqb a delim) eqn:Ha.
    + apply Ascii.eqb_eq in Ha. subst a.
      split; [constructor; [reflexivity|exact IHc]|].
      split; [|split; intros H; discriminate].
      destruct (getlines delim s) as [|line lines] eqn:Hl.
      * right. destruct IHe as [IHe _]. rewrite (IHe eq_refl). reflexivity.
      * destruct IHj as [IHj|IHj]; [left|right]; rewrite IHj at 1; reflexivity.
    + destruct (getlines delim s) as [|line lines] eqn:Hl.
      * destruct IHe as [IHe _]. rewrite (IHe eq_refl).
        split; [constructor; [cbn; rewrite Ha; reflexivity|constructor]|].
        split; [left; reflexivity|]. split; intros H; discriminate.
      * apply Forall_cons_iff in IHc as [Hc1 Hc2].
        split; [constructor; [cbn; rewrite Ha, Hc1; reflexivity|exact Hc2]|].
        split; [|split; intros H; discriminate].
        destruct IHj as [IHj|IHj]; [left|right]; rewrite IHj at 1;
          destruct lines; reflexivity.
Qed.
(** ** Loading the configuration *)

Lemma speed_in_range_finite (s : float) :
  speed_in_range s = true -> exists m e, s = S754_finite false m e.
Proof.
  unfold speed_in_range, F32.gt, float_le, CUR_SPEED_MIN, CUR_SPEED_MAX.
  destruct s as [[]|[]| |[] m e]; cbn; try discriminate; eauto.
Qed.

Lemma default_speeds_in_range : Forall (fun s => speed_in_range s = true) default_speeds.
Proof. repeat constructor. Qed.

Section LoadingFacts.

Variable stoi : string -> option Z.
Variable strtof : string -> float.
Variable strtol : string -> Z.

Lemma stringsToShorts_words (strings : list string) : forall shorts,
  stringsToShorts stoi strings = Some shorts ->
  length shorts = length strings /\ Forall is_word shorts.
Proof.
  induction strings as [|s rest IH]; intros shorts H; cbn [stringsToShorts] in H.
  - injection H as <-. split; [reflexivity|constructor].
  - apply bind_Some in H as (v & Hv & H).
    apply bind_Some in H as (r & Hr & H). injection H as <-.
    destruct (IH r Hr) as [Hl Hw]. split; [cbn; lia|].
    constructor; [|exact Hw]. unfold is_word.
    apply Z.mod_pos_bound. lia.
Qed.

Lemma command_word (values : list string) (v : Z) :
  (shorts ← stringsToShorts stoi values; head shorts) = Some v -> is_word v.
Proof.
  intros H. apply bind_Some in H as (shorts & Hs & Hh).
  destruct (stringsToShorts_words values shorts Hs) as [_ Hw].
  destruct shorts as [|x shorts]; [discriminate|]. injection Hh as <-.
  apply Forall_cons_iff in Hw as [Hx _]. exact Hx.
Qed.

Lemma binding_words (values : list string) (shorts : list Z) :
  stringsToShorts stoi values = Some shorts -> Forall is_word shorts.
Proof. intros H. apply (stringsToShorts_words values shorts H). Qed.

(** The loop over the speed entries keeps the two vectors in step and only
    appends speeds of the allowed range. *)
Lemma parse_speed_table (st : Z * list float * list string) (cur_speed : string) :
  let '(_, sp, names) := st in
  let '(_, sp', names') := parse_speed strtof st cur_speed in
  (length sp = length names -> length sp' = length names') /\
  (Forall (fun s => speed_in_range s = true) sp ->
   Forall (fun s => speed_in_range s = true) sp') /\
  (sp <> [] -> sp' <> []).
Proof.
  destruct st as [[idx sp] names]. unfold parse_speed.
  destruct (contains "="%char cur_speed);
    [destruct (split_at "="%char cur_speed) as [name rest]|];
    match goal with
    | |- context [strtof ?x] => generalize (strtof x); intros f
    end;
    fold (speed_in_range f); destruct (speed_in_range f) eqn:Hf;
    (split; [|split]); intros H; rewrite ?length_app; cbn [length]; try lia;
    try assumption;
    try (apply Forall_app; split; [exact H|constructor; [exact Hf|constructor]]);
    try (intros Happ; apply app_eq_nil in Happ as [Happ _]; contradiction).
Qed.

Lemma parse_speeds_table (cursor_speed : string) (sp : list float)
    (names : list string) :
  let '(_, sp', names') := parse_speeds strtof cursor_speed sp names in
  (length sp = length names -> length sp' = length names') /\
  (Forall (fun s => speed_in_range s = true) sp ->
   Forall (fun s => speed_in_range s = true) sp') /\
  (sp <> [] -> sp' <> []).
Proof.
  unfold parse_speeds. generalize (getlines ","%char (c_str cursor_speed)).
  generalize 1. intros idx lines. revert idx sp names.
  induction lines as [|line lines IH]; intros idx sp names; cbn [fold_left].
  - auto.
  - pose proof (parse_speed_table (idx, sp, names) line) as Hstep.
    cbn beta iota in Hstep.
    destruct (parse_speed strtof (idx, sp, names) line) as [[idx1 sp1] names1].
    specialize (IH idx1 sp1 names1).
    destruct (fold_left (parse_speed strtof) lines (idx1, sp1, names1))
      as [[idx2 sp2] names2].
    destruct Hstep as (H1 & H2 & H3), IH as (I1 & I2 & I3). auto.
Qed.

End LoadingFacts.
(** Takes a successful run of [loadConfigFile] apart, value by value. *)
Ltac load_inv H :=
  unfold loadConfigFile in H;
  repeat match type of H with
         | mbind _ _ = Some _ =>
             let x := fresh "v" in
             let Hx := fresh "Hv" in
             apply bind_Some in H as (x & Hx & H)
         end;
  let Hparse := fresh "Hparse" in
  destruct (parse_speeds _ _ _ _) as [[? ?sp] ?names] eqn:Hparse;
  let Hempty := fresh "Hempty" in
  destruct (Z.of_nat (length _) =? 0) eqn:Hempty;
  (let x := fresh "v" in
   let Hx := fresh "Hv" in
   apply bind_Some in H as (x & Hx & H));
  injection H as <- <-.

Section LoadingTheorems.

Variable stoi : string -> option Z.
Variable strtof : string -> float.
Variable strtol : string -> Z.

(** A successful [loadConfigFile] leaves a usable speed table: it is not
    empty, it has one name per speed, every speed in it is a positive
    finite float above [0.0001] and at most [1], and the active speed is its
    first entry; so with [speed_idx] at 0 the index is within the table and
    names the active speed.  The dead zones loaded are never 0 and the
    scroll speed is never below [0.00001].  (For an object whose table was
    in that shape before, as the empty table of a new object is.) *)
Theorem loadConfigFile_table (contents : gmap string (list string))
    (g g' : Gopher) (ev : list Event) :
  loadConfigFile stoi strtof strtol contents g = Some (g', ev) ->
  length (speeds (cfg g)) = length (speed_names (cfg g)) ->
  Forall (fun s => speed_in_range s = true) (speeds (cfg g)) ->
  let c := cfg g' in
  speeds c <> [] /\
  length (speeds c) = length (speed_names c) /\
  Forall (fun s => speed_in_range s = true /\
                   exists m e, s = S754_finite false m e) (speeds c) /\
  speed g' = speed_at c 0 /\
  (speed_idx g = 0 ->
   0 <= speed_idx g' < Z.of_nat (length (speeds c)) /\
   speed g' = speed_at c (speed_idx g')) /\
  DEAD_ZONE c <> 0 /\ SCROLL_DEAD_ZONE c <> 0 /\
  float_lt (SCROLL_SPEED c) f_0_00001 = false.
Proof.
  intros H Hlen Hok. cbn zeta.
  assert (Hfin : forall l, Forall (fun s => speed_in_range s = true) l ->
            Forall (fun s => speed_in_range s = true /\
                             exists m e, s = S754_finite false m e) l).
  { intros l Hl. eapply List.Forall_impl; [|exact Hl].
    intros s Hs. split; [exact Hs|]. apply speed_in_range_finite, Hs. }
  assert (Hdz : forall v d, (if v =? 0 then d else v) <> 0 \/ d = 0).
  { intros v d. destruct (Z.eqb_spec v 0); [|left; exact n].
    destruct (Z.eq_dec d 0); [right|left]; assumption. }
  assert (Hsp : forall s, float_lt (if float_lt s f_0_00001 then f_tenth else s)
                            f_0_00001 = false).
  { intros s. destruct (float_lt s f_0_00001) eqn:Hs; [reflexivity|exact Hs]. }
  load_inv H;
    pose proof (parse_speeds_table strtof v27 (speeds (cfg g)) (speed_names (cfg g)))
      as Ht;
    rewrite Hparse in Ht; destruct Ht as (Ht1 & Ht2 & Ht3);
    specialize (Ht1 Hlen); specialize (Ht2 Hok);
    repeat match goal with
           | |- context [exec setWindowVisibility ?G] =>
               change (exec setWindowVisibility G) with G
           end;
    cbn [cfg speeds speed_names speed speed_idx set_speed set_cfg
         DEAD_ZONE SCROLL_DEAD_ZONE SCROLL_SPEED].
  - (* no speed defined: the built-in table *)
    apply Z.eqb_eq in Hempty.
    assert (sp = []) as -> by (destruct sp; [reflexivity|cbn in Hempty; lia]).
    assert (names = []) as -> by (destruct names; [reflexivity|discriminate]).
    cbn [app].
    split; [discriminate|]. split; [reflexivity|].
    split; [apply Hfin, default_speeds_in_range|].
    split; [reflexivity|].
    split; [intros ->; split; [cbn; lia|reflexivity]|].
    split; [destruct (Hdz (wrap_int (strtol (c_str v24))) 6000); [assumption|lia]|].
    split; [destruct (Hdz (wrap_int (strtol (c_str v25))) 5000); [assumption|lia]|].
    apply Hsp.
  - apply Z.eqb_neq in Hempty.
    assert (Hne : sp <> []) by (intros ->; apply Hempty; reflexivity).
    split; [exact Hne|]. split; [exact Ht1|].
    split; [apply Hfin, Ht2|].
    split; [reflexivity|].
    split; [intros ->; split; [destruct sp; [congruence|cbn [length]; lia]|reflexivity]|].
    split; [destruct (Hdz (wrap_int (strtol (c_str v24))) 6000); [assumption|lia]|].
    split; [destruct (Hdz (wrap_int (strtol (c_str v25))) 5000); [assumption|lia]|].
    apply Hsp.
Qed.

(** Every command mask and every key code that [loadConfigFile] stores is
    a [WORD], whatever number the file gives: the value is reduced modulo
    [2^16] on its way through [stringsToShorts]. *)
Theorem loadConfigFile_words (contents : gmap string (list string))
    (g g' : Gopher) (ev : list Event) :
  loadConfigFile stoi strtof strtol contents g = Some (g', ev) ->
  Forall is_word (commands_of (cfg g')) /\
  Forall (Forall is_word) (bindings_of (cfg g')).
Proof.
  intros H.
  load_inv H; (split;
    [repeat (constructor; [eapply command_word; eassumption|]); constructor
    |repeat (constructor; [eapply binding_words; eassumption|]); constructor]).
Qed.

(** [loadConfigFile] changes the configuration and the active speed and
    nothing else: the constants of the header, the edge tracker, the held
    codes, the flags and the remainders are as before, and the one call it
    makes shows or hides the console window as [_hidden] says. *)
Theorem loadConfigFile_frame (contents : gmap string (list string))
    (g g' : Gopher) (ev : list Event) :
  loadConfigFile stoi strtof strtol contents g = Some (g', ev) ->
  g' = set_speed (speed_idx g) (speed g') (set_cfg (cfg g') g) /\
  FPS (cfg g') = FPS (cfg g) /\
  SLEEP_AMOUNT (cfg g') = SLEEP_AMOUNT (cfg g) /\
  TRIGGER_DEAD_ZONE (cfg g') = TRIGGER_DEAD_ZONE (cfg g) /\
  ev = [ShowWindow ConsoleWindow (if _hidden g then SW_HIDE else SW_SHOW)].
Proof.
  intros H. load_inv H; repeat split; reflexivity.
Qed.

End LoadingTheorems.
Section MissingEntries.

Variable stoi : string -> option Z.
Variable strtof : string -> float.
Variable strtol : string -> Z.

Hypothesis stoi_zero : stoi "0" = Some 0.
Hypothesis strtol_zero : strtol "0" = 0.
Hypothesis strtof_zero : strtof "0" = F32.zero.

Lemma getValuesOfKey_empty (key : string) (d : list string) :
  getValuesOfKey ∅ key d = d.
Proof. unfold getValuesOfKey. rewrite lookup_empty. reflexivity. Qed.

Lemma stringsToShorts_default : stringsToShorts stoi defaultValue = Some [0].
Proof.
  unfold defaultValue. cbn [stringsToShorts].
  change (c_str "0") with "0"%string. rewrite stoi_zero. reflexivity.
Qed.

Lemma parse_speeds_default :
  parse_speeds strtof "0" [] [] = (2, [], []).
Proof.
  unfold parse_speeds. change (getlines ","%char (c_str "0")) with ["0"%string].
  cbn [fold_left]. unfold parse_speed.
  change (contains "="%char "0") with false. cbv iota.
  change (getline "010"%char "0") with (Some ("0"%string, EmptyString)).
  cbv iota beta. change (c_str "0") with "0"%string. rewrite strtof_zero.
  reflexivity.
Qed.

(** What a file without entries loads: [getValuesOfKey] answers every
    missing key with the single value ["0"], so every command is the mask
    0, every controller button is bound to the one key code 0, the dead
    zones and the scroll speed fall back to 6000, 5000 and [0.1], the
    entry ["0"] of the speed list is rejected and the built-in table of
    four speeds is installed, with the first of them active. *)
Theorem loadConfigFile_missing_entries (g : Gopher) :
  speeds (cfg g) = [] -> speed_names (cfg g) = [] ->
  exists g',
    loadConfigFile stoi strtof strtol ∅ g
      = Some (g', [ShowWindow ConsoleWindow (if _hidden g then SW_HIDE else SW_SHOW)]) /\
    commands_of (cfg g') = repeat 0 8 /\
    bindings_of (cfg g') = repeat [0] 16 /\
    acceleration_factor (cfg g') = F32.zero /\
    DEAD_ZONE (cfg g') = 6000 /\ SCROLL_DEAD_ZONE (cfg g') = 5000 /\
    SCROLL_SPEED (cfg g') = f_tenth /\
    speeds (cfg g') = default_speeds /\
    speed_names (cfg g') = default_speed_names /\
    SWAP_THUMBSTICKS (cfg g') = 0 /\
    speed g' = f_thousandths 5.
Proof.
  intros Hs Hn. unfold loadConfigFile.
  rewrite !getValuesOfKey_empty, stringsToShorts_default, Hs, Hn.
  cbn [mbind option_bind head defaultValue].
  change (c_str "0") with "0"%string.
  rewrite parse_speeds_default, strtol_zero, strtof_zero.
  eexists. split; [reflexivity|]. repeat split.
Qed.

End MissingEntries.
(** ** Finding the On-Screen Keyboard *)

Lemma truncate_short (t : string) : forall (n : nat) (s : string),
  (String.length t < n)%nat -> truncate n s = t -> s = t.
Proof.
  induction t as [|a t IH]; intros n s Hn H.
  - destruct n as [|n]; [lia|]. destruct s; [reflexivity|discriminate].
  - destruct n as [|n]; [discriminate|]. destruct s as [|b s]; [discriminate|].
    cbn in H, Hn. injection H as -> H. f_equal. apply (IH n); [lia|exact H].
Qed.

Lemma truncate_whole (t : string) : forall n : nat,
  (String.length t <= n)%nat -> truncate n t = t.
Proof.
  induction t as [|a t IH]; intros n Hn; [destruct n; reflexivity|].
  destruct n as [|n]; [cbn in Hn; lia|]. cbn. rewrite IH; [reflexivity|].
  cbn in Hn. lia.
Qed.

(** The callback stops the enumeration exactly at a window whose whole
    title is the one looked for: the 256-character buffer can cut a title
    short, but never into a match. *)
Lemma EnumWindowsProc_match (w : TopWindow) (lParam : Z) :
  EnumWindowsProc w lParam =
  if String.eqb (caption w) osk_title then (false, hWnd w) else (true, lParam).
Proof.
  unfold EnumWindowsProc, GetWindowText.
  change (256 - 1)%nat with 255%nat.
  destruct (String.eqb_spec (caption w) osk_title) as [Heq|Hne].
  - rewrite Heq, truncate_whole by (cbn; lia). reflexivity.
  - destruct (String.eqb_spec (truncate 255 (caption w)) osk_title) as [Heq|_].
    + exfalso. apply Hne. apply (truncate_short osk_title 255); [cbn; lia|exact Heq].
    + rewrite andb_false_r. reflexivity.
Qed.

(** [getOskWindow] answers with the handle of the first top-level window
    titled exactly "On-Screen Keyboard", and with [NULL] when no window has
    that title. *)
Theorem getOskWindow_first_match (windows : list TopWindow) :
  ((forall w, In w windows -> caption w <> osk_title) ->
   getOskWindow windows = NULL) /\
  (forall before w after,
     windows = before ++ w :: after ->
     caption w = osk_title ->
     (forall w', In w' before -> caption w' <> osk_title) ->
     getOskWindow windows = hWnd w).
Proof.
  unfold getOskWindow. split.
  - induction windows as [|w ws IH]; intros Hno; [reflexivity|].
    cbn [EnumWindows]. rewrite EnumWindowsProc_match.
    destruct (String.eqb_spec (caption w) osk_title) as [Heq|_].
    + exfalso. apply (Hno w); [left; reflexivity|exact Heq].
    + apply IH. intros w' Hw'. apply Hno. right. exact Hw'.
  - intros before w after -> Hw. generalize NULL.
    induction before as [|b before IH]; intros r Hno; cbn [app EnumWindows];
      rewrite EnumWindowsProc_match.
    + rewrite Hw, String.eqb_refl. reflexivity.
    + destruct (String.eqb_spec (caption b) osk_title) as [Heq|_].
      * exfalso. apply (Hno b); [left; reflexivity|exact Heq].
      * apply IH. intros w' Hw'. apply Hno. right. exact Hw'.
Qed.

(** ** The cursor follows the stick *)

(** The product of an axis value with itself is the float of its square. *)
Lemma mul_square_of_Z (t : Z) :
  is_short t -> F32.mul (F32.of_Z t) (F32.of_Z t) = F32.of_Z (t * t).
Proof.
  intros Ht.
  assert (H : check_range
                (fun t => float_eqb (F32.mul (F32.of_Z t) (F32.of_Z t))
                                    (F32.of_Z (t * t)))
                (-32768) 32768 = true) by (vm_compute; reflexivity).
  apply float_eqb_eq.
  apply (check_range_spec _ _ _ H t). unfold is_short in Ht. lia.
Qed.

(** Consecutive squares of the range of an axis stay apart when rounded to
    24 bits. *)
Lemma nearest24_squares (d : Z) :
  0 <= d < 32768 -> nearest24 (d * d) < nearest24 ((d + 1) * (d + 1)).
Proof.
  intros Hd.
  assert (H : check_range
                (fun d => nearest24 (d * d) <? nearest24 ((d + 1) * (d + 1)))
                0 32768 = true) by (vm_compute; reflexivity).
  apply Z.ltb_lt. apply (check_range_spec _ _ _ H d). lia.
Qed.

(** The dead-zone test of [handleMouseMovement] on one axis: the squared
    deflection, as a float, is above the squared dead zone as soon as the
    deflection is above the dead zone. *)
Lemma square_above_deadzone (t dz : Z) :
  is_short t -> 0 <= dz < Z.abs t ->
  F32.gt (F32.of_Z (t * t)) (F32.of_Z (dz * dz)) = true.
Proof.
  intros Ht Hdz. unfold is_short in Ht. unfold F32.gt.
  assert (Ht2 : 0 < t * t < 2 ^ 31) by nia.
  destruct (of_Z_canonical (t * t) Ht2) as (mb & eb & -> & Hdb & Heb & Hvb).
  destruct (Z.eq_dec dz 0) as [->|Hne]; [reflexivity|].
  assert (Hd2 : 0 < dz * dz < 2 ^ 31) by nia.
  destruct (of_Z_canonical (dz * dz) Hd2) as (ma & ea & -> & Hda & Hea & Hva).
  apply ltb_canonical_strict; try assumption.
  rewrite Hva, Hvb.
  apply Z.mul_lt_mono_pos_r; [lia|].
  apply Z.lt_le_trans with (nearest24 ((dz + 1) * (dz + 1))).
  - apply nearest24_squares. lia.
  - apply nearest24_mono. nia.
Qed.

(** The multiplier of an axis deflected beyond the dead zone, on the
    linear curve. *)
Lemma getMult_linear_positive powf (fps dz t : Z) (accel : float) :
  F32.gt accel f_0_0001 = false ->
  is_short t -> 0 <= dz < Z.abs t -> dz < MAXSHORT -> 0 < fps < 2 ^ 24 ->
  F32.signbit (getMult powf fps (F32.of_Z (t * t)) (F32.of_Z dz) accel)
  = Some false.
Proof.
  intros Hacc Ht Hdz Hmax Hfps. unfold getMult. rewrite Hacc.
  rewrite <- (mul_square_of_Z t Ht), (sqrt_square_short t Ht).
  destruct (of_Z_small fps ltac:(lia) ltac:(lia)) as (mf & ef & Hf & _).
  replace (fps <? 0) with false in Hf by (symmetry; apply Z.ltb_ge; lia).
  rewrite Hf.
  change false with (xorb false false) at 2. apply div_signbit_finite_r.
  assert (Hden : exists m e, F32.sub (F32.of_Z MAXSHORT) (F32.of_Z dz)
                             = S754_finite false m e).
  { destruct (Z.eq_dec dz 0) as [->|Hne].
    - eexists _, _. reflexivity.
    - apply maxshort_minus_deadzone. lia. }
  destruct Hden as (m & e & ->).
  change false with (xorb false false) at 2. apply div_signbit_finite_r.
  apply sub_small_signbit_pos; unfold is_short in Ht; lia.
Qed.

(** The displacement of one axis when the other is at rest. *)
Lemma axis_displacement powf (g : Gopher) (t : Z) (sm : positive) (se : Z) :
  let c := cfg g in
  is_short t ->
  0 <= DEAD_ZONE c < Z.abs t -> DEAD_ZONE c < MAXSHORT ->
  0 < FPS c < 2 ^ 24 ->
  F32.gt (acceleration_factor c) f_0_0001 = false ->
  speed g = S754_finite false sm se ->
  F32.gt (F32.of_Z (wrap_int (t * t)))
         (F32.of_Z (wrap_int (DEAD_ZONE c * DEAD_ZONE c))) = true /\
  F32.signbit
    (F32.mul (getDelta t)
       (F32.mul (speed g)
          (getMult powf (FPS c) (F32.of_Z (wrap_int (t * t)))
             (F32.of_Z (DEAD_ZONE c)) (acceleration_factor c))))
  = Some (t <? 0).
Proof.
  intros c Ht Hdz Hmax Hfps Hacc Hsp.
  assert (Ht' := Ht). unfold is_short in Ht'. unfold MAXSHORT in Hmax.
  rewrite !wrap_int_small by nia.
  split; [apply square_above_deadzone; assumption|].
  pose proof (getMult_linear_positive powf (FPS c) (DEAD_ZONE c) t
                (acceleration_factor c) Hacc Ht Hdz ltac:(unfold MAXSHORT; lia) Hfps)
    as Hmult.
  revert Hmult. generalize (getMult powf (FPS c) (F32.of_Z (t * t))
                              (F32.of_Z (DEAD_ZONE c)) (acceleration_factor c)).
  intros mult Hmult. rewrite Hsp, (getDelta_short t Ht).
  destruct (of_Z_small t ltac:(lia) ltac:(lia)) as (m & e & -> & _).
  replace (Some (t <? 0)) with (Some (xorb (t <? 0) (xorb false false)))
    by (destruct (t <? 0); reflexivity).
  apply mul_signbit_finite_l. apply mul_signbit_finite_l. exact Hmult.
Qed.

(** Beyond the dead zone the cursor follows the stick: with the stick
    moved along one axis, the linear curve and a positive finite speed, the
    displacement [dx] has the sign of [tx] and the displacement [dy] the
    sign of [ty]; [dx] is added to the horizontal coordinate and [dy] is
    subtracted from the vertical one, so pushing the stick up moves the
    cursor up the screen.  (A dead zone from 0 to below [MAXSHORT], a
    positive [FPS] below [2^24].) *)
Theorem cursor_follows_stick_on_axis powf (g : Gopher) (inp : TickInput)
    (sm : positive) (se : Z) :
  let c := cfg g in
  let tx := if SWAP_THUMBSTICKS c =? 0 then sThumbLX (_currentState g)
            else sThumbRX (_currentState g) in
  let ty := if SWAP_THUMBSTICKS c =? 0 then sThumbLY (_currentState g)
            else sThumbRY (_currentState g) in
  let m := movement powf g inp in
  is_short tx -> is_short ty ->
  0 <= DEAD_ZONE c < MAXSHORT -> 0 < FPS c < 2 ^ 24 ->
  F32.gt (acceleration_factor c) f_0_0001 = false ->
  speed g = S754_finite false sm se ->
  (ty = 0 -> DEAD_ZONE c < Z.abs tx ->
   F32.signbit (mv_dx m) = Some (tx <? 0)) /\
  (tx = 0 -> DEAD_ZONE c < Z.abs ty ->
   F32.signbit (mv_dy m) = Some (ty <? 0)) /\
  mv_x m = F32.add (F32.add (F32.of_Z (cursor_x inp)) (_xRest g)) (mv_dx m) /\
  mv_y m = F32.sub (F32.add (F32.of_Z (cursor_y inp)) (_yRest g)) (mv_dy m).
Proof.
  intros c tx ty m Htx Hty Hdz Hfps Hacc Hsp.
  assert (Hm : m = movement powf g inp) by reflexivity.
  unfold movement in Hm. fold c tx ty in Hm.
  split; [|split].
  - intros H0 Hbeyond.
    destruct (axis_displacement powf g tx sm se Htx ltac:(fold c; lia)
                ltac:(fold c; lia) Hfps Hacc Hsp) as [Hgt Hs].
    fold c in Hgt, Hs.
    replace (tx * tx + ty * ty) with (tx * tx) in Hm by (rewrite H0; lia).
    rewrite Hgt in Hm. rewrite Hm. exact Hs.
  - intros H0 Hbeyond.
    destruct (axis_displacement powf g ty sm se Hty ltac:(fold c; lia)
                ltac:(fold c; lia) Hfps Hacc Hsp) as [Hgt Hs].
    fold c in Hgt, Hs.
    replace (tx * tx + ty * ty) with (ty * ty) in Hm by (rewrite H0; lia).
    rewrite Hgt in Hm. rewrite Hm. exact Hs.
  - clear Hm. subst m. unfold movement.
    destruct (F32.gt (F32.of_Z (wrap_int _)) _); split; reflexivity.
Qed.

(** ** A tick on which nothing changes sends no key *)

Lemma stays_refl p g : stays p g g.
Proof. split; [reflexivity|]. split; [reflexivity|]. split; auto. Qed.

Lemma stays_trans p g1 g2 g3 : stays p g1 g2 -> stays p g2 g3 -> stays p g1 g3.
Proof.
  intros (Hc & Hs & Hb & Ht) (Hc' & Hs' & Hb' & Ht').
  split; [congruence|]. split; [congruence|]. split; auto.
Qed.

Lemma framed_stays {A} (m : Run A) p g : framed m -> stays p g (exec m g).
Proof.
  intros (Hc & Hs & Hk & Hl & Hr). unfold stays, synced, triggers_synced,
    lastIteration_of.
  rewrite (Hc g), (Hs g), (Hk g), (Hl g), (Hr g). auto.
Qed.

Lemma synced_observe p s s' g : synced p s g -> synced p s (observe s' g p).
Proof.
  unfold synced. intros H. destruct (Z.eq_dec s s') as [->|Hne].
  - apply observe_last.
  - rewrite <- H. unfold lastIteration_of, at_bool. rewrite observe_clicks.
    destruct (setXboxClickState_maps_untouched (SLEEP_AMOUNT (cfg g)) (wButtons p)
                s' s (clicks g) Hne) as (Hl & _).
    rewrite Hl. reflexivity.
Qed.

Lemma stays_observe p s g : stays p (set_currentState p g) (observe s g p).
Proof.
  split; [reflexivity|]. split; [reflexivity|]. split; [|auto].
  intros s0 H. apply (synced_observe p s0 s g). exact H.
Qed.

Lemma steady_ret {A} c p (a : A) g : steady_at c p [] false (ret a) g.
Proof.
  intros _ _. split; [apply stays_refl|]. split; [intros s []|].
  split; [discriminate|]. intros _ _. constructor.
Qed.

Lemma steady_seq {A B} c p S1 T1 S2 T2 (m : Run A) (k : A -> Run B) g :
  steady_at c p S1 T1 m g ->
  (forall a g', steady_at c p S2 T2 (k a) g') ->
  steady_at c p (S1 ++ S2) (T1 || T2) (bind m k) g.
Proof.
  intros Hm Hk Hc Hp. destruct (Hm Hc Hp) as (Hst & Hset & Htr & Hcalm).
  assert (Hc1 : cfg (exec m g) = c) by (destruct Hst as (H & _); congruence).
  assert (Hp1 : _currentState (exec m g) = p)
    by (destruct Hst as (_ & H & _); congruence).
  destruct (Hk (fst (fst (m g))) (exec m g) Hc1 Hp1) as (Hst' & Hset' & Htr' & Hcalm').
  rewrite exec_bind, events_bind.
  split; [eapply stays_trans; eassumption|].
  split; [|split].
  - intros s Hs. apply in_app_or in Hs as [Hs|Hs].
    + destruct Hst' as (_ & _ & Hb & _). apply Hb, Hset, Hs.
    + apply Hset', Hs.
  - intros HT. apply orb_true_iff in HT as [HT|HT].
    + destruct Hst' as (_ & _ & _ & Ht). apply Ht, Htr, HT.
    + apply Htr', HT.
  - intros Hs Ht. apply Forall_app. split.
    + apply Hcalm.
      * intros s Hin. apply Hs, in_or_app. left. exact Hin.
      * intros HT. apply Ht. rewrite HT. reflexivity.
    + apply Hcalm'.
      * intros s Hin. destruct Hst as (_ & _ & Hb & _).
        apply Hb, Hs, in_or_app. right. exact Hin.
      * intros HT. destruct Hst as (_ & _ & _ & Htt). apply Htt, Ht.
        rewrite HT. apply orb_true_r.
Qed.

Lemma steady_when c p S T (b : bool) (m : Run unit) g :
  steady_at c p S T m g ->
  steady_at c p (if b then S else []) (b && T) (when b m) g.
Proof.
  destruct b; [cbn [andb]; trivial|]. intros _. apply steady_ret.
Qed.

(** A computation that queries nothing and only moves. *)
Lemma steady_inert {A} c p (m : Run A) g :
  framed m -> (forall g', Forall (fun e => is_motion e = true) (events m g')) ->
  steady_at c p [] false m g.
Proof.
  intros Hf He _ _. split; [apply framed_stays, Hf|].
  split; [intros s []|]. split; [discriminate|]. intros _ _. apply He.
Qed.

(** The shape of every button handler: the query, then an action on the
    press edge, then an action on the release edge. *)
Lemma steady_edges c p s (X Y : Run unit) g :
  framed X -> framed Y ->
  steady_at c p [s] false
    (setXboxClickState s ;;
     g1 <- get ;; when (isDown_of g1 s) X ;;
     g2 <- get ;; when (isUp_of g2 s) Y) g.
Proof.
  intros HX HY Hc Hp.
  set (g1 := observe s g p).
  assert (Hg1 : exec (setXboxClickState s) g = g1)
    by (rewrite exec_setXboxClickState, Hp; reflexivity).
  assert (Hrun : exec (setXboxClickState s ;;
                       g1 <- get ;; when (isDown_of g1 s) X ;;
                       g2 <- get ;; when (isUp_of g2 s) Y) g
                 = exec (when (isUp_of (exec (when (isDown_of g1 s) X) g1) s) Y)
                     (exec (when (isDown_of g1 s) X) g1)).
  { rewrite exec_bind, Hg1, exec_bind. change (exec get g1) with g1.
    change (fst (fst (get g1))) with g1. rewrite exec_bind, exec_bind.
    reflexivity. }
  assert (Hev : events (setXboxClickState s ;;
                        g1 <- get ;; when (isDown_of g1 s) X ;;
                        g2 <- get ;; when (isUp_of g2 s) Y) g
                = events (when (isDown_of g1 s) X) g1
                  ++ events (when (isUp_of (exec (when (isDown_of g1 s) X) g1) s) Y)
                       (exec (when (isDown_of g1 s) X) g1)).
  { rewrite events_bind, Hg1. change (events (setXboxClickState s) g) with (@nil Event).
    cbn [app]. rewrite events_bind. change (events get g1) with (@nil Event).
    change (exec get g1) with g1. change (fst (fst (get g1))) with g1.
    cbn [app]. rewrite events_bind. f_equal. rewrite events_bind.
    reflexivity. }
  rewrite Hrun, Hev. clear Hrun Hev.
  assert (Hst1 : stays p g g1).
  { subst g1. replace g with (set_currentState p g) at 1
      by (rewrite <- Hp; destruct g; reflexivity).
    apply stays_observe. }
  assert (Hw : forall (b : bool) (Z : Run unit) g', framed Z ->
                 stays p g' (exec (when b Z) g')).
  { intros b Z g' HZ. destruct b; [apply framed_stays, HZ|apply stays_refl]. }
  set (g2 := exec (when (isDown_of g1 s) X) g1).
  assert (Hst2 : stays p g1 g2) by (apply Hw, HX).
  assert (Hst3 : stays p g2 (exec (when (isUp_of g2 s) Y) g2)) by (apply Hw, HY).
  assert (Hs1 : synced p s g1) by (apply observe_last).
  split; [eapply stays_trans; [exact Hst1|eapply stays_trans; eassumption]|].
  split; [|split; [discriminate|]].
  - intros s0 [<-|[]].
    destruct Hst3 as (_ & _ & Hb3 & _), Hst2 as (_ & _ & Hb2 & _).
    apply Hb3, Hb2, Hs1.
  - intros Hs _. specialize (Hs s (or_introl eq_refl)). unfold synced in Hs.
    assert (Hd : isDown_of g1 s = false).
    { subst g1. rewrite observe_isDown, Hs.
      destruct (button_down s p); reflexivity. }
    assert (Hu : isUp_of g1 s = false).
    { subst g1. rewrite observe_isUp, Hs.
      destruct (button_down s p); reflexivity. }
    subst g2. rewrite Hd. cbn [when].
    change (exec (ret tt) g1) with g1. rewrite Hu. constructor.
Qed.

(** The same without an action on the release edge; [cond] is the test
    of the press edge as the handler writes it. *)
Lemma steady_press c p s (cond : Gopher -> bool) (X : Run unit) g :
  (forall g', cfg g' = c -> cond g' = isDown_of g' s) ->
  framed X ->
  steady_at c p [s] false
    (setXboxClickState s ;; g1 <- get ;; when (cond g1) X) g.
Proof.
  intros Hcond HX Hc Hp.
  set (g1 := observe s g p).
  assert (Hg1 : exec (setXboxClickState s) g = g1)
    by (rewrite exec_setXboxClickState, Hp; reflexivity).
  assert (Hrun : exec (setXboxClickState s ;;
                       g1 <- get ;; when (cond g1) X) g
                 = exec (when (cond g1) X) g1).
  { rewrite exec_bind, Hg1, exec_bind. reflexivity. }
  assert (Hev : events (setXboxClickState s ;;
                        g1 <- get ;; when (cond g1) X) g
                = events (when (cond g1) X) g1).
  { rewrite events_bind, Hg1. change (events (setXboxClickState s) g) with (@nil Event).
    cbn [app]. rewrite events_bind. reflexivity. }
  rewrite Hrun, Hev. clear Hrun Hev.
  rewrite (Hcond g1 Hc).
  assert (Hst1 : stays p g g1).
  { subst g1. replace g with (set_currentState p g) at 1
      by (rewrite <- Hp; destruct g; reflexivity).
    apply stays_observe. }
  assert (Hst2 : stays p g1 (exec (when (isDown_of g1 s) X) g1)).
  { destruct (isDown_of g1 s); [apply framed_stays, HX|apply stays_refl]. }
  assert (Hs1 : synced p s g1) by (apply observe_last).
  split; [eapply stays_trans; eassumption|].
  split; [|split; [discriminate|]].
  - intros s0 [<-|[]]. destruct Hst2 as (_ & _ & Hb2 & _). apply Hb2, Hs1.
  - intros Hs _. specialize (Hs s (or_introl eq_refl)). unfold synced in Hs.
    assert (Hd : isDown_of g1 s = false).
    { subst g1. rewrite observe_isDown, Hs.
      destruct (button_down s p); reflexivity. }
    rewrite Hd. constructor.
Qed.

Lemma steady_at_same {A} c p S T (m m' : Run A) g :
  m g = m' g -> steady_at c p S T m g -> steady_at c p S T m' g.
Proof. unfold steady_at, exec, events. intros <-. trivial. Qed.

(** A press handler followed by the rest of the tick. *)
Lemma steady_press_then c p s (cond : Gopher -> bool) (X rest : Run unit) S T g :
  (forall g', cfg g' = c -> cond g' = isDown_of g' s) ->
  framed X ->
  (forall g', steady_at c p S T rest g') ->
  steady_at c p ([s] ++ S) (false || T)
    (setXboxClickState s ;; g1 <- get ;; when (cond g1) X ;; rest) g.
Proof.
  intros Hcond HX Hrest.
  apply (steady_at_same c p _ _
           ((setXboxClickState s ;; g1 <- get ;; when (cond g1) X) ;; rest)).
  - unfold bind, get. destruct (setXboxClickState s g) as [[[] g1] e1].
    destruct (when (cond g1) X g1) as [[[] g2] e2].
    destruct (rest g2) as [[[] g3] e3]. cbn [app]. rewrite <- !app_assoc.
    reflexivity.
  - apply steady_seq; [apply steady_press; assumption|].
    intros _ g'. apply Hrest.
Qed.

Lemma steady_get {A} c p S T (k : Gopher -> Run A) g :
  steady_at c p S T (k g) g -> steady_at c p S T (bind get k) g.
Proof. apply steady_at_same. unfold bind, get. destruct (k g g) as [[a g1] e1]. reflexivity. Qed.

Lemma framed_intro {A} (m : Run A) :
  preserves cfg m -> preserves _currentState m -> preserves clicks m ->
  preserves _lTriggerPrevious m -> preserves _rTriggerPrevious m -> framed m.
Proof. unfold framed. auto. Qed.

Ltac framed := apply framed_intro; frame.

Lemma steady_mapKeyboard c p s keys g :
  steady_at c p [s] false (mapKeyboard s keys) g.
Proof. unfold mapKeyboard. apply steady_edges; framed. Qed.

Lemma steady_mapMouseClick c p s keyDown keyUp g :
  steady_at c p [s] false (mapMouseClick s keyDown keyUp) g.
Proof. unfold mapMouseClick. apply steady_edges; framed. Qed.

Lemma steady_at_cfg {A} c p S T (m : Run A) g :
  (cfg g = c -> steady_at c p S T m g) -> steady_at c p S T m g.
Proof. intros H Hc. apply H; exact Hc. Qed.

Lemma steady_handleVibrationButton c p g :
  steady_at c p [CONFIG_DISABLE_VIBRATION c] false handleVibrationButton g.
Proof.
  unfold handleVibrationButton. apply steady_get, steady_at_cfg. intros Hc.
  rewrite Hc.
  apply (steady_press c p (CONFIG_DISABLE_VIBRATION c)
           (fun g1 => isDown_of g1 (CONFIG_DISABLE_VIBRATION (cfg g1)))).
  - intros g' Hg'. rewrite Hg'. reflexivity.
  - framed.
Qed.

Lemma steady_handleTriggers c p lKey rKey g :
  steady_at c p [] true (handleTriggers lKey rKey) g.
Proof.
  intros Hc Hp.
  assert (He : exec (handleTriggers lKey rKey) g
               = snd (fst (handleTriggers lKey rKey g))) by reflexivity.
  assert (Hv : events (handleTriggers lKey rKey) g
               = snd (handleTriggers lKey rKey g)) by reflexivity.
  rewrite handleTriggers_run in He, Hv. cbn zeta in He, Hv.
  cbn [fst snd] in He, Hv. rewrite He, Hv, Hp. clear He Hv.
  assert (Hts : triggers_synced p
                  (set_rTriggerPrevious (right_pulled (TRIGGER_DEAD_ZONE (cfg g)) p)
                     (set_lTriggerPrevious (left_pulled (TRIGGER_DEAD_ZONE (cfg g)) p) g)))
    by (split; reflexivity).
  split; [|split; [intros s []|split; [intros _; exact Hts|]]].
  - split; [reflexivity|]. split; [reflexivity|]. split; [auto|].
    intros _. exact Hts.
  - intros _ Ht. destruct (Ht eq_refl) as [Hl Hr]. rewrite Hl, Hr.
    rewrite !eqb_reflx. constructor.
Qed.

Lemma steady_handleMouseMovement powf c p inp g :
  steady_at c p [] false (handleMouseMovement powf inp) g.
Proof.
  apply steady_inert; [unfold handleMouseMovement; framed|].
  intros g'. unfold events, handleMouseMovement, bind, get, modify, emit.
  cbn [fst snd app]. repeat constructor.
Qed.

Lemma steady_handleScrolling powf c p g :
  steady_at c p [] false (handleScrolling powf) g.
Proof.
  apply steady_inert; [unfold handleScrolling; framed|].
  intros g'. rewrite handleScrolling_events. cbn zeta.
  destruct (F32.gt _ _); repeat constructor.
Qed.

Ltac steady_step :=
  lazymatch goal with
  | |- steady_at _ _ _ _ (bind (setXboxClickState _) _) _ =>
      first [ eapply steady_press_then;
              [intros ? ?; reflexivity|framed|intros ?]
            | eapply steady_press; [intros ? ?; reflexivity|framed] ]
  | |- steady_at _ _ _ _ (bind _ _) _ => eapply steady_seq; [|intros _ ?]
  | |- steady_at _ _ _ _ (when _ _) _ => eapply steady_when
  | |- steady_at _ _ _ _ handleVibrationButton _ =>
      apply steady_handleVibrationButton
  | |- steady_at _ _ _ _ (handleMouseMovement _ _) _ =>
      apply steady_handleMouseMovement
  | |- steady_at _ _ _ _ (handleScrolling _) _ => apply steady_handleScrolling
  | |- steady_at _ _ _ _ (handleTriggers _ _) _ => apply steady_handleTriggers
  | |- steady_at _ _ _ _ (mapKeyboard _ _) _ => apply steady_mapKeyboard
  | |- steady_at _ _ _ _ (mapMouseClick _ _ _) _ => apply steady_mapMouseClick
  end.

(** Everything after the disable check, for a configuration [c]: the
    buttons it queries, and whether it reads the triggers. *)
Lemma steady_dispatch powf (c : Config) (p : XINPUT_GAMEPAD) :
  exists S T, forall inp g, steady_at c p S T (dispatch powf inp) g.
Proof.
  eexists. eexists. intros inp g. unfold dispatch.
  apply steady_get, steady_at_cfg. intros Hc. cbv zeta. rewrite Hc. clear Hc.
  repeat steady_step.
Qed.

(** No key is repeated and nothing chatters: a tick that sees the same
    snapshot as the tick before it sends nothing but its sleep and the
    cursor and wheel motion; no keyboard event, no mouse button, no
    vibration, no window command and no message. *)
Theorem steady_tick_sends_no_keys powf (inp1 inp2 : TickInput) (g : Gopher) :
  pad inp2 = pad inp1 ->
  let g1 := exec (loop powf inp1) g in
  Forall (fun e => is_motion e = true) (events (loop powf inp2) g1).
Proof.
  intros Hpad. cbn zeta.
  set (c := cfg g). set (p := pad inp1).
  destruct (steady_dispatch powf c p) as (S & T & Hd).
  set (D := CONFIG_DISABLE c).
  (* what the first tick leaves behind *)
  assert (H1 : let g1 := exec (loop powf inp1) g in
               cfg g1 = c /\ synced p D g1 /\
               (_disabled g1 = false ->
                (forall s, In s S -> synced p s g1) /\
                (T = true -> triggers_synced p g1))).
  { cbn zeta. unfold exec at 1 2 3 4 5. rewrite loop_tick. cbn zeta.
    fold c D p.
    assert (Hs0 : synced p D (observe D g p)) by apply observe_last.
    assert (Hafter : forall g0, cfg g0 = c -> _currentState g0 = p ->
              synced p D g0 ->
              cfg (exec (dispatch powf inp1) g0) = c /\
              synced p D (exec (dispatch powf inp1) g0) /\
              (_disabled (exec (dispatch powf inp1) g0) = false ->
               (forall s, In s S -> synced p s (exec (dispatch powf inp1) g0)) /\
               (T = true -> triggers_synced p (exec (dispatch powf inp1) g0)))).
    { intros g0 Hc0 Hp0 Hd0.
      destruct (Hd inp1 g0 Hc0 Hp0) as ((Hc' & _ & Hb & _) & Hset & Htr & _).
      split; [congruence|]. split; [apply Hb, Hd0|]. intros _. split; assumption. }
    destruct (isDown_of (observe D g p) D);
      [destruct (_disabled g) eqn:Hdis|destruct (_disabled g) eqn:Hdis];
      cbn [fst snd].
    - apply Hafter; [reflexivity|reflexivity|exact Hs0].
    - split; [reflexivity|]. split; [exact Hs0|]. discriminate.
    - split; [reflexivity|]. split; [exact Hs0|].
      rewrite observe_disabled, Hdis. discriminate.
    - apply Hafter; [reflexivity|reflexivity|exact Hs0]. }
  cbn zeta in H1. revert H1.
  generalize (exec (loop powf inp1) g). intros g1 (Hc1 & HD1 & Hen).
  (* the second tick *)
  unfold events. rewrite loop_tick. cbn zeta. rewrite Hc1, Hpad. fold D p.
  assert (Hno : isDown_of (observe D g1 p) D = false).
  { rewrite observe_isDown. unfold synced in HD1. rewrite HD1.
    destruct (button_down D p); reflexivity. }
  rewrite Hno. destruct (_disabled g1) eqn:Hdis; cbn [snd].
  - repeat constructor.
  - constructor; [reflexivity|].
    destruct (Hen eq_refl) as [HS HT].
    destruct (Hd inp2 (observe D g1 p) Hc1 eq_refl) as (_ & _ & _ & Hcalm).
    apply Hcalm.
    + intros s Hs. apply synced_observe, HS, Hs.
    + intros Ht. apply HT, Ht.
Qed.

(** ** With the vibration switched off the motors get no command *)

Section Keeps.

Variables (I : Gopher -> Prop) (ok : Event -> bool).

Lemma keeps_ret {A} (a : A) : keeps I ok (ret a).
Proof. intros g H. split; [exact H|constructor]. Qed.

Lemma keeps_get : keeps I ok get.
Proof. intros g H. split; [exact H|constructor]. Qed.

Lemma keeps_emit e : ok e = true -> keeps I ok (emit e).
Proof. intros He g H. split; [exact H|repeat constructor; exact He]. Qed.

Lemma keeps_modify h : (forall g, I g -> I (h g)) -> keeps I ok (modify h).
Proof. intros Hh g H. split; [apply Hh, H|constructor]. Qed.

Lemma keeps_bind {A B} (m : Run A) (k : A -> Run B) :
  keeps I ok m -> (forall a, keeps I ok (k a)) -> keeps I ok (bind m k).
Proof.
  intros Hm Hk g H. destruct (Hm g H) as [H1 He1].
  destruct (Hk (fst (fst (m g))) (exec m g) H1) as [H2 He2].
  rewrite exec_bind, events_bind. split; [exact H2|].
  apply Forall_app. split; assumption.
Qed.

Lemma keeps_when b m : keeps I ok m -> keeps I ok (when b m).
Proof. destruct b; [trivial|]. intros _. apply keeps_ret. Qed.

Lemma keeps_forEach {A} (l : list A) body :
  (forall a, keeps I ok (body a)) -> keeps I ok (forEach l body).
Proof.
  intros Hb. induction l as [|a l IH]; cbn [forEach].
  - apply keeps_ret.
  - apply keeps_bind; [apply Hb|intros _; exact IH].
Qed.

Lemma keeps_erasePressedKey key :
  (forall l g, I g -> I (set_pressedKeys l g)) -> keeps I ok (erasePressedKey key).
Proof.
  intros Hs g H. unfold exec, events, erasePressedKey.
  destruct (erase_first key (_pressedKeys g)). cbn [fst snd].
  split; [apply Hs, H|constructor].
Qed.

Lemma keeps_releasePressed pressed :
  (forall l g, I g -> I (set_pressedKeys l g)) ->
  (forall f d, ok (SendMouse f d) = true) ->
  forall kb, keeps I ok (releasePressed pressed kb).
Proof.
  intros Hs Hm. induction pressed as [|k rest IH]; intros kb; cbn [releasePressed].
  - apply keeps_ret.
  - apply keeps_bind.
    + repeat match goal with
             | |- keeps _ _ (if ?b then _ else _) => destruct b
             | |- keeps _ _ (bind _ _) => apply keeps_bind; [|intros ?]
             | |- keeps _ _ (ret _) => apply keeps_ret
             | |- keeps _ _ (mouseEvent _ _) => apply keeps_emit, Hm
             end.
    + intros kb'. apply keeps_bind; [|intros _; apply IH].
      apply keeps_modify. intros g. apply Hs.
Qed.

End Keeps.

Lemma vibration_off_observe c p s g :
  vibration_off c p g -> vibration_off c p (observe s g p).
Proof.
  intros (Hv & Hc & Hp & Hl). split; [exact Hv|]. split; [exact Hc|].
  split; [reflexivity|]. intros Hd.
  destruct (Z.eq_dec (CONFIG_DISABLE_VIBRATION c) s) as [<-|Hne].
  - rewrite observe_last. exact Hd.
  - rewrite <- (Hl Hd). unfold lastIteration_of, at_bool. rewrite observe_clicks.
    destruct (setXboxClickState_maps_untouched (SLEEP_AMOUNT (cfg g)) (wButtons p)
                s (CONFIG_DISABLE_VIBRATION c) (clicks g) Hne) as (H & _).
    rewrite H. reflexivity.
Qed.

Lemma keeps_setXboxClickState c p ok s :
  keeps (vibration_off c p) ok (setXboxClickState s).
Proof.
  intros g H. split; [|constructor].
  rewrite exec_setXboxClickState.
  destruct H as (Hv & Hc & Hp & Hl). rewrite Hp.
  apply vibration_off_observe. repeat split; assumption.
Qed.

Lemma keeps_pulseVibrate c p d l r :
  keeps (vibration_off c p) (fun e => negb (is_vibration e)) (pulseVibrate d l r).
Proof.
  intros g H. destruct H as (Hv & H).
  unfold exec, events, pulseVibrate, bind, get, when, ret. rewrite Hv.
  cbn. split; [split; assumption|constructor].
Qed.

Lemma keeps_handleVibrationButton c p :
  keeps (vibration_off c p) (fun e => negb (is_vibration e)) handleVibrationButton.
Proof.
  intros g H. pose proof H as (Hv & Hc & Hp & Hl).
  set (V := CONFIG_DISABLE_VIBRATION c) in *.
  assert (Hrun : handleVibrationButton g = (tt, observe V g p, [])).
  { unfold handleVibrationButton. unfold bind at 1, get at 1. cbn [fst snd].
    rewrite Hc. fold V. unfold bind at 1.
    assert (Hq : setXboxClickState V g = (tt, observe V g p, []))
      by (rewrite <- Hp; destruct g; reflexivity).
    rewrite Hq. cbn [fst snd app]. unfold bind at 1, get at 1. cbn [fst snd app].
    change (cfg (observe V g p)) with (cfg g). rewrite Hc. fold V.
    rewrite observe_isDown.
    destruct (button_down V p) eqn:Hd; [rewrite (Hl eq_refl)|]; reflexivity. }
  unfold exec, events. rewrite Hrun. cbn [fst snd].
  split; [apply vibration_off_observe, H|constructor].
Qed.

(** One step of a proof of [keeps]: the rule of the combinator at the head,
    or the definition of the handler unfolded. The handlers that touch the
    tracker, the vibration or the speed are left to the invariant at hand. *)
Ltac keep_step :=
  lazymatch goal with
  | |- keeps _ _ (bind _ _) => apply keeps_bind; [|intros ?]
  | |- keeps _ _ (ret _) => apply keeps_ret
  | |- keeps _ _ get => apply keeps_get
  | |- keeps _ _ (emit _) => apply keeps_emit; reflexivity
  | |- keeps _ _ (modify _) => apply keeps_modify; intros ? ?; assumption
  | |- keeps _ _ (when _ _) => apply keeps_when
  | |- keeps _ _ (forEach _ _) => apply keeps_forEach; intros ?
  | |- keeps _ _ (erasePressedKey _) =>
      apply keeps_erasePressedKey; intros ? ? ?; assumption
  | |- keeps _ _ (releasePressed _ _) =>
      apply keeps_releasePressed; [intros ? ? ?; assumption|reflexivity]
  | |- keeps _ _ (if ?b then _ else _) => destruct b
  | |- keeps _ _ (match ?x with _ => _ end) => destruct x
  | |- keeps _ _ _ =>
      first [ progress unfold inputKeyboardDown, inputKeyboardUp, inputKeyboard,
                mouseEvent, push_back, mapKeyboard, mapMouseClick,
                handleTriggers, handleDisableButton, setWindowVisibility,
                toggleWindowVisibility, handleMouseMovement, handleScrolling,
                toggleOsk
            | progress cbv zeta ]
  end.

(** The handlers whose effect on [vibration_off] needs its own argument. *)
Ltac keep_vibration :=
  lazymatch goal with
  | |- keeps _ _ handleVibrationButton => apply keeps_handleVibrationButton
  | |- keeps _ _ (pulseVibrate _ _ _) => apply keeps_pulseVibrate
  | |- keeps _ _ (setXboxClickState _) => apply keeps_setXboxClickState
  | |- keeps _ _ changeSpeed => unfold changeSpeed
  end.

Ltac keep := repeat first [keep_vibration | keep_step].

Lemma keeps_handleDisableButton c p :
  keeps (vibration_off c p) (fun e => negb (is_vibration e)) handleDisableButton.
Proof. keep. Qed.

Lemma keeps_dispatch powf c p inp :
  keeps (vibration_off c p) (fun e => negb (is_vibration e)) (dispatch powf inp).
Proof. unfold dispatch. keep. Qed.

(** With the vibration switched off, and no new press of the command that
    switches it, a tick of [loop] sends no command to the vibration motors
    at all, whatever else happens on it (a disable toggle, a speed change),
    and the vibration is still switched off afterwards. *)
Theorem vibration_off_is_silent powf (inp : TickInput) (g : Gopher) :
  let V := CONFIG_DISABLE_VIBRATION (cfg g) in
  _vibrationDisabled g = true ->
  (button_down V (pad inp) = true -> lastIteration_of g V = true) ->
  Forall (fun e => is_vibration e = false) (events (loop powf inp) g) /\
  _vibrationDisabled (exec (loop powf inp) g) = true.
Proof.
  intros V Hv Hl.
  assert (H0 : vibration_off (cfg g) (pad inp) (set_currentState (pad inp) g))
    by (repeat split; assumption).
  destruct (keeps_handleDisableButton (cfg g) (pad inp) _ H0) as [H1 He1].
  assert (Hok : forall log, Forall (fun e => negb (is_vibration e) = true) log ->
                  Forall (fun e => is_vibration e = false) log).
  { intros log. apply List.Forall_impl. intros e. apply negb_true_iff. }
  unfold events, exec. rewrite loop_run. cbn zeta.
  destruct (_disabled (exec handleDisableButton (set_currentState (pad inp) g)));
    cbn [fst snd].
  - split; [constructor; [reflexivity|apply Hok, He1]|apply H1].
  - destruct (keeps_dispatch powf (cfg g) (pad inp) inp _ H1) as [H2 He2].
    split; [|apply H2].
    constructor; [reflexivity|]. apply Forall_app.
    split; apply Hok; assumption.
Qed.

(** ** How long a tick blocks *)

Lemma nap_total_app (l1 l2 : list Event) :
  nap_total (l1 ++ l2) = nap_total l1 + nap_total l2.
Proof.
  induction l1 as [|e l1 IH]; [reflexivity|].
  cbn [app nap_total fold_right]. fold (nap_total (l1 ++ l2)) (nap_total l1).
  rewrite IH. lia.
Qed.

Lemma blocks_ret {A} (a : A) : blocks 0 (ret a).
Proof. intros g. cbn. lia. Qed.

Lemma blocks_get : blocks 0 get.
Proof. intros g. cbn. lia. Qed.

Lemma blocks_modify h : blocks 0 (modify h).
Proof. intros g. cbn. lia. Qed.

Lemma blocks_emit_quiet e : nap_of e = 0 -> blocks 0 (emit e).
Proof. intros He g. cbn. lia. Qed.

Lemma blocks_emit_sleep ms : 0 <= ms -> blocks ms (emit (Sleep ms)).
Proof. intros He g. cbn. lia. Qed.

Lemma blocks_bind {A B} n1 n2 (m : Run A) (k : A -> Run B) :
  blocks n1 m -> (forall a, blocks n2 (k a)) -> blocks (n1 + n2) (bind m k).
Proof.
  intros Hm Hk g. rewrite events_bind, nap_total_app.
  specialize (Hm g). specialize (Hk (fst (fst (m g))) (exec m g)). lia.
Qed.

Lemma blocks_when n b m : blocks n m -> blocks n (when b m).
Proof.
  intros Hm. destruct b; [exact Hm|]. intros g. specialize (Hm g). cbn. lia.
Qed.

Lemma blocks_if {A} n1 n2 (b : bool) (m1 m2 : Run A) :
  blocks n1 m1 -> blocks n2 m2 -> blocks (Z.max n1 n2) (if b then m1 else m2).
Proof.
  intros H1 H2 g. specialize (H1 g). specialize (H2 g). destruct b; lia.
Qed.

Lemma blocks_forEach {A} (l : list A) body :
  (forall a, blocks 0 (body a)) -> blocks 0 (forEach l body).
Proof.
  intros Hb. induction l as [|a l IH]; cbn [forEach].
  - apply blocks_ret.
  - apply (blocks_bind 0 0); [apply Hb|intros _; exact IH].
Qed.

Lemma blocks_erasePressedKey key : blocks 0 (erasePressedKey key).
Proof.
  intros g. unfold events, erasePressedKey.
  destruct (erase_first key (_pressedKeys g)). cbn. lia.
Qed.

Lemma blocks_releasePressed pressed : forall kb, blocks 0 (releasePressed pressed kb).
Proof.
  induction pressed as [|k rest IH]; intros kb g; cbn [releasePressed].
  - cbn. lia.
  - rewrite events_bind, nap_total_app, events_bind, nap_total_app.
    match goal with
    | |- context [nap_total (events ?m g)] =>
        assert (H0 : nap_total (events m g) = 0)
          by (destruct (k =? VK_LBUTTON), (k =? VK_RBUTTON), (k =? VK_MBUTTON);
              reflexivity);
        rewrite H0
    end.
    change (nap_total (events (modify (set_pressedKeys rest)) _)) with 0.
    match goal with
    | |- context [nap_total (events (releasePressed rest ?kb') ?g')] =>
        specialize (IH kb' g')
    end.
    lia.
Qed.

Lemma blocks_pulseVibrate d l r : 0 <= d -> blocks d (pulseVibrate d l r).
Proof.
  intros Hd g. unfold events, pulseVibrate, bind, get, when, emit, ret.
  destruct (_vibrationDisabled g); cbn; lia.
Qed.

Lemma blocks_toggleOsk inp : blocks 0 (toggleOsk inp).
Proof. intros g. unfold toggleOsk. destruct (osk inp) as [[]|]; cbn; lia. Qed.

Lemma blocks_le {A} n n' (m : Run A) : blocks n m -> n <= n' -> blocks n' m.
Proof. intros H Hn g. specialize (H g). lia. Qed.

Ltac block :=
  lazymatch goal with
  | |- blocks _ (pulseVibrate _ _ _) => apply blocks_pulseVibrate; lia
  | |- blocks _ (toggleOsk _) => apply blocks_toggleOsk
  | |- blocks _ (bind _ _) => eapply blocks_bind; [block|intros ?; block]
  | |- blocks _ (ret _) => apply blocks_ret
  | |- blocks _ get => apply blocks_get
  | |- blocks _ (modify _) => apply blocks_modify
  | |- blocks _ (emit (Sleep _)) => apply blocks_emit_sleep; lia
  | |- blocks _ (emit _) => apply blocks_emit_quiet; reflexivity
  | |- blocks _ (when _ _) => eapply blocks_when; block
  | |- blocks _ (forEach _ _) =>
      apply blocks_forEach; intros ?; eapply blocks_le; [block|cbn; lia]
  | |- blocks _ (erasePressedKey _) => apply blocks_erasePressedKey
  | |- blocks _ (releasePressed _ _) => apply blocks_releasePressed
  | |- blocks _ (if _ then _ else _) => eapply blocks_if; block
  | |- blocks _ _ =>
      first [ progress unfold inputKeyboardDown, inputKeyboardUp, inputKeyboard,
                mouseEvent, setXboxClickState, push_back, mapKeyboard,
                mapMouseClick, handleTriggers, handleDisableButton,
                handleVibrationButton, setWindowVisibility,
                toggleWindowVisibility, handleMouseMovement, handleScrolling,
                changeSpeed, CHANGE_SPEED_VIBRATION_DURATION
            | progress cbv zeta ]; block
  end.

Lemma blocks_dispatch powf inp : blocks 1450 (dispatch powf inp).
Proof.
  eapply blocks_le; [unfold dispatch; block|]. cbn. lia.
Qed.

Lemma nap_pulse_events g d l r :
  0 <= d -> 0 <= nap_total (pulse_events g d l r) <= d.
Proof. intros Hd. unfold pulse_events. destruct (_vibrationDisabled g); cbn; lia. Qed.

Lemma nap_mouse_releases pressed : nap_total (mouse_releases pressed) = 0.
Proof.
  unfold mouse_releases. induction (List.filter is_mouse_code pressed) as [|k l IH];
    [reflexivity|]. cbn [map nap_total fold_right nap_of] in *.
  fold (nap_total (map (fun k => SendMouse (mouse_up_flag k) 0) l)).
  lia.
Qed.

Lemma nap_batched_key_up codes : nap_total (batched_key_up codes) = 0.
Proof. destruct codes; reflexivity. Qed.

Lemma nap_total_cons e l : nap_total (e :: l) = nap_of e + nap_total l.
Proof. reflexivity. Qed.

Lemma nap_total_nil : nap_total [] = 0.
Proof. reflexivity. Qed.

(** A tick of [loop] blocks for its own sleep and, beyond it, for at most
    1850 ms: 400 for the pulse of a disable toggle, 1000 for a vibration
    toggle and 450 for the pulse of a speed change; a tick that ends
    disabled blocks for at most 400 ms beyond its sleep. *)
Theorem tick_blocks_at_most powf (inp : TickInput) (g : Gopher) :
  let asleep := nap_total (events (loop powf inp) g) in
  SLEEP_AMOUNT (cfg g) <= asleep <= SLEEP_AMOUNT (cfg g) + 1850 /\
  (_disabled (exec (loop powf inp) g) = true ->
   asleep <= SLEEP_AMOUNT (cfg g) + 400).
Proof.
  cbn zeta.
  assert (Hev : events (loop powf inp) g = snd (loop powf inp g)) by reflexivity.
  assert (Hex : exec (loop powf inp) g = snd (fst (loop powf inp g)))
    by reflexivity.
  rewrite Hev, Hex, loop_tick. clear Hev Hex. cbn zeta.
  pose proof (nap_pulse_events g 400 65000 65000 ltac:(lia)) as Hp1.
  pose proof (nap_pulse_events g 400 10000 10000 ltac:(lia)) as Hp2.
  set (g1 := observe (CONFIG_DISABLE (cfg g)) g (pad inp)).
  assert (Hg1 : _disabled g1 = _disabled g) by apply observe_disabled.
  pose proof (blocks_dispatch powf inp g1) as Hd1.
  pose proof (blocks_dispatch powf inp (set_disabled false g1)) as Hd2.
  pose proof (dispatch_disabled powf inp g1) as He1.
  pose proof (dispatch_disabled powf inp (set_disabled false g1)) as He2.
  destruct (isDown_of g1 _); [destruct (_disabled g) eqn:Hdis
                             |destruct (_disabled g) eqn:Hdis];
    cbn [fst snd];
    rewrite ?nap_total_cons, ?nap_total_app, ?nap_mouse_releases,
      ?nap_batched_key_up, ?nap_total_nil;
    cbn [nap_of].
  - rewrite He2. split; [lia|discriminate].
  - split; lia.
  - split; lia.
  - rewrite He1, Hg1. split; [lia|discriminate].
Qed.

(** ** The active speed is an entry of the table *)

Lemma next_speed_idx_range n idx :
  0 <= idx < n -> 0 <= next_speed_idx n idx < n.
Proof.
  intros H. unfold next_speed_idx. cbn zeta.
  destruct (idx + 1 >=? n) eqn:E; [lia|].
  rewrite Z.geb_leb in E. apply Z.leb_gt in E. lia.
Qed.

Lemma keeps_changeSpeed c ok :
  (forall e, ok e = true) -> keeps (speed_ok c) ok changeSpeed.
Proof.
  intros Hok. unfold changeSpeed. apply keeps_bind.
  - apply keeps_modify. intros g (Hc & Hi & _). rewrite Hc.
    split; [exact Hc|]. cbn [speed_idx speed set_speed].
    split; [apply next_speed_idx_range, Hi|reflexivity].
  - intros _. apply keeps_bind; [apply keeps_get|intros g].
    apply keeps_bind; [apply keeps_emit, Hok|intros _].
    unfold pulseVibrate. apply keeps_bind; [apply keeps_get|intros g'].
    apply keeps_when. repeat (apply keeps_bind; [apply keeps_emit, Hok|intros _]).
    apply keeps_emit, Hok.
Qed.

Ltac keep_speed :=
  lazymatch goal with
  | |- keeps _ _ changeSpeed => apply keeps_changeSpeed; reflexivity
  | |- keeps _ _ handleVibrationButton => unfold handleVibrationButton
  | |- keeps _ _ (pulseVibrate _ _ _) => unfold pulseVibrate
  | |- keeps _ _ (setXboxClickState _) => unfold setXboxClickState
  end.

Lemma keeps_loop_speed powf c inp :
  keeps (speed_ok c) (fun _ => true) (loop powf inp).
Proof. unfold loop, dispatch. repeat first [keep_speed | keep_step]. Qed.

(** The active speed is always an entry of the speed table: when the speed
    index is within the table and [speed] is the entry at the index, as
    after [loadConfigFile], the same holds after any number of ticks, so
    [speeds[speed_idx]] is never read past the end of the table. *)
Theorem active_speed_in_table powf (inps : list TickInput) (g : Gopher) :
  0 <= speed_idx g < Z.of_nat (length (speeds (cfg g))) ->
  speed g = speed_at (cfg g) (speed_idx g) ->
  let g' := fst (run_ticks powf inps g) in
  0 <= speed_idx g' < Z.of_nat (length (speeds (cfg g))) /\
  speed g' = speed_at (cfg g) (speed_idx g') /\
  In (speed g') (speeds (cfg g)).
Proof.
  intros Hi Hs. cbn zeta.
  assert (H : speed_ok (cfg g) (fst (run_ticks powf inps g))).
  { assert (H0 : speed_ok (cfg g) g) by (split; [reflexivity|split; assumption]).
    clear Hi Hs. revert H0. generalize (cfg g) as c. intros c. revert g.
    induction inps as [|inp rest IH]; intros g H0; cbn [run_ticks]; [exact H0|].
    specialize (IH (exec (loop powf inp) g)
                  (proj1 (keeps_loop_speed powf c inp g H0))).
    destruct (run_ticks powf rest (exec (loop powf inp) g)) as [g2 log].
    exact IH. }
  destruct H as (_ & Hi' & Hs'). split; [exact Hi'|]. split; [exact Hs'|].
  rewrite Hs'. unfold speed_at. apply nth_In. lia.
Qed.

(** ** The console window is hidden exactly when [_hidden] is set *)

Lemma console_after_app (l1 l2 : list Event) (h : bool) :
  console_after (l1 ++ l2) h = console_after l2 (console_after l1 h).
Proof. apply fold_left_app. Qed.

Lemma shows_bind {A B} (m : Run A) (k : A -> Run B) :
  shows m -> (forall a, shows (k a)) -> shows (bind m k).
Proof.
  intros Hm Hk g. rewrite events_bind, exec_bind, console_after_app, Hm. apply Hk.
Qed.

Lemma shows_ret {A} (a : A) : shows (ret a).
Proof. intros g. reflexivity. Qed.

Lemma shows_get : shows get.
Proof. intros g. reflexivity. Qed.

Lemma shows_modify h : (forall g, _hidden (h g) = _hidden g) -> shows (modify h).
Proof. intros Hh g. symmetry. apply Hh. Qed.

Lemma shows_when b m : shows m -> shows (when b m).
Proof. destruct b; [trivial|]. intros _. apply shows_ret. Qed.

Lemma shows_forEach {A} (l : list A) body :
  (forall a, shows (body a)) -> shows (forEach l body).
Proof.
  intros Hb. induction l as [|a l IH]; cbn [forEach].
  - apply shows_ret.
  - apply shows_bind; [apply Hb|intros _; exact IH].
Qed.

Lemma shows_erasePressedKey key : shows (erasePressedKey key).
Proof.
  intros g. unfold events, exec, erasePressedKey.
  destruct (erase_first key (_pressedKeys g)). reflexivity.
Qed.

Lemma shows_releasePressed pressed : forall kb, shows (releasePressed pressed kb).
Proof.
  induction pressed as [|k rest IH]; intros kb; cbn [releasePressed].
  - apply shows_ret.
  - apply shows_bind.
    + repeat match goal with
             | |- shows (if ?b then _ else _) => destruct b
             | |- shows (bind _ _) => apply shows_bind; [|intros ?]
             | |- shows (ret _) => apply shows_ret
             | |- shows (mouseEvent _ _) => intros ?; reflexivity
             end.
    + intros kb'. apply shows_bind; [|intros _; apply IH].
      apply shows_modify. reflexivity.
Qed.

Lemma shows_setWindowVisibility : shows setWindowVisibility.
Proof. intros g. cbn. destruct (_hidden g); reflexivity. Qed.

Lemma shows_toggleWindowVisibility : shows toggleWindowVisibility.
Proof. intros g. cbn. destruct (_hidden g); reflexivity. Qed.

Ltac show_step :=
  lazymatch goal with
  | |- shows toggleWindowVisibility => apply shows_toggleWindowVisibility
  | |- shows setWindowVisibility => apply shows_setWindowVisibility
  | |- shows (bind _ _) => apply shows_bind; [|intros ?]
  | |- shows (ret _) => apply shows_ret
  | |- shows get => apply shows_get
  | |- shows (modify _) => apply shows_modify; reflexivity
  | |- shows (when _ _) => apply shows_when
  | |- shows (forEach _ _) => apply shows_forEach; intros ?
  | |- shows (erasePressedKey _) => apply shows_erasePressedKey
  | |- shows (releasePressed _ _) => apply shows_releasePressed
  | |- shows (emit _) => intros ?; reflexivity
  | |- shows (if ?b then _ else _) => destruct b
  | |- shows (match ?x with _ => _ end) => destruct x
  | |- shows _ =>
      first [ progress unfold inputKeyboardDown, inputKeyboardUp, inputKeyboard,
                mouseEvent, setXboxClickState, push_back, mapKeyboard,
                mapMouseClick, handleTriggers, handleDisableButton,
                handleVibrationButton, pulseVibrate, handleMouseMovement,
                handleScrolling, changeSpeed, toggleOsk
            | progress cbv zeta ]
  end.

Lemma shows_loop powf (inp : TickInput) : shows (loop powf inp).
Proof. unfold loop, dispatch. repeat show_step. Qed.

(** The console window follows [_hidden]: over any number of ticks that
    begin with the console hidden exactly when [_hidden] is set, the last
    command the console received leaves it hidden exactly when [_hidden] is
    set at the end. *)
Theorem console_follows_hidden powf (inps : list TickInput) (g : Gopher) :
  console_after (snd (run_ticks powf inps g)) (_hidden g)
  = _hidden (fst (run_ticks powf inps g)).
Proof.
  revert g. induction inps as [|inp rest IH]; intros g; cbn [run_ticks].
  - reflexivity.
  - specialize (IH (exec (loop powf inp) g)).
    destruct (run_ticks powf rest (exec (loop powf inp) g)) as [g2 log].
    cbn [fst snd] in *.
    rewrite console_after_app, (shows_loop powf inp g). exact IH.
Qed.

(** ** The theorems at concrete inputs *)

Lemma button_edge_cycle_witness :
  let A := XINPUT_GAMEPAD_A in
  let g1 := observe A example_gopher (pad_with 0x1000 0 0 0) in
  (isDown_of g1 A = true /\ isUp_of g1 A = false) /\
  (isDown_of (observe A g1 (pad_with 0x1000 0 0 0)) A = false) /\
  (isUp_of (observe A g1 idle_pad) A = true) /\
  (isUp_of (observe A (observe A g1 idle_pad) idle_pad) A = false).
Proof.
  cbn zeta.
  assert (Hup : _xboxClickStateLastIteration (clicks example_gopher)
                  !! XINPUT_GAMEPAD_A <> Some true)
    by (vm_compute; discriminate).
  assert (Hd : button_down XINPUT_GAMEPAD_A (pad_with 0x1000 0 0 0) = true)
    by reflexivity.
  pose proof (button_edge_cycle example_gopher XINPUT_GAMEPAD_A
                (pad_with 0x1000 0 0 0) (pad_with 0x1000 0 0 0) idle_pad Hup Hd)
    as (H1 & H2 & _).
  pose proof (button_edge_cycle example_gopher XINPUT_GAMEPAD_A
                (pad_with 0x1000 0 0 0) idle_pad idle_pad Hup Hd)
    as (_ & _ & H3).
  destruct (H2 eq_refl) as [H2d _].
  destruct (H3 eq_refl) as [[H3u _] H4].
  destruct (H4 eq_refl) as [H4u _].
  split; [exact H1|]. split; [exact H2d|]. split; [exact H3u|exact H4u].
Defined.

Lemma held_long_threshold_witness :
  let A := XINPUT_GAMEPAD_A in
  let held n := observe_all A example_gopher (repeat (pad_with 0x1000 0 0 0) n) in
  isDownLong_of (held 33%nat) A = false /\
  isDownLong_of (held 34%nat) A = true /\
  downLength_of (held 34%nat) A = 34 /\
  isDownLong_of (observe A (held 34%nat) idle_pad) A = false.
Proof.
  cbn zeta.
  assert (Hup : _xboxClickStateLastIteration (clicks example_gopher)
                  !! XINPUT_GAMEPAD_A <> Some true)
    by (vm_compute; discriminate).
  pose proof (held_long_threshold example_gopher XINPUT_GAMEPAD_A
                (repeat (pad_with 0x1000 0 0 0) 33) idle_pad Hup
                ltac:(discriminate)
                ltac:(apply List.Forall_forall; intros p Hp;
                      apply repeat_spec in Hp; subst p; reflexivity))
    as (_ & H33 & _).
  pose proof (held_long_threshold example_gopher XINPUT_GAMEPAD_A
                (repeat (pad_with 0x1000 0 0 0) 34) idle_pad Hup
                ltac:(discriminate)
                ltac:(apply List.Forall_forall; intros p Hp;
                      apply repeat_spec in Hp; subst p; reflexivity))
    as (Hn & H34 & _ & Hrel).
  split; [|split; [|split]].
  - rewrite H33. reflexivity.
  - rewrite H34. reflexivity.
  - rewrite Hn. reflexivity.
  - apply Hrel. reflexivity.
Defined.

Lemma disable_releases_all_witness :
  let press := input_with 0x1030 0 0 0 in
  _pressedKeys holding_gopher = [VK_LBUTTON; 0x5B; 0x44] /\
  events (loop pow_unused press) holding_gopher =
    [Sleep 6; SendMouse MOUSEEVENTF_LEFTUP 0;
     SendKeyboard [0x5B; 0x44] KEYEVENTF_KEYUP;
     Vibrate 10000 10000; Sleep 400; Vibrate 0 0] /\
  _pressedKeys (exec (loop pow_unused press) holding_gopher) = [] /\
  _disabled (exec (loop pow_unused press) holding_gopher) = true.
Proof.
  cbn zeta. split; [vm_compute; reflexivity|].
  destruct (disable_releases_all pow_unused (input_with 0x1030 0 0 0) holding_gopher)
    as (He & Hp & Hd).
  - vm_compute. reflexivity.
  - vm_compute. discriminate.
  - reflexivity.
  - rewrite He, Hp, Hd. split; [vm_compute; reflexivity|]. split; reflexivity.
Defined.

Lemma disabled_tick_skips_dispatch_witness :
  _disabled disabled_gopher = true /\
  (* stick pushed, A pressed, trigger pulled: nothing is dispatched *)
  events (loop pow_unused (input_with 0x1000 30000 0 255)) disabled_gopher = [Sleep 6] /\
  _pressedKeys (exec (loop pow_unused (input_with 0x1000 30000 0 255)) disabled_gopher) = [] /\
  (* released, then pressed again: the mapper is enabled again *)
  let g1 := exec (loop pow_unused (input_with 0 0 0 0)) disabled_gopher in
  _disabled (exec (loop pow_unused (input_with 0x0030 0 0 0)) g1) = false.
Proof.
  split; [vm_compute; reflexivity|].
  pose proof (disabled_tick_skips_dispatch pow_unused
                (input_with 0x1000 30000 0 255) disabled_gopher) as [_ H].
  destruct (H ltac:(vm_compute; reflexivity)) as [Hskip _].
  destruct (Hskip ltac:(vm_compute; reflexivity)) as [Hst Hev].
  split; [exact Hev|]. split; [rewrite Hst; vm_compute; reflexivity|].
  cbn zeta.
  pose proof (disabled_tick_skips_dispatch pow_unused (input_with 0x0030 0 0 0)
                (exec (loop pow_unused (input_with 0 0 0 0)) disabled_gopher))
    as [_ H'].
  destruct (H' ltac:(vm_compute; reflexivity)) as [_ Hen].
  apply (Hen ltac:(vm_compute; reflexivity)).
Defined.



Lemma scroll_inside_axis_deadzone_witness :
  let g := set_currentState (scroll_pad 10 6000) example_gopher in
  events (handleScrolling pow_unused) g =
    [SendMouse MOUSEEVENTF_HWHEEL
       (F32.to_DWORD (scroll_amount pow_unused example_config (getDelta 10)));
     SendMouse MOUSEEVENTF_WHEEL
       (F32.to_DWORD (scroll_amount pow_unused example_config (getDelta 6000)))] /\
  F32.signbit (scroll_amount pow_unused example_config (getDelta 10)) = Some true.
Proof.
  cbn zeta.
  destruct (scroll_inside_axis_deadzone pow_unused
              (set_currentState (scroll_pad 10 6000) example_gopher)) as [He Hs].
  split.
  - apply He. vm_compute. reflexivity.
  - refine (proj2 (Hs 10 _ _ _ _ _ _ _)).
    + unfold is_short. lia.
    + lia.
    + vm_compute. split; [reflexivity|discriminate].
    + vm_compute. split; reflexivity.
    + vm_compute. reflexivity.
Defined.



Lemma edge_flags_consistent_witness :
  let g' := observe XINPUT_GAMEPAD_A example_gopher (pad_with 0x1000 0 0 0) in
  isDown_of g' XINPUT_GAMEPAD_A = true /\ isUp_of g' XINPUT_GAMEPAD_A = false.
Proof.
  cbn zeta.
  destruct (edge_flags_consistent XINPUT_GAMEPAD_A example_gopher
              (pad_with 0x1000 0 0 0)) as (_ & Hd & _).
  assert (H : isDown_of (observe XINPUT_GAMEPAD_A example_gopher
                           (pad_with 0x1000 0 0 0)) XINPUT_GAMEPAD_A = true)
    by (vm_compute; reflexivity).
  split; [exact H|]. apply (Hd H).
Defined.

Lemma tracker_other_buttons_witness :
  _xboxClickIsDown
    (setXboxClickState_maps 6 0x1000 XINPUT_GAMEPAD_B
       (clicks (observe XINPUT_GAMEPAD_A example_gopher (pad_with 0x1000 0 0 0))))
    !! XINPUT_GAMEPAD_A = Some true.
Proof.
  destruct (tracker_other_buttons 6 0x1000 XINPUT_GAMEPAD_B XINPUT_GAMEPAD_A
              (clicks (observe XINPUT_GAMEPAD_A example_gopher (pad_with 0x1000 0 0 0))))
    as (_ & H & _).
  - discriminate.
  - rewrite H. vm_compute. reflexivity.
Defined.

Lemma long_press_only_while_down_witness :
  let g' := observe_all XINPUT_GAMEPAD_A example_gopher
              (repeat (pad_with 0x1000 0 0 0) 34) in
  isDownLong_of g' XINPUT_GAMEPAD_A = true /\
  lastIteration_of g' XINPUT_GAMEPAD_A = true.
Proof.
  cbn zeta.
  assert (H : isDownLong_of
                (observe_all XINPUT_GAMEPAD_A example_gopher
                   (repeat (pad_with 0x1000 0 0 0) 34)) XINPUT_GAMEPAD_A = true)
    by (vm_compute; reflexivity).
  split; [exact H|].
  apply (long_press_only_while_down XINPUT_GAMEPAD_A
           (repeat (pad_with 0x1000 0 0 0) 34) example_gopher);
    [reflexivity|exact H].
Defined.

Lemma erasePressedKey_first_occurrence_witness :
  _pressedKeys holding_gopher = [VK_LBUTTON; 0x5B; 0x44] /\
  (exists l1 l2,
     _pressedKeys holding_gopher = l1 ++ 0x5B :: l2 /\ ~ In 0x5B l1 /\
     erasePressedKey 0x5B holding_gopher
       = (true, set_pressedKeys (l1 ++ l2) holding_gopher, [])) /\
  erasePressedKey 0x0D holding_gopher = (false, holding_gopher, []).
Proof.
  split; [vm_compute; reflexivity|].
  destruct (erasePressedKey_first_occurrence 0x5B holding_gopher) as [H _].
  destruct (erasePressedKey_first_occurrence 0x0D holding_gopher) as [_ H'].
  split.
  - apply H. vm_compute. auto.
  - apply H'. vm_compute. intros [H0|[H0|[H0|[]]]]; discriminate.
Defined.

Lemma mapKeyboard_press_release_witness :
  let g1 := exec (mapKeyboard XINPUT_GAMEPAD_BACK [0x5B; 0x44])
              (set_currentState (pad_with 0x0020 0 0 0) example_gopher) in
  let g2 := exec (mapKeyboard XINPUT_GAMEPAD_BACK [0x5B; 0x44])
              (set_currentState idle_pad g1) in
  _pressedKeys g1 = [0x5B; 0x44] /\ _pressedKeys g2 = [].
Proof.
  cbn zeta.
  destruct (mapKeyboard_press_release XINPUT_GAMEPAD_BACK [0x5B; 0x44]
              example_gopher (pad_with 0x0020 0 0 0) idle_pad)
    as (_ & H1 & _ & _ & H2); try reflexivity.
  split; [exact H1|]. apply H2. intros k _ [].
Defined.

Lemma unbound_disable_locks_witness :
  let g1 := exec (loop pow_unused (input_with 0 0 0 0)) unbound_gopher in
  _disabled g1 = true /\
  _disabled (fst (run_ticks pow_unused
                    [input_with 0x0030 0 0 0; input_with 0 0 0 0;
                     input_with 0x1000 30000 0 255] g1)) = true /\
  snd (run_ticks pow_unused
         [input_with 0x0030 0 0 0; input_with 0 0 0 0;
          input_with 0x1000 30000 0 255] g1) = [Sleep 6; Sleep 6; Sleep 6].
Proof.
  cbn zeta.
  apply (unbound_disable_locks pow_unused (input_with 0 0 0 0)
           [input_with 0x0030 0 0 0; input_with 0 0 0 0;
            input_with 0x1000 30000 0 255] unbound_gopher); reflexivity.
Defined.

Lemma disabled_holds_nothing_witness :
  let g' := fst (run_ticks pow_unused
                   [input_with 0x1020 0 0 0; input_with 0x1030 0 0 0]
                   example_gopher) in
  _disabled g' = true /\ _pressedKeys g' = [].
Proof.
  cbn zeta.
  assert (H : _disabled (fst (run_ticks pow_unused
                [input_with 0x1020 0 0 0; input_with 0x1030 0 0 0]
                example_gopher)) = true) by (vm_compute; reflexivity).
  split; [exact H|].
  apply (disabled_holds_nothing pow_unused
           [input_with 0x1020 0 0 0; input_with 0x1030 0 0 0] example_gopher);
    [discriminate|exact H].
Defined.

Lemma trigger_held_sends_once_witness :
  let held := run_on (handleTriggers [0x20] [0x08])
                [pad_with 0 0 0 255; pad_with 0 0 0 200; pad_with 0 0 0 1]
                example_gopher in
  snd held = [SendKeyboard [0x20] 0] /\
  snd (run_on (handleTriggers [0x20] [0x08]) [idle_pad] (fst held))
    = [SendKeyboard [0x20] KEYEVENTF_KEYUP].
Proof.
  cbn zeta.
  assert (Hall : Forall (fun p => bLeftTrigger p > TRIGGER_DEAD_ZONE (cfg example_gopher) /\
                                  bRightTrigger p <= TRIGGER_DEAD_ZONE (cfg example_gopher))
                   [pad_with 0 0 0 255; pad_with 0 0 0 200; pad_with 0 0 0 1]).
  { repeat (constructor; [split; vm_compute; [reflexivity|discriminate]|]).
    constructor. }
  destruct (trigger_held_sends_once [0x20] [0x08] example_gopher
              [pad_with 0 0 0 255; pad_with 0 0 0 200; pad_with 0 0 0 1] idle_pad
              eq_refl eq_refl ltac:(discriminate) Hall
              ltac:(vm_compute; discriminate) ltac:(vm_compute; discriminate))
    as (H1 & _ & H2 & _).
  split; [exact H1|exact H2].
Defined.

Lemma pressed_keys_match_log_witness :
  let run := run_ticks pow_unused
               [input_with 0x1020 0 0 0; input_with 0x0020 0 0 0] plain_gopher in
  _pressedKeys (fst run) = [0x5B; 0x44] /\
  (In 0x5B (_pressedKeys (fst run)) <-> (0 < unmatched 0x5B (snd run))%nat) /\
  (In VK_LBUTTON (_pressedKeys (fst run))
   <-> (0 < unmatched VK_LBUTTON (snd run))%nat).
Proof.
  cbn zeta. split; [vm_compute; reflexivity|].
  destruct (pressed_keys_match_log pow_unused
              [input_with 0x1020 0 0 0; input_with 0x0020 0 0 0] plain_gopher)
    as [_ H]; try reflexivity.
  split; apply H; reflexivity.
Defined.

Lemma idle_stick_keeps_cursor_witness :
  let g := set_currentState (pad_with 0 3000 4000 0) example_gopher in
  events (handleMouseMovement pow_unused (input_with 0 3000 4000 0)) g
    = [SetCursorPos 100 100] /\
  exec (handleMouseMovement pow_unused (input_with 0 3000 4000 0)) g = g.
Proof.
  cbn zeta.
  apply (idle_stick_keeps_cursor pow_unused
           (set_currentState (pad_with 0 3000 4000 0) example_gopher)
           (input_with 0 3000 4000 0)); try reflexivity;
    vm_compute; discriminate.
Defined.

Lemma scroll_single_axis_threshold_witness :
  events (handleScrolling pow_unused)
    (set_currentState (scroll_pad 0 5000) example_gopher) = [] /\
  length (events (handleScrolling pow_unused)
            (set_currentState (scroll_pad 0 5001) example_gopher)) = 2%nat.
Proof.
  destruct (scroll_single_axis_threshold pow_unused
              (set_currentState (scroll_pad 0 5000) example_gopher)) as [H _];
    [split; vm_compute; discriminate|split; vm_compute; discriminate
    |left; reflexivity|split; [vm_compute; discriminate|reflexivity]|].
  destruct (scroll_single_axis_threshold pow_unused
              (set_currentState (scroll_pad 0 5001) example_gopher)) as [_ H'];
    [split; vm_compute; discriminate|split; vm_compute; discriminate
    |left; reflexivity|split; [vm_compute; discriminate|reflexivity]|].
  split.
  - apply H. vm_compute. discriminate.
  - rewrite H'; [reflexivity|]. vm_compute. reflexivity.
Defined.

Lemma scroll_beyond_axis_deadzone_witness :
  F32.signbit (scroll_amount pow_unused example_config (getDelta (-20000)))
  = Some true /\
  F32.signbit (scroll_amount pow_unused example_config (getDelta 20000))
  = Some false.
Proof.
  split.
  - refine (proj2 (scroll_beyond_axis_deadzone pow_unused example_config (-20000)
                     _ _ _ _ _ _ _ _)).
    + split; vm_compute; discriminate.
    + discriminate.
    + split; [vm_compute; discriminate|reflexivity].
    + reflexivity.
    + split; reflexivity.
    + vm_compute. reflexivity.
  - refine (proj2 (scroll_beyond_axis_deadzone pow_unused example_config 20000
                     _ _ _ _ _ _ _ _)).
    + split; vm_compute; discriminate.
    + discriminate.
    + split; [vm_compute; discriminate|reflexivity].
    + reflexivity.
    + split; reflexivity.
    + vm_compute. reflexivity.
Defined.

Lemma getMult_endpoints_witness :
  getMult pow_unused 150 (F32.mul (getDelta MAXSHORT) (getDelta MAXSHORT))
    (F32.of_Z 5000) F32.zero = F32.div (F32.of_Z 1) (F32.of_Z 150) /\
  getMult pow_unused 150 (F32.mul (getDelta (-5000)) (getDelta (-5000)))
    (F32.of_Z 5000) F32.zero = F32.zero.
Proof.
  destruct (getMult_endpoints pow_unused 150 5000) as [H1 H2].
  - split; [vm_compute; discriminate|reflexivity].
  - split; [exact H1|]. apply H2; [vm_compute; discriminate|split; reflexivity].
Defined.

Lemma getlines_fields_witness :
  getlines ","%char "fast=1,,2," = ["fast=1"; ""; "2"]%string /\
  ("fast=1,,2," = join ","%char (getlines ","%char "fast=1,,2,") ++ ",")%string /\
  getlines ","%char "" = [].
Proof.
  split; [reflexivity|].
  destruct (getlines_fields ","%char "fast=1,,2,") as (_ & [H|H] & _).
  - vm_compute in H. discriminate.
  - split; [exact H|].
    destruct (getlines_fields ","%char "") as (_ & _ & H'). apply H'. reflexivity.
Defined.

Lemma loadConfigFile_table_witness :
  exists g' ev,
    loadConfigFile stoi_digits strtof_digits strtol_digits example_file new_gopher
      = Some (g', ev) /\
    speeds (cfg g') = [F32.of_Z 1; F32.of_Z 1] /\
    speed_names (cfg g') = ["fast"; "2"]%string /\
    speed g' = speed_at (cfg g') 0 /\
    DEAD_ZONE (cfg g') = 6000.
Proof.
  destruct (loadConfigFile stoi_digits strtof_digits strtol_digits example_file
              new_gopher) as [[g' ev]|] eqn:H; [|vm_compute in H; discriminate].
  exists g', ev. split; [reflexivity|].
  pose proof (loadConfigFile_table stoi_digits strtof_digits strtol_digits
                example_file new_gopher g' ev H eq_refl (List.Forall_nil _))
    as (_ & _ & _ & Hs & _).
  vm_compute in H. injection H as <- <-.
  split; [reflexivity|]. split; [reflexivity|]. split; [exact Hs|reflexivity].
Defined.

Lemma loadConfigFile_words_witness :
  exists g' ev,
    loadConfigFile stoi_digits strtof_digits strtol_digits example_file new_gopher
      = Some (g', ev) /\
    CONFIG_DISABLE (cfg g') = 0x0030 /\ GAMEPAD_A (cfg g') = [0x41; 0x0D] /\
    Forall is_word (GAMEPAD_A (cfg g')).
Proof.
  destruct (loadConfigFile stoi_digits strtof_digits strtol_digits example_file
              new_gopher) as [[g' ev]|] eqn:H; [|vm_compute in H; discriminate].
  exists g', ev. split; [reflexivity|].
  pose proof (loadConfigFile_words stoi_digits strtof_digits strtol_digits
                example_file new_gopher g' ev H) as [_ Hb].
  assert (Ha : Forall is_word (GAMEPAD_A (cfg g'))).
  { unfold bindings_of in Hb.
    do 10 (apply Forall_cons_iff in Hb as [_ Hb]).
    apply Forall_cons_iff in Hb as [Ha _]. exact Ha. }
  vm_compute in H. injection H as <- <-.
  split; [reflexivity|]. split; [reflexivity|exact Ha].
Defined.

Lemma loadConfigFile_frame_witness :
  exists g',
    loadConfigFile stoi_digits strtof_digits strtol_digits example_file new_gopher
      = Some (g', [ShowWindow ConsoleWindow SW_SHOW]) /\
    FPS (cfg g') = 150 /\ _pressedKeys g' = [].
Proof.
  destruct (loadConfigFile stoi_digits strtof_digits strtol_digits example_file
              new_gopher) as [[g' ev]|] eqn:H; [|vm_compute in H; discriminate].
  destruct (loadConfigFile_frame stoi_digits strtof_digits strtol_digits
              example_file new_gopher g' ev H) as (Hg & HF & _ & _ & Hev).
  exists g'. rewrite Hev. split; [reflexivity|]. split; [exact HF|].
  rewrite Hg. reflexivity.
Defined.

Lemma loadConfigFile_missing_entries_witness :
  exists g',
    loadConfigFile stoi_digits strtof_digits strtol_digits ∅ new_gopher
      = Some (g', [ShowWindow ConsoleWindow SW_SHOW]) /\
    CONFIG_DISABLE (cfg g') = 0 /\ GAMEPAD_A (cfg g') = [0] /\
    speeds (cfg g') = default_speeds.
Proof.
  destruct (loadConfigFile_missing_entries stoi_digits strtof_digits strtol_digits
              eq_refl eq_refl eq_refl new_gopher eq_refl eq_refl)
    as (g' & H & Hc & Hb & _ & _ & _ & _ & Hs & _).
  exists g'. split; [exact H|].
  unfold commands_of in Hc. unfold bindings_of in Hb. cbn [repeat] in Hc, Hb.
  split; [congruence|]. split; [congruence|exact Hs].
Defined.

Lemma getOskWindow_first_match_witness :
  getOskWindow example_windows = 0x2B4 /\
  getOskWindow [{| hWnd := 0x1A2; caption := "Notepad" |}] = NULL.
Proof.
  destruct (getOskWindow_first_match example_windows) as [_ H].
  destruct (getOskWindow_first_match [{| hWnd := 0x1A2; caption := "Notepad" |}])
    as [H' _].
  split.
  - apply (H [{| hWnd := 0x1A2; caption := "On-Screen Keyboard - Notepad" |}]
             {| hWnd := 0x2B4; caption := "On-Screen Keyboard" |}
             [{| hWnd := 0x3C6; caption := "On-Screen Keyboard" |}]);
      [reflexivity|reflexivity|].
    intros w' [<-|[]]. discriminate.
  - apply H'. intros w [<-|[]]. discriminate.
Defined.

Lemma cursor_follows_stick_on_axis_witness :
  let g := set_currentState (pad_with 0 (-20000) 0 0) example_gopher in
  F32.signbit (mv_dx (movement pow_unused g (input_with 0 (-20000) 0 0)))
    = Some true.
Proof.
  cbn zeta.
  assert (Hs : exists sm se,
             speed (set_currentState (pad_with 0 (-20000) 0 0) example_gopher)
             = S754_finite false sm se) by (vm_compute; eauto).
  destruct Hs as (sm & se & Hs).
  destruct (cursor_follows_stick_on_axis pow_unused
              (set_currentState (pad_with 0 (-20000) 0 0) example_gopher)
              (input_with 0 (-20000) 0 0) sm se
              ltac:(vm_compute; split; discriminate)
              ltac:(vm_compute; split; discriminate)
              ltac:(vm_compute; split; [discriminate|reflexivity])
              ltac:(vm_compute; split; reflexivity)
              eq_refl Hs) as [Hx _].
  apply Hx; [reflexivity|vm_compute; reflexivity].
Defined.

Lemma steady_tick_sends_no_keys_witness :
  Forall (fun e => is_motion e = true)
    (events (loop pow_unused (input_with 0x1000 0 0 0))
       (exec (loop pow_unused (input_with 0x1000 0 0 0)) example_gopher)).
Proof.
  apply (steady_tick_sends_no_keys pow_unused (input_with 0x1000 0 0 0)
           (input_with 0x1000 0 0 0) example_gopher eq_refl).
Defined.

Lemma vibration_off_is_silent_witness :
  let g := exec (loop pow_unused (input_with 0x0090 0 0 0)) example_gopher in
  Forall (fun e => is_vibration e = false)
    (events (loop pow_unused (input_with 0x0090 0 0 0)) g) /\
  _vibrationDisabled (exec (loop pow_unused (input_with 0x0090 0 0 0)) g) = true.
Proof.
  cbn zeta.
  apply (vibration_off_is_silent pow_unused (input_with 0x0090 0 0 0)
           (exec (loop pow_unused (input_with 0x0090 0 0 0)) example_gopher));
    [vm_compute; reflexivity|intros _; vm_compute; reflexivity].
Defined.

Lemma tick_blocks_at_most_witness :
  let asleep :=
    nap_total (events (loop pow_unused (input_with 0x0030 0 0 0)) example_gopher) in
  6 <= asleep <= 1856 /\ asleep <= 406.
Proof.
  cbn zeta.
  destruct (tick_blocks_at_most pow_unused (input_with 0x0030 0 0 0)
              example_gopher) as [Hb Hd].
  split; [exact Hb|apply Hd; vm_compute; reflexivity].
Defined.

Lemma active_speed_in_table_witness :
  let g' := fst (run_ticks pow_unused
                   [input_with 0x0300 0 0 0; input_with 0 0 0 0;
                    input_with 0x0300 0 0 0] example_gopher) in
  0 <= speed_idx g' < 4 /\ In (speed g') (speeds example_config).
Proof.
  cbn zeta.
  destruct (active_speed_in_table pow_unused
              [input_with 0x0300 0 0 0; input_with 0 0 0 0;
               input_with 0x0300 0 0 0] example_gopher
              ltac:(vm_compute; split; [discriminate|reflexivity]) eq_refl)
    as (Hi & _ & Hin).
  split; [exact Hi|exact Hin].
Defined.
